(** * A shallow embedding of [capture.c] (node-v4l2camera)

    The file follows the layout of the C source: the format codec
    ([camera_format_id], [camera_format_name]), the colour conversion
    ([yuyv2rgb]), and the device operations ([camera_open] ...
    [camera_capture], the single-control accessors).

    Integers of the C program are represented by [Z]; conversions to the
    fixed-width types of the source are written out ([uint32], [uint8]).

    The device operations are computations over a world that holds the
    camera object, [errno], the live mappings and a trace of every
    system call, [munmap], [free] and diagnostics call made so far.
    What the kernel answers is a parameter of a run ([V4L2.kernel]), so
    a statement proved for every kernel covers every behaviour of the
    driver.  A computation that follows a null pointer or leaves an
    array has no result. *)

From Stdlib Require Import ZArith Lia Ascii String.
From stdpp Require Import base numbers option list gmultiset strings.

Local Open Scope Z_scope.

(** ** Fixed-width conversions *)

Definition uint32 (z : Z) : Z := z mod 2 ^ 32.
Definition uint8 (z : Z) : Z := z mod 2 ^ 8.

(** ** FormatCodec: four-character tags *)

Module FormatCodec.

(** Whether plain [char] is a signed type is fixed by the platform ABI:
    it is signed on x86 and x86-64 Linux and unsigned on ARM Linux. *)
Inductive char_sign := SignedChar | UnsignedChar.

Definition char_code (c : ascii) : Z := Z.of_N (N_of_ascii c).

(** The conversion [(uint32_t) c] of a plain [char]. *)
Definition char_to_uint32 (sg : char_sign) (c : ascii) : Z :=
  match sg with
  | UnsignedChar => char_code c
  | SignedChar =>
      if 128 <=? char_code c then uint32 (char_code c - 256) else char_code c
  end.

(** The conversion of an integer to [char] keeps the low eight bits. *)
Definition char_of_int (z : Z) : ascii := ascii_of_N (Z.to_N (uint8 z)).

Definition NUL : ascii := Ascii.zero.

(** [name[i]] for a C string: the characters of [name], then the
    terminator; reading further is outside the object. *)
Definition c_char (name : string) (i : nat) : option ascii :=
  match String.get i name with
  | Some c => Some c
  | None => if decide (i = String.length name) then Some NUL else None
  end.

(** The C string held by a character buffer: everything before the
    first terminator. *)
Fixpoint c_string_of (buf : list ascii) : string :=
  match buf with
  | [] => EmptyString
  | c :: rest => if decide (c = NUL) then EmptyString else String c (c_string_of rest)
  end.

Definition camera_format_id (sg : char_sign) (name : string) : option Z :=
  c0 ← c_char name 0;
  c1 ← c_char name 1;
  c2 ← c_char name 2;
  c3 ← c_char name 3;
  Some (Z.lor (Z.lor (Z.lor (char_to_uint32 sg c0)
                            (uint32 (Z.shiftl (char_to_uint32 sg c1) 8)))
                     (uint32 (Z.shiftl (char_to_uint32 sg c2) 16)))
              (uint32 (Z.shiftl (char_to_uint32 sg c3) 24))).

(** [camera_format_name] fills the five characters of [name]. *)
Definition camera_format_name (format_id : Z) : list ascii :=
  [ char_of_int (Z.land format_id 255);
    char_of_int (Z.land (Z.shiftr format_id 8) 255);
    char_of_int (Z.land (Z.shiftr format_id 16) 255);
    char_of_int (Z.land (Z.shiftr format_id 24) 255);
    NUL ].



End FormatCodec.

(** ** Colour conversion *)

Module Convert.

Definition minmax (min v max : Z) : Z :=
  if v <? min then min else if max <? v then max else v.

(** The channel functions compute in [int] and return [uint8_t]; the
    right shift of a negative [int] is the arithmetic one. *)
Definition yuv2r (y u v : Z) : Z := uint8 (minmax 0 (Z.shiftr (y + 359 * v) 8) 255).
Definition yuv2g (y u v : Z) : Z := uint8 (minmax 0 (Z.shiftr (y + 88 * v - 183 * u) 8) 255).
Definition yuv2b (y u v : Z) : Z := uint8 (minmax 0 (Z.shiftr (y + 454 * u) 8) 255).

(** The state of the two walking pointers of [yuyv2rgb]: what is left of
    the source, the destination block and the write position in it. *)
Record cursor := Cursor { src : list Z; rgb : list Z; rgbp : nat }.

(** [*rgbp++ = x]; a store past the end of the block has no meaning. *)
Definition put (x : Z) (c : cursor) : option cursor :=
  if decide (rgbp c < length (rgb c))%nat
  then Some (Cursor (src c) (<[rgbp c := x]> (rgb c)) (S (rgbp c)))
  else None.

(** One macropixel: the body of the inner loop. *)
Definition macropixel (c : cursor) : option cursor :=
  match src c with
  | b0 :: b1 :: b2 :: b3 :: rest =>
      let y0 := Z.shiftl b0 8 in
      let u := b1 - 128 in
      let y1 := Z.shiftl b2 8 in
      let v := b3 - 128 in
      c ← put (yuv2r y0 u v) (Cursor rest (rgb c) (rgbp c));
      c ← put (yuv2g y0 u v) c;
      c ← put (yuv2b y0 u v) c;
      c ← put (yuv2r y1 u v) c;
      c ← put (yuv2g y1 u v) c;
      put (yuv2b y1 u v) c
  | _ => None
  end.

(** [n] iterations of a loop body. *)
Fixpoint iterate (n : nat) (body : cursor → option cursor) (c : cursor) : option cursor :=
  match n with
  | O => Some c
  | S n' => c' ← body c; iterate n' body c'
  end.

(** The inner loop runs for j = 0, 2, 4, ... below [width]. *)
Definition columns (width : Z) : nat := Z.to_nat ((width + 1) / 2).

Definition yuyv2rgb (yuyv : list Z) (width height : Z) : option (list Z) :=
  let rgb := replicate (Z.to_nat (uint32 (width * height * 3))) 0 in
  c ← iterate (Z.to_nat height) (iterate (columns width) macropixel) (Cursor yuyv rgb 0);
  Some (Convert.rgb c).

Definition is_byte (z : Z) : Prop := 0 ≤ z ≤ 255.

Definition saturate (z : Z) : Z := Z.max 0 (Z.min 255 z).

(** The destination holds bytes only. *)
Definition bytes_only (c : cursor) : Prop := Forall is_byte (rgb c).

End Convert.

(** ** The kernel interface: [<linux/videodev2.h>] and the system calls

    The constants carry their Linux values; the structures carry the
    fields the program reads or writes. *)

Module V4L2.

Definition EINTR : Z := 4.
Definition O_RDWR : Z := 2.
Definition O_NONBLOCK : Z := 2048.
Definition PROT_READ : Z := 1.
Definition PROT_WRITE : Z := 2.
Definition MAP_SHARED : Z := 1.
Definition MAP_FAILED : Z := -1.
Definition NULL : Z := 0.

Definition V4L2_BUF_TYPE_VIDEO_CAPTURE : Z := 1.
Definition V4L2_MEMORY_MMAP : Z := 1.
Definition V4L2_FIELD_NONE : Z := 1.
Definition V4L2_CAP_VIDEO_CAPTURE : Z := 1.
Definition V4L2_CAP_STREAMING : Z := 67108864.
(** [v4l2_fourcc('Y', 'U', 'Y', 'V')] *)
Definition V4L2_PIX_FMT_YUYV : Z := 1448695129.

Record v4l2_capability := { capabilities : Z }.
Record v4l2_rect := { rect_left : Z; rect_top : Z; rect_width : Z; rect_height : Z }.
Record v4l2_cropcap := { cropcap_type : Z; defrect : v4l2_rect }.
Record v4l2_crop := { crop_type : Z; crop_c : v4l2_rect }.
Record v4l2_requestbuffers := { req_count : Z; req_type : Z; req_memory : Z }.
Record v4l2_buffer := {
  buf_index : Z; buf_type : Z; buf_bytesused : Z; buf_memory : Z;
  buf_m_offset : Z; buf_length : Z }.
Record v4l2_pix_format := {
  pix_width : Z; pix_height : Z; pix_pixelformat : Z; pix_field : Z }.
Record v4l2_format := { fmt_type : Z; fmt_pix : v4l2_pix_format }.
Record v4l2_streamparm := {
  parm_type : Z; timeperframe_numerator : Z; timeperframe_denominator : Z }.
Record v4l2_control := { ctrl_id : Z; ctrl_value : Z }.

(** The requests the program issues, indexed by the structure they
    exchange with the driver. *)
Inductive ioctl_request : Type → Type :=
| VIDIOC_QUERYCAP : ioctl_request v4l2_capability
| VIDIOC_CROPCAP : ioctl_request v4l2_cropcap
| VIDIOC_S_CROP : ioctl_request v4l2_crop
| VIDIOC_REQBUFS : ioctl_request v4l2_requestbuffers
| VIDIOC_QUERYBUF : ioctl_request v4l2_buffer
| VIDIOC_G_FMT : ioctl_request v4l2_format
| VIDIOC_S_FMT : ioctl_request v4l2_format
| VIDIOC_S_PARM : ioctl_request v4l2_streamparm
| VIDIOC_STREAMON : ioctl_request Z
| VIDIOC_STREAMOFF : ioctl_request Z
| VIDIOC_QBUF : ioctl_request v4l2_buffer
| VIDIOC_DQBUF : ioctl_request v4l2_buffer
| VIDIOC_G_CTRL : ioctl_request v4l2_control
| VIDIOC_S_CTRL : ioctl_request v4l2_control.

Definition request_name {A} (request : ioctl_request A) : string :=
  match request with
  | VIDIOC_QUERYCAP => "VIDIOC_QUERYCAP"
  | VIDIOC_CROPCAP => "VIDIOC_CROPCAP"
  | VIDIOC_S_CROP => "VIDIOC_S_CROP"
  | VIDIOC_REQBUFS => "VIDIOC_REQBUFS"
  | VIDIOC_QUERYBUF => "VIDIOC_QUERYBUF"
  | VIDIOC_G_FMT => "VIDIOC_G_FMT"
  | VIDIOC_S_FMT => "VIDIOC_S_FMT"
  | VIDIOC_S_PARM => "VIDIOC_S_PARM"
  | VIDIOC_STREAMON => "VIDIOC_STREAMON"
  | VIDIOC_STREAMOFF => "VIDIOC_STREAMOFF"
  | VIDIOC_QBUF => "VIDIOC_QBUF"
  | VIDIOC_DQBUF => "VIDIOC_DQBUF"
  | VIDIOC_G_CTRL => "VIDIOC_G_CTRL"
  | VIDIOC_S_CTRL => "VIDIOC_S_CTRL"
  end.

(** The system calls whose outcome the kernel decides, indexed by what
    they hand back.  [ioctl] returns its status and the structure as
    the driver left it. *)
Inductive syscall : Type → Type :=
| sys_open (path : string) (flags mode : Z) : syscall Z
| sys_close (fd : Z) : syscall Z
| sys_ioctl {A : Type} (fd : Z) (request : ioctl_request A) (arg : A) : syscall (Z * A)
| sys_mmap (addr len prot flags fd offset : Z) : syscall Z.

(** The environment of a run: the result of the n-th system call, the
    value of [errno] after it, and the contents of device memory at
    that time. *)
Record kernel := {
  k_result : nat → ∀ R, syscall R → R;
  k_errno : nat → Z;
  k_memory : nat → Z → Z }.

End V4L2.

(** ** The camera object and the world it lives in *)

Module Camera.
Import V4L2.

(** The types of [capture.h], which is not among the sources, are laid
    out from the data model of the specification and carry the fields
    [capture.c] reads and writes, under the names it uses. *)

(** Modelled from the spec: [camera_log_t] of [capture.h], the
    severities ERROR, FAILURE and INFO of the diagnostics callback. *)
Inductive camera_log_t := CAMERA_ERROR | CAMERA_FAIL | CAMERA_INFO.

(** A line written by [fprintf(stderr, ...)] in [log_stderr]; the text of
    an error line is determined by the message and [errno]. *)
Inductive diag_line :=
| LineError (msg : string) (errno : Z)
| LineFail (msg : string)
| LineInfo (msg : string).

(** Modelled from the spec: the callback type of [capture.h].  A
    diagnostics callback receives the severity, the message and the
    opaque user pointer; it may consult [errno] and extends the
    diagnostics output. *)
Definition camera_log_fn : Type :=
  camera_log_t → string → Z → Z → list diag_line → list diag_line.

(** Modelled from the spec: [camera_context_t] of [capture.h], the
    callback and its user pointer. *)
Record camera_context_t := { pointer : Z; log : camera_log_fn }.

(** Modelled from the spec: [camera_buffer_t] of [capture.h] for a
    mapped capture buffer, its address and its byte count. *)
Record camera_buffer_t := { b_start : Z; b_length : Z }.

(** Modelled from the spec: [camera_buffer_t] of [capture.h] for the
    frame snapshot, the block [start] points to ([None] for a null
    pointer) and the recorded length. *)
Record camera_head_t := { h_start : option (list Z); h_length : Z }.

(** Modelled from the spec: [camera_t] of [capture.h]. *)
Record camera_t := {
  fd : Z;
  initialized : bool;
  width : Z;
  height : Z;
  buffer_count : Z;
  buffers : option (list camera_buffer_t);
  head : camera_head_t;
  context : camera_context_t }.

(** Modelled from the spec: [camera_config_t] of [capture.h], the
    requested format, size and frame interval. *)
Record camera_interval_t := { numerator : Z; denominator : Z }.

Record camera_config_t := {
  cfg_format : Z; cfg_width : Z; cfg_height : Z; cfg_interval : camera_interval_t }.

(** What [free] is handed. *)
Inductive block :=
| BufferArray (bs : list camera_buffer_t)
| ByteBlock (bytes : list Z)
| CameraObject.

Inductive event :=
| EvSys {R : Type} (call : syscall R) (result : R)
| EvMunmap (start len : Z)
| EvFree (p : option block)
| EvLog (type : camera_log_t) (msg : string) (pointer : Z).

(** The world: the camera object (absent before [camera_open] and after
    [camera_close]), [errno], the number of system calls made so far,
    the regions currently mapped, everything done so far, and the
    diagnostics output. *)
Record world := {
  w_camera : option camera_t;
  w_errno : Z;
  w_clock : nat;
  w_mapped : gmultiset (Z * Z);
  w_trace : list event;
  w_diag : list diag_line }.

(** Field updates. *)
Definition set_initialized (v : bool) (c : camera_t) : camera_t :=
  {| fd := fd c; initialized := v; width := width c; height := height c;
     buffer_count := buffer_count c; buffers := buffers c; head := head c;
     context := context c |}.
Definition set_width (v : Z) (c : camera_t) : camera_t :=
  {| fd := fd c; initialized := initialized c; width := v; height := height c;
     buffer_count := buffer_count c; buffers := buffers c; head := head c;
     context := context c |}.
Definition set_height (v : Z) (c : camera_t) : camera_t :=
  {| fd := fd c; initialized := initialized c; width := width c; height := v;
     buffer_count := buffer_count c; buffers := buffers c; head := head c;
     context := context c |}.
Definition set_buffer_count (v : Z) (c : camera_t) : camera_t :=
  {| fd := fd c; initialized := initialized c; width := width c; height := height c;
     buffer_count := v; buffers := buffers c; head := head c;
     context := context c |}.
Definition set_buffers (v : option (list camera_buffer_t)) (c : camera_t) : camera_t :=
  {| fd := fd c; initialized := initialized c; width := width c; height := height c;
     buffer_count := buffer_count c; buffers := v; head := head c;
     context := context c |}.
Definition set_head (v : camera_head_t) (c : camera_t) : camera_t :=
  {| fd := fd c; initialized := initialized c; width := width c; height := height c;
     buffer_count := buffer_count c; buffers := buffers c; head := v;
     context := context c |}.
Definition set_head_start (v : option (list Z)) (c : camera_t) : camera_t :=
  set_head {| h_start := v; h_length := h_length (head c) |} c.
Definition set_head_length (v : Z) (c : camera_t) : camera_t :=
  set_head {| h_start := h_start (head c); h_length := v |} c.
(** [camera->buffers[i].length = v] and [camera->buffers[i].start = v] *)
Definition set_buffer_length (i : nat) (v : Z) (c : camera_t) : camera_t :=
  set_buffers ((λ bs, alter (λ b, {| b_start := b_start b; b_length := v |}) i bs) <$> buffers c) c.
Definition set_buffer_start (i : nat) (v : Z) (c : camera_t) : camera_t :=
  set_buffers ((λ bs, alter (λ b, {| b_start := v; b_length := b_length b |}) i bs) <$> buffers c) c.

Definition with_camera (v : option camera_t) (w : world) : world :=
  {| w_camera := v; w_errno := w_errno w; w_clock := w_clock w;
     w_mapped := w_mapped w; w_trace := w_trace w; w_diag := w_diag w |}.
Definition with_mapped (v : gmultiset (Z * Z)) (w : world) : world :=
  {| w_camera := w_camera w; w_errno := w_errno w; w_clock := w_clock w;
     w_mapped := v; w_trace := w_trace w; w_diag := w_diag w |}.
Definition with_event (e : event) (w : world) : world :=
  {| w_camera := w_camera w; w_errno := w_errno w; w_clock := w_clock w;
     w_mapped := w_mapped w; w_trace := w_trace w ++ [e]; w_diag := w_diag w |}.
Definition with_diag (v : list diag_line) (w : world) : world :=
  {| w_camera := w_camera w; w_errno := w_errno w; w_clock := w_clock w;
     w_mapped := w_mapped w; w_trace := w_trace w; w_diag := v |}.

(** *** Computations

    A computation runs in a world and either has no defined behaviour
    ([None]: a null or dangling pointer was followed, an index was out
    of range) or yields a value and the world it leaves. *)
Definition M (A : Type) : Type := world → option (A * world).

#[export] Instance M_ret : MRet M := λ A x w, Some (x, w).
#[export] Instance M_bind : MBind M := λ A B f m w,
  match m w with
  | Some (a, w') => f a w'
  | None => None
  end.

(** Reading and writing through the [camera] pointer. *)
Definition get {A} (f : camera_t → A) : M A := λ w,
  match w_camera w with
  | Some c => Some (f c, w)
  | None => None
  end.
Definition set (f : camera_t → camera_t) : M unit := λ w,
  match w_camera w with
  | Some c => Some ((), with_camera (Some (f c)) w)
  | None => None
  end.

Definition errno : M Z := λ w, Some (w_errno w, w).

Definition modify (f : world → world) : M unit := λ w, Some ((), f w).

(** [munmap] and [free] take effect as asked; the source ignores what
    they return. *)
Definition munmap (start len : Z) : M unit := λ w,
  Some ((), with_event (EvMunmap start len)
              (with_mapped (w_mapped w ∖ {[+ (start, len) +]}) w)).

Definition free (p : option block) : M unit := λ w,
  Some ((), with_event (EvFree p) w).

(** *** The operations of [capture.c] *)

Section Operations.
Context (K : kernel).

(** A system call: the kernel decides the result and [errno]. *)
Definition syscall_do {R} (call : syscall R) : M R := λ w,
  let r := k_result K (w_clock w) R call in
  Some (r, {| w_camera := w_camera w; w_errno := k_errno K (w_clock w);
              w_clock := S (w_clock w); w_mapped := w_mapped w;
              w_trace := w_trace w ++ [EvSys call r]; w_diag := w_diag w |}).

Definition ioctl {A} (fd : Z) (request : ioctl_request A) (arg : A) : M (Z * A) :=
  syscall_do (sys_ioctl fd request arg).

Definition mmap (addr len prot flags fd offset : Z) : M Z :=
  p ← syscall_do (sys_mmap addr len prot flags fd offset);
  if decide (p = MAP_FAILED) then mret p
  else modify (λ w, with_mapped (w_mapped w ⊎ {[+ (p, len) +]}) w);; mret p.

Definition log_stderr : camera_log_fn := λ type msg pointer errno out,
  match type with
  | CAMERA_ERROR => out ++ [LineError msg errno]
  | CAMERA_FAIL => out ++ [LineFail msg]
  | CAMERA_INFO => out ++ [LineInfo msg]
  end.

(** [camera->context.log(type, msg, camera->context.pointer)] *)
Definition call_log (type : camera_log_t) (msg : string) : M unit := λ w,
  match w_camera w with
  | Some c =>
      let ctx := context c in
      Some ((), with_diag (log ctx type msg (pointer ctx) (w_errno w) (w_diag w))
                  (with_event (EvLog type msg (pointer ctx)) w))
  | None => None
  end.

Definition error (msg : string) : M bool :=
  call_log CAMERA_ERROR msg;; mret false.
Definition failure (msg : string) : M bool :=
  call_log CAMERA_FAIL msg;; mret false.

Fixpoint xioctl_loop (n : nat) {A} (fd : Z) (request : ioctl_request A) (arg : A)
  : M (Z * A) :=
  match n with
  | O => mret (-1, arg)
  | S n' =>
      ra ← ioctl fd request arg;
      e ← errno;
      if bool_decide (ra.1 ≠ -1) || bool_decide (e ≠ EINTR) then mret ra
      else xioctl_loop n' fd request ra.2
  end.

Definition xioctl {A} (fd : Z) (request : ioctl_request A) (arg : A) : M (Z * A) :=
  xioctl_loop 100 fd request arg.

(** The result tells whether the returned pointer is non-null; the
    object it points to is the camera of the world.  [malloc] is taken
    to succeed, as the source takes it. *)
Definition camera_open (device : string) : M bool :=
  fd ← syscall_do (sys_open device (Z.lor O_RDWR O_NONBLOCK) 0);
  if decide (fd = -1) then mret false
  else
    modify (with_camera (Some
      {| fd := fd; initialized := false; width := 0; height := 0;
         buffer_count := 0; buffers := None;
         head := {| h_start := None; h_length := 0 |};
         context := {| pointer := NULL; log := log_stderr |} |}));;
    mret true.

(** [camera->buffers[i]] *)
Definition buffer_at (i : nat) : M camera_buffer_t := λ w,
  match w_camera w with
  | Some c =>
      match buffers c with
      | Some bs => match bs !! i with Some b => Some (b, w) | None => None end
      | None => None
      end
  | None => None
  end.

(** [for (; i < count; i++) munmap(...)], with [n] iterations left. *)
Fixpoint free_buffers_loop (n : nat) (i : nat) : M unit :=
  match n with
  | O => mret ()
  | S n' =>
      b ← buffer_at i;
      munmap (b_start b) (b_length b);;
      free_buffers_loop n' (S i)
  end.

Definition free_buffers (count : Z) : M unit :=
  free_buffers_loop (Z.to_nat count) 0;;
  bs ← get buffers;
  free (BufferArray <$> bs);;
  set (set_buffers None);;
  set (set_buffer_count 0).

(** [cap] is not initialised in the source; the structure is handed to
    the driver as zeros here. *)
Definition camera_init : M bool :=
  fd ← get fd;
  rc ← xioctl fd VIDIOC_QUERYCAP {| capabilities := 0 |};
  if decide (rc.1 = -1) then error "VIDIOC_QUERYCAP"
  else if decide (Z.land (capabilities rc.2) V4L2_CAP_VIDEO_CAPTURE = 0)
  then failure "no capture"
  else if decide (Z.land (capabilities rc.2) V4L2_CAP_STREAMING = 0)
  then failure "no streaming"
  else
    rc ← xioctl fd VIDIOC_CROPCAP
           {| cropcap_type := V4L2_BUF_TYPE_VIDEO_CAPTURE;
              defrect := {| rect_left := 0; rect_top := 0; rect_width := 0; rect_height := 0 |} |};
    (if decide (rc.1 = 0)
     then xioctl fd VIDIOC_S_CROP
            {| crop_type := V4L2_BUF_TYPE_VIDEO_CAPTURE; crop_c := defrect rc.2 |};;
          mret ()
     else mret ());;
    set (set_initialized true);;
    mret true.

(** An entry of the array [calloc] hands out. *)
Definition zero_slot : camera_buffer_t := {| b_start := NULL; b_length := 0 |}.

Definition capture_buffer (index : Z) : v4l2_buffer :=
  {| buf_index := index; buf_type := V4L2_BUF_TYPE_VIDEO_CAPTURE;
     buf_bytesused := 0; buf_memory := V4L2_MEMORY_MMAP;
     buf_m_offset := 0; buf_length := 0 |}.

(** The loop of [camera_buffer_prepare] at index [i] with [n] iterations
    left: [None] when the function has returned false from inside the
    loop, the final [buf_max] otherwise. *)
Fixpoint prepare_loop (n : nat) (i : nat) (buf_max : Z) : M (option Z) :=
  match n with
  | O => mret (Some buf_max)
  | S n' =>
      fd ← get fd;
      rb ← xioctl fd VIDIOC_QUERYBUF (capture_buffer (Z.of_nat i));
      if decide (rb.1 = -1)
      then free_buffers (Z.of_nat i);; error "VIDIOC_QUERYBUF";; mret None
      else
        let buf := rb.2 in
        let buf_max := if buf_max <? buf_length buf then buf_length buf else buf_max in
        set (set_buffer_length i (buf_length buf));;
        p ← mmap NULL (buf_length buf) (Z.lor PROT_READ PROT_WRITE) MAP_SHARED
              fd (buf_m_offset buf);
        set (set_buffer_start i p);;
        if decide (p = MAP_FAILED)
        then free_buffers (Z.of_nat i);; error "mmap";; mret None
        else prepare_loop n' (S i) buf_max
  end.

(** [calloc] is taken to succeed and hands out zeroed memory. *)
Definition camera_buffer_prepare : M bool :=
  fd ← get fd;
  rr ← xioctl fd VIDIOC_REQBUFS
         {| req_count := 4; req_type := V4L2_BUF_TYPE_VIDEO_CAPTURE;
            req_memory := V4L2_MEMORY_MMAP |};
  if decide (rr.1 = -1) then error "VIDIOC_REQBUFS"
  else
    set (set_buffer_count (req_count rr.2));;
    set (set_buffers (Some (replicate (Z.to_nat (req_count rr.2)) zero_slot)));;
    count ← get buffer_count;
    res ← prepare_loop (Z.to_nat count) 0 0;
    match res with
    | None => mret false
    | Some buf_max =>
        set (set_head_start (Some (replicate (Z.to_nat buf_max) 0)));;
        mret true
    end.

Definition camera_buffer_finish : M unit :=
  count ← get buffer_count;
  free_buffers count;;
  h ← get (λ c, h_start (head c));
  free (ByteBlock <$> h);;
  set (set_head_length 0);;
  set (set_head_start None).

Definition camera_load_settings : M bool :=
  fd ← get fd;
  rf ← xioctl fd VIDIOC_G_FMT
         {| fmt_type := V4L2_BUF_TYPE_VIDEO_CAPTURE;
            fmt_pix := {| pix_width := 0; pix_height := 0;
                          pix_pixelformat := 0; pix_field := 0 |} |};
  if decide (rf.1 = -1) then error "VIDIOC_G_FMT"
  else
    set (set_width (pix_width (fmt_pix rf.2)));;
    set (set_height (pix_height (fmt_pix rf.2)));;
    mret true.

(** C's [a || b] on integers. *)
Definition logical_or (a b : Z) : Z :=
  if bool_decide (a ≠ 0) || bool_decide (b ≠ 0) then 1 else 0.

Definition camera_set_config (config : camera_config_t) : M bool :=
  ok ← (if bool_decide (0 < cfg_width config) && bool_decide (0 < cfg_height config)
        then
          let pixformat := logical_or (cfg_format config) V4L2_PIX_FMT_YUYV in
          fd ← get fd;
          rf ← xioctl fd VIDIOC_S_FMT
                 {| fmt_type := V4L2_BUF_TYPE_VIDEO_CAPTURE;
                    fmt_pix := {| pix_width := cfg_width config;
                                  pix_height := cfg_height config;
                                  pix_pixelformat := pixformat;
                                  pix_field := V4L2_FIELD_NONE |} |};
          if decide (rf.1 = -1) then error "VIDIOC_S_FMT" else mret true
        else mret true);
  if negb ok then mret false
  else if bool_decide (numerator (cfg_interval config) ≠ 0)
          && bool_decide (denominator (cfg_interval config) ≠ 0)
  then
    fd ← get fd;
    rp ← xioctl fd VIDIOC_S_PARM
           {| parm_type := V4L2_BUF_TYPE_VIDEO_CAPTURE;
              timeperframe_numerator := numerator (cfg_interval config);
              timeperframe_denominator := denominator (cfg_interval config) |};
    if decide (rp.1 = -1) then error "VIDIOC_S_PARM" else mret true
  else mret true.

Definition camera_stop : M bool :=
  fd ← get fd;
  rt ← xioctl fd VIDIOC_STREAMOFF V4L2_BUF_TYPE_VIDEO_CAPTURE;
  if decide (rt.1 = -1) then error "VIDIOC_STREAMOFF" else mret true.

Definition camera_config (config : camera_config_t) : M bool :=
  count ← get buffer_count;
  stopped ← (if bool_decide (0 < count)
             then ok ← camera_stop;
                  if negb ok then mret false
                  else camera_buffer_finish;; mret true
             else mret true);
  if negb stopped then mret false
  else
    init ← get initialized;
    ok ← (if negb init then camera_init else mret true);
    if negb ok then mret false
    else
      ok ← camera_set_config config;
      if negb ok then mret false
      else
        ok ← camera_load_settings;
        if negb ok then mret false
        else camera_buffer_prepare.

Definition camera_load : M bool :=
  init ← get initialized;
  ok ← (if negb init then camera_init else mret true);
  if negb ok then mret false
  else
    count ← get buffer_count;
    if bool_decide (count = 0)
    then
      ok ← camera_load_settings;
      if negb ok then mret false
      else
        ok ← camera_buffer_prepare;
        if negb ok then mret false else mret true
    else mret true.

(** The enqueue loop of [camera_start]: [true] when it ran to its end. *)
Fixpoint start_loop (n : nat) (i : nat) : M bool :=
  match n with
  | O => mret true
  | S n' =>
      fd ← get fd;
      rb ← xioctl fd VIDIOC_QBUF (capture_buffer (Z.of_nat i));
      if decide (rb.1 = -1) then error "VIDIOC_QBUF"
      else start_loop n' (S i)
  end.

Definition camera_start : M bool :=
  ok ← camera_load;
  if negb ok then mret false
  else
    count ← get buffer_count;
    ok ← start_loop (Z.to_nat count) 0;
    if negb ok then mret false
    else
      fd ← get fd;
      rt ← xioctl fd VIDIOC_STREAMON V4L2_BUF_TYPE_VIDEO_CAPTURE;
      if decide (rt.1 = -1) then error "VIDIOC_STREAMON" else mret true.

(** [for (int i = 0; i < 10; i++) if (close(fd) != -1) break;] *)
Fixpoint close_loop (n : nat) (fd : Z) : M unit :=
  match n with
  | O => mret ()
  | S n' =>
      r ← syscall_do (sys_close fd);
      if decide (r ≠ -1) then mret () else close_loop n' fd
  end.

(** [free(camera)] ends the life of the camera object. *)
Definition camera_close : M bool :=
  count ← get buffer_count;
  (if bool_decide (0 < count)
   then camera_stop;; camera_buffer_finish
   else mret ());;
  fd ← get fd;
  close_loop 10 fd;;
  free (Some CameraObject);;
  modify (with_camera None);;
  mret true.

(** [memcpy(camera->head.start, camera->buffers[index].start, n)]: the
    source must lie in a mapped buffer and the destination in the
    snapshot block; the bytes are those of device memory now. *)
Definition memcpy_head (index n : Z) : M unit := λ w,
  match w_camera w with
  | Some c =>
      match buffers c, h_start (head c) with
      | Some bs, Some dst =>
          match bs !! Z.to_nat index with
          | Some b =>
              if decide (0 ≤ index ∧ 0 ≤ n ≤ Z.of_nat (length dst) ∧ n ≤ b_length b
                         ∧ (b_start b, b_length b) ∈ w_mapped w)
              then
                let bytes := (λ k, k_memory K (w_clock w) (b_start b + k)) <$> seqZ 0 n in
                Some ((), with_camera
                            (Some (set_head_start (Some (bytes ++ drop (Z.to_nat n) dst)) c)) w)
              else None
          | None => None
          end
      | _, _ => None
      end
  | None => None
  end.

Definition camera_capture : M bool :=
  fd ← get fd;
  rb ← xioctl fd VIDIOC_DQBUF (capture_buffer 0);
  if decide (rb.1 = -1) then mret false
  else
    let buf := rb.2 in
    memcpy_head (buf_index buf) (buf_bytesused buf);;
    set (set_head_length (buf_bytesused buf));;
    rq ← xioctl fd VIDIOC_QBUF buf;
    if decide (rq.1 = -1) then mret false else mret true.

(** [value] is what the caller's variable holds before the call; the
    second component of the result is what it holds afterwards. *)
Definition camera_control_get (id : Z) (value : Z) : M (bool * Z) :=
  fd ← get fd;
  rc ← ioctl fd VIDIOC_G_CTRL {| ctrl_id := id; ctrl_value := 0 |};
  if decide (rc.1 = -1)
  then ok ← error "VIDIOC_G_CTRL"; mret (ok, value)
  else mret (true, ctrl_value rc.2).

Definition camera_control_set (id : Z) (value : Z) : M bool :=
  fd ← get fd;
  rc ← ioctl fd VIDIOC_S_CTRL {| ctrl_id := id; ctrl_value := value |};
  if decide (rc.1 = -1) then error "VIDIOC_S_CTRL" else mret true.

End Operations.

(** The world before anything has happened. *)
Definition initial_world : world :=
  {| w_camera := None; w_errno := 0; w_clock := 0; w_mapped := ∅;
     w_trace := []; w_diag := [] |}.

End Camera.

(** ** A stub device

    A driver that accepts everything: it grants [granted] buffers of
    [buflen] bytes each, mapped at [4096 * (1 + offset)], and reports a
    640 by 480 format. *)

Module Stub.
Import V4L2 Camera.

Definition answer_ioctl (granted buflen : Z) {A} (request : ioctl_request A) : A → A :=
  match request in ioctl_request T return T → T with
  | VIDIOC_QUERYCAP =>
      λ _, {| capabilities := Z.lor V4L2_CAP_VIDEO_CAPTURE V4L2_CAP_STREAMING |}
  | VIDIOC_REQBUFS =>
      λ r, {| req_count := granted; req_type := req_type r; req_memory := req_memory r |}
  | VIDIOC_QUERYBUF =>
      λ b, {| buf_index := buf_index b; buf_type := buf_type b; buf_bytesused := 0;
              buf_memory := buf_memory b; buf_m_offset := buf_index b;
              buf_length := buflen |}
  | VIDIOC_G_FMT =>
      λ f, {| fmt_type := fmt_type f;
              fmt_pix := {| pix_width := 640; pix_height := 480;
                            pix_pixelformat := V4L2_PIX_FMT_YUYV;
                            pix_field := V4L2_FIELD_NONE |} |}
  | VIDIOC_G_CTRL => λ c, {| ctrl_id := ctrl_id c; ctrl_value := 42 |}
  | _ => λ a, a
  end.

Definition answer (granted buflen : Z) (R : Type) (call : syscall R) : R :=
  match call in syscall T return T with
  | sys_open _ _ _ => 3
  | sys_close _ => 0
  | sys_ioctl _ request arg => (0, answer_ioctl granted buflen request arg)
  | sys_mmap _ _ _ _ _ offset => 4096 * (1 + offset)
  end.

(** The device of the examples: two buffers of 8 bytes. *)
Definition device : kernel :=
  {| k_result := λ _, answer 2 8; k_errno := λ _, 0; k_memory := λ _ a, a mod 256 |}.

(** A driver on which every [ioctl] fails with [EIO]. *)
Definition refuse (R : Type) (call : syscall R) : R :=
  match call in syscall T return T with
  | sys_open _ _ _ => 3
  | sys_close _ => 0
  | sys_ioctl _ _ arg => (-1, arg)
  | sys_mmap _ _ _ _ _ _ => MAP_FAILED
  end.

Definition broken : kernel :=
  {| k_result := λ _, refuse; k_errno := λ _, 5; k_memory := λ _ _, 0 |}.

End Stub.
(** ** Observations on traces *)

Module Trace.
Import V4L2 Camera.

(** The region a successful [mmap] established. *)
Definition mmap_region (e : event) : option (Z * Z) :=
  match e with
  | @EvSys R call result =>
      match call in syscall T return T → option (Z * Z) with
      | sys_mmap _ len _ _ _ _ =>
          λ p, if decide (p = MAP_FAILED) then None else Some (p, len)
      | _ => λ _, None
      end result
  | _ => None
  end.

Definition munmap_region (e : event) : option (Z * Z) :=
  match e with
  | EvMunmap start len => Some (start, len)
  | _ => None
  end.

(** A call of the diagnostics callback. *)
Definition log_entry (e : event) : option (camera_log_t * string) :=
  match e with
  | EvLog type msg _ => Some (type, msg)
  | _ => None
  end.

Definition is_reqbufs {A} (request : ioctl_request A) : bool :=
  match request with
  | VIDIOC_REQBUFS => true
  | _ => false
  end.

(** The buffer count a successful [VIDIOC_REQBUFS] granted. *)
Definition granted (e : event) : option Z :=
  match e with
  | @EvSys R call result =>
      match call in syscall T return T → option Z with
      | @sys_ioctl A _ request _ =>
          match request in ioctl_request T return Z * T → option Z with
          | VIDIOC_REQBUFS =>
              λ ra, if decide (ra.1 = -1) then None else Some (req_count ra.2)
          | _ => λ _, None
          end
      | _ => λ _, None
      end result
  | _ => None
  end.

(** The name of a device call that reported an error. *)
Definition failing_call (e : event) : option string :=
  match e with
  | @EvSys R call result =>
      match call in syscall T return T → option string with
      | @sys_ioctl A _ request _ =>
          λ ra, if decide (ra.1 = -1) then Some (request_name request) else None
      | sys_mmap _ _ _ _ _ _ =>
          λ p, if decide (p = MAP_FAILED) then Some "mmap" else None
      | sys_open _ _ _ => λ r, if decide (r = -1) then Some "open" else None
      | sys_close _ => λ r, if decide (r = -1) then Some "close" else None
      end result
  | _ => None
  end.

(** A device call and how it went: the name of the call when it
    reported an error, nothing when it succeeded. *)
Definition device_call (e : event) : option (option string) :=
  match e with
  | EvSys _ _ => Some (failing_call e)
  | _ => None
  end.

(** The pixel format a [VIDIOC_S_FMT] call asks for. *)
Definition requested_pixelformat (e : event) : option Z :=
  match e with
  | @EvSys R call _ =>
      match call with
      | @sys_ioctl A _ request arg =>
          match request in ioctl_request T return T → option Z with
          | VIDIOC_S_FMT => λ f, Some (pix_pixelformat (fmt_pix f))
          | _ => λ _, None
          end arg
      | _ => None
      end
  | _ => None
  end.

Definition region (b : camera_buffer_t) : Z * Z := (b_start b, b_length b).

(** The regions of a buffer array, as a list and as a multiset. *)
Definition regions (bs : list camera_buffer_t) : gmultiset (Z * Z) :=
  list_to_set_disj (region <$> bs).

(** The events of one [xioctl]: the request is repeated on the
    structure the previous attempt left, every attempt but the last
    returned -1, and the last attempt yields the result. *)
Inductive xioctl_events {A} (fd : Z) (request : ioctl_request A)
  : A → list event → Z * A → Prop :=
| xioctl_last arg r :
    xioctl_events fd request arg [EvSys (sys_ioctl fd request arg) r] r
| xioctl_retry arg arg' evs r :
    xioctl_events fd request arg' evs r →
    xioctl_events fd request arg
      (EvSys (sys_ioctl fd request arg) (-1, arg') :: evs) r.

Definition missing_capability (msg : string) : Prop :=
  msg = "no capture"%string ∨ msg = "no streaming"%string.

(** A failure return preceded by its report: one call of the callback,
    at the very end.  With severity ERROR the last device call before
    it reported an error and the message is the name of that call;
    with severity FAIL the last device call succeeded and the message
    names a missing capability. *)
Definition reported (evs : list event) : Prop :=
  ∃ pre type msg p,
    evs = pre ++ [EvLog type msg p] ∧
    omap log_entry pre = [] ∧
    (type = CAMERA_ERROR ∧ last (omap device_call pre) = Some (Some msg)
     ∨ type = CAMERA_FAIL ∧ last (omap device_call pre) = Some None
       ∧ missing_capability msg).

(** The buffer array agrees with the buffer count. *)
Definition wf_camera (c : camera_t) : Prop :=
  Z.to_nat (buffer_count c) = length (default [] (buffers c)).

End Trace.

(** ** Statements about runs *)

Module Spec.
Import V4L2 Camera Trace.

(** The world after the callback of camera [c] has been called. *)
Definition logged (type : camera_log_t) (msg : string) (c : camera_t) (w : world) : world :=
  with_diag (log (context c) type msg (pointer (context c)) (w_errno w) (w_diag w))
    (with_event (EvLog type msg (pointer (context c))) w).

(** Only the kernel was talked to: the camera object, the mappings and
    the diagnostics are as before, the trace has grown by [evs]. *)
Record sys_only (w w' : world) (evs : list event) : Prop := {
  so_camera : w_camera w' = w_camera w;
  so_mapped : w_mapped w' = w_mapped w;
  so_diag : w_diag w' = w_diag w;
  so_trace : w_trace w' = w_trace w ++ evs }.

Definition munmap_events (bs : list camera_buffer_t) : list event :=
  (λ b, EvMunmap (b_start b) (b_length b)) <$> bs.

(** No region is mapped or unmapped and no buffer count is granted. *)
Definition no_resource_events (evs : list event) : Prop :=
  omap mmap_region evs = [] ∧ omap munmap_region evs = [] ∧ omap granted evs = [].

(** What a boolean result says about the diagnostics: success is
    silent, failure has been reported. *)
Definition outcome (b : bool) (evs : list event) : Prop :=
  if b then omap log_entry evs = [] else reported evs.

(** The fields an operation on the format leaves alone. *)
Definition same_buffers (c c' : camera_t) : Prop :=
  fd c' = fd c ∧ buffers c' = buffers c ∧ buffer_count c' = buffer_count c ∧
  head c' = head c ∧ context c' = context c.

(** An operation that neither maps nor unmaps. *)
Definition quiet_run (c : camera_t) (w : world) (b : bool) (w' : world) : Prop :=
  ∃ evs c',
    w_trace w' = w_trace w ++ evs ∧
    w_mapped w' = w_mapped w ∧
    w_camera w' = Some c' ∧
    same_buffers c c' ∧
    no_resource_events evs ∧
    outcome b evs.

(** What a successful allocation leaves: a buffer array that agrees
    with the granted count, each buffer mapped in turn. *)
Definition allocated (c' : camera_t) (evs : list event) : Prop :=
  ∃ bs, buffers c' = Some bs
      ∧ wf_camera c'
      ∧ omap granted evs = [buffer_count c']
      ∧ omap mmap_region evs = region <$> bs
      ∧ omap munmap_region evs = [].

(** What a failed allocation leaves: either the request for buffers was
    refused and the camera is untouched, or it was granted and the
    buffer collection has been reset; whatever was mapped has been
    unmapped. *)
Definition rolled_back (c c' : camera_t) (evs : list event) : Prop :=
  omap munmap_region evs = omap mmap_region evs ∧
  (c' = c ∧ omap granted evs = [] ∧ omap mmap_region evs = []
   ∨ (∃ n, omap granted evs = [n]) ∧ buffers c' = None ∧ buffer_count c' = 0).

(** The events of the closing loop: [close] is repeated while it
    returns -1, ten times at most. *)
Inductive close_events (fd : Z) : list event → Prop :=
| close_last r : close_events fd [EvSys (sys_close fd) r]
| close_retry evs :
    close_events fd evs → close_events fd (EvSys (sys_close fd) (-1) :: evs).


(** The events of releasing the buffers of camera [c] and its snapshot. *)
Definition release_events (c : camera_t) : list event :=
  munmap_events (default [] (buffers c))
  ++ [EvFree (BufferArray <$> buffers c); EvFree (ByteBlock <$> h_start (head c))].

(** After two successful calls of [camera_config], from [w0] to [w1]
    and from [w1] to [w2]: the first call mapped the buffers [bs1]; the
    second call unmapped every one of them before it asked for
    buffers again; the buffer count is the count the second call was
    granted, the buffer array has that many entries, and of the two
    sets only the second is mapped. *)
Definition one_buffer_set (w0 : world) (c0 : camera_t) (w1 w2 : world) : Prop :=
  ∃ c1 c2 bs1 bs2 evs1 pre post,
    w_camera w1 = Some c1 ∧ buffers c1 = Some bs1 ∧
    w_camera w2 = Some c2 ∧ buffers c2 = Some bs2 ∧
    w_trace w1 = w_trace w0 ++ evs1 ∧
    w_trace w2 = w_trace w1 ++ pre ++ post ∧
    omap granted evs1 = [buffer_count c1] ∧
    omap mmap_region evs1 = region <$> bs1 ∧
    omap munmap_region pre = region <$> bs1 ∧
    omap mmap_region pre = [] ∧
    omap granted pre = [] ∧
    omap granted post = [buffer_count c2] ∧
    length bs2 = Z.to_nat (buffer_count c2) ∧
    omap mmap_region post = region <$> bs2 ∧
    omap munmap_region post = [] ∧
    w_mapped w2 = (w_mapped w0 ∖ regions (default [] (buffers c0))) ⊎ regions bs2.

(** What [camera_close] does to a camera [c] in world [w]: it returns
    true and the camera object is gone; the trace grows by the release
    of the buffers, then the attempts to close the descriptor (ten at
    most), then the release of the camera object; when buffers are
    allocated the release starts with the stream-off request, whose
    failure is reported and otherwise ignored, and unmaps every buffer
    before it frees the array and the snapshot. *)
Definition closed_after (K : kernel) (w : world) (c : camera_t) : Prop :=
  ∃ w' evs_release evs_close,
    camera_close K w = Some (true, w')
    ∧ w_camera w' = None
    ∧ w_trace w' = w_trace w ++ evs_release ++ evs_close ++ [EvFree (Some CameraObject)]
    ∧ close_events (fd c) evs_close ∧ (length evs_close ≤ 10)%nat
    ∧ w_mapped w' = w_mapped w ∖ regions (default [] (buffers c))
    ∧ if bool_decide (0 < buffer_count c)
      then ∃ r evs_stop,
          xioctl_events (fd c) VIDIOC_STREAMOFF V4L2_BUF_TYPE_VIDEO_CAPTURE evs_stop r
          ∧ evs_release =
              evs_stop
              ++ (if decide (r.1 = -1)
                  then [EvLog CAMERA_ERROR "VIDIOC_STREAMOFF" (pointer (context c))]
                  else [])
              ++ release_events c
      else evs_release = [].



(** The camera object [camera_open] sets up for descriptor [fd]. *)
Definition initial_camera (fd : Z) : camera_t :=
  {| fd := fd; initialized := false; width := 0; height := 0;
     buffer_count := 0; buffers := None;
     head := {| h_start := None; h_length := 0 |};
     context := {| pointer := NULL; log := log_stderr |} |}.

End Spec.

(** ** Worlds and drivers of the examples *)

Module Examples.
Import V4L2 Camera Trace Spec.

Definition run {A} (m : M A) (w : world) : world :=
  match m w with
  | Some (_, w') => w'
  | None => w
  end.



Definition opened : world := run (camera_open Stub.device "/dev/video0") initial_world.

Definition vga : camera_config_t :=
  {| cfg_format := 0; cfg_width := 640; cfg_height := 480;
     cfg_interval := {| numerator := 0; denominator := 0 |} |}.

Definition qvga : camera_config_t :=
  {| cfg_format := 0; cfg_width := 320; cfg_height := 240;
     cfg_interval := {| numerator := 1; denominator := 30 |} |}.

Definition configured : world := run (camera_config Stub.device vga) opened.
Definition reconfigured : world := run (camera_config Stub.device qvga) configured.

(** The camera of a world of the examples. *)
Definition camera_of (w : world) : camera_t := default (initial_camera 0) (w_camera w).


End Examples.

(** ** Further statements about the codec and the conversion *)

Module Pixels.
Import FormatCodec Convert.

(** The four characters [camera_format_name] leaves in a buffer, as
    [camera_format_id] reads them back. *)
Definition tag_of_buffer (buf : list ascii) : string :=
  string_of_list_ascii (take 4 buf).

(** The byte of [format_id] at position [k]. *)
Definition id_byte (format_id : Z) (k : Z) : Z :=
  Z.land (Z.shiftr format_id (8 * k)) 255.

(** The two RGB pixels of each macropixel of a source, in order. *)
Fixpoint rgb_of_yuyv (yuyv : list Z) : list Z :=
  match yuyv with
  | b0 :: b1 :: b2 :: b3 :: rest =>
      let y0 := Z.shiftl b0 8 in
      let u := b1 - 128 in
      let y1 := Z.shiftl b2 8 in
      let v := b3 - 128 in
      [yuv2r y0 u v; yuv2g y0 u v; yuv2b y0 u v;
       yuv2r y1 u v; yuv2g y1 u v; yuv2b y1 u v] ++ rgb_of_yuyv rest
  | _ => []
  end.

(** [*rgbp++ = x] for each [x] of a list in turn. *)
Fixpoint puts (xs : list Z) (c : cursor) : option cursor :=
  match xs with
  | [] => Some c
  | x :: xs' => c' ← put x c; puts xs' c'
  end.

(** A colourless image: luma pairs with both chroma bytes at their
    neutral value, and the pixels it stands for. *)
Definition gray_yuyv (ps : list (Z * Z)) : list Z :=
  ps ≫= λ p, [p.1; 128; p.2; 128].
Definition gray_rgb (ps : list (Z * Z)) : list Z :=
  ps ≫= λ p, [p.1; p.1; p.1; p.2; p.2; p.2].

End Pixels.

(** ** Interrupted calls *)

Module Retry.
Import V4L2 Camera.

(** At clock [t] the device call [request] on [fd] is interrupted by a
    signal whatever its argument: it returns -1 with [errno] at [EINTR]. *)
Definition interrupted (K : kernel) {A} (fd : Z) (request : ioctl_request A) (t : nat) : Prop :=
  ∀ arg, (k_result K t _ (sys_ioctl fd request arg)).1 = -1 ∧ k_errno K t = EINTR.

(** At clock [t] the call is not interrupted: it returns something else
    than -1, or fails for another reason. *)
Definition settled (K : kernel) {A} (fd : Z) (request : ioctl_request A) (t : nat) : Prop :=
  ∀ arg, (k_result K t _ (sys_ioctl fd request arg)).1 ≠ -1 ∨ k_errno K t ≠ EINTR.

(** No call is ever interrupted by a signal. *)
Definition uninterrupted (K : kernel) : Prop := ∀ t, k_errno K t ≠ EINTR.

(** A driver like [Stub.device] whose first [n] calls are interrupted. *)
Definition busy (n : nat) : kernel :=
  {| k_result := λ t, if (t <? n)%nat then Stub.refuse else Stub.answer 2 8;
     k_errno := λ t, if (t <? n)%nat then EINTR else 0;
     k_memory := λ _ a, a mod 256 |}.

End Retry.

(** ** Further observations on traces *)

Module Observe.
Import V4L2 Camera.

(** The name of the request of an [ioctl] call, however it went. *)
Definition request_of (e : event) : option string :=
  match e with
  | @EvSys R call _ =>
      match call with
      | @sys_ioctl A _ request _ => Some (request_name request)
      | _ => None
      end
  | _ => None
  end.

(** The index of the buffer a [VIDIOC_QBUF] call hands to the driver. *)
Definition enqueued (e : event) : option Z :=
  match e with
  | @EvSys R call _ =>
      match call with
      | @sys_ioctl A _ request arg =>
          match request in ioctl_request T return T → option Z with
          | VIDIOC_QBUF => λ b, Some (buf_index b)
          | _ => λ _, None
          end arg
      | _ => None
      end
  | _ => None
  end.

(** The frame size a successful [VIDIOC_G_FMT] call reported. *)
Definition format_answer (e : event) : option (Z * Z) :=
  match e with
  | @EvSys R call result =>
      match call in syscall T return T → option (Z * Z) with
      | @sys_ioctl A _ request _ =>
          match request in ioctl_request T return Z * T → option (Z * Z) with
          | VIDIOC_G_FMT =>
              λ ra, if decide (ra.1 = -1) then None
                    else Some (pix_width (fmt_pix ra.2), pix_height (fmt_pix ra.2))
          | _ => λ _, None
          end
      | _ => λ _, None
      end result
  | _ => None
  end.

(** The event of the call of the diagnostics callback by camera [c]. *)
Definition log_event (type : camera_log_t) (msg : string) (c : camera_t) : event :=
  EvLog type msg (pointer (context c)).

End Observe.

(** ** Sessions *)

Module Session.
Import V4L2 Camera Trace.

(** What a caller does with an open camera before it closes it. *)
Inductive action :=
| Configure (config : camera_config_t)
| Start
| Stop
| Capture.

Definition perform (K : kernel) (a : action) : M bool :=
  match a with
  | Configure config => camera_config K config
  | Start => camera_start K
  | Stop => camera_stop K
  | Capture => camera_capture K
  end.

(** A caller that goes on whatever the calls return. *)
Fixpoint session (K : kernel) (actions : list action) : M unit :=
  match actions with
  | [] => mret ()
  | a :: rest => perform K a;; session K rest
  end.

Definition captures (a : action) : bool :=
  match a with
  | Capture => true
  | _ => false
  end.

(** The mappings of a world apart from those of its camera are [others]. *)
Definition balanced (others : gmultiset (Z * Z)) (w : world) : Prop :=
  ∃ c, w_camera w = Some c ∧ wf_camera c
     ∧ w_mapped w ∖ regions (default [] (buffers c)) = others.

End Session.

(** ** A driver that delivers frames *)

Module Frames.
Import V4L2 Camera.

(** Like [Stub.answer], but a dequeue hands out the buffer of index
    [index] with [used] bytes in it. *)
Definition answer_frame (index used : Z) (R : Type) (call : syscall R) : R :=
  match call in syscall T return T with
  | sys_ioctl _ request arg =>
      (0, match request in ioctl_request T return T → T with
          | VIDIOC_DQBUF =>
              λ b, {| buf_index := index; buf_type := buf_type b; buf_bytesused := used;
                      buf_memory := buf_memory b; buf_m_offset := index; buf_length := 8 |}
          | q => Stub.answer_ioctl 2 8 q
          end arg)
  | c => Stub.answer 2 8 _ c
  end.

(** A driver that hands out five bytes in the second of its two buffers. *)
Definition streaming : kernel :=
  {| k_result := λ _, answer_frame 1 5; k_errno := λ _, 0; k_memory := λ _ a, a mod 256 |}.

(** A driver that hands out a buffer it never announced. *)
Definition stray : kernel :=
  {| k_result := λ _, answer_frame 2 5; k_errno := λ _, 0; k_memory := λ _ a, a mod 256 |}.

(** The bytes of device memory at [start], [n] of them, at clock [t]. *)
Definition device_bytes (K : kernel) (t : nat) (start n : Z) : list Z :=
  (λ k, k_memory K t (start + k)) <$> seqZ 0 n.

(** The camera after a frame of [n] bytes has been copied from
    [start] into its snapshot block [dst]. *)
Definition with_frame (K : kernel) (t : nat) (start n : Z) (dst : list Z)
    (c : camera_t) : camera_t :=
  set_head_length n
    (set_head_start (Some (device_bytes K t start n ++ drop (Z.to_nat n) dst)) c).

End Frames.

(** ** The control catalogue

    [camera_controls_new] probes the driver with [ioctl] directly (not
    with [xioctl]) and builds its result in memory of its own, so it is
    modelled on a state of its own: the clock of the driver, the
    blocks that are allocated and the probes made so far. *)

Module Controls.

Definition V4L2_CID_USER_BASE : Z := 9963776.
Definition V4L2_CTRL_FLAG_DISABLED : Z := 1.
Definition V4L2_CTRL_FLAG_GRABBED : Z := 2.
Definition V4L2_CTRL_FLAG_READ_ONLY : Z := 4.
Definition V4L2_CTRL_FLAG_UPDATE : Z := 8.
Definition V4L2_CTRL_FLAG_INACTIVE : Z := 16.
Definition V4L2_CTRL_FLAG_SLIDER : Z := 32.
Definition V4L2_CTRL_FLAG_WRITE_ONLY : Z := 64.
Definition V4L2_CTRL_FLAG_VOLATILE : Z := 128.

(** The fields of [struct v4l2_queryctrl] and [struct v4l2_querymenu]
    the program touches; a name is its 32 bytes. *)
Record v4l2_queryctrl := {
  qc_id : Z; qc_type : Z; qc_name : list Z;
  qc_minimum : Z; qc_maximum : Z; qc_step : Z; qc_default_value : Z;
  qc_flags : Z }.
Record v4l2_querymenu := { qm_id : Z; qm_index : Z; qm_name : list Z; qm_value : Z }.

(** The driver: what [VIDIOC_QUERYCTRL] and [VIDIOC_QUERYMENU] return
    at clock [t] on descriptor [fd]. *)
Record driver := {
  query_ctrl : nat → Z → v4l2_queryctrl → Z * v4l2_queryctrl;
  query_menu : nat → Z → v4l2_querymenu → Z * v4l2_querymenu }.

(** Modelled from the spec: the constants of the headers the program
    is compiled against, the two control types that have menu entries
    and the end of the range of user-control ids. *)
Record header := {
  CAMERA_CTRL_MENU : Z;
  CAMERA_CTRL_INTEGER_MENU : Z;
  V4L2_CID_LASTP1 : Z }.

(** Modelled from the spec: a menu entry as [calloc] left it, or after
    one of the two copy functions has stored into it. *)
Inductive camera_menu_t :=
| menu_zero
| menu_name (name : list Z)
| menu_value (value : Z).

(** Modelled from the spec: the descriptors of [capture.h], with the
    fields [capture.c] assigns. *)
Record camera_menus_t := {
  menus_length : Z;
  menus_head : option (list camera_menu_t) }.
Record camera_flags_t := {
  disabled : bool; grabbed : bool; read_only : bool; update : bool;
  inactive : bool; slider : bool; write_only : bool; volatile_value : bool }.
Record camera_control_t := {
  control_id : Z; control_name : list Z; control_flags : camera_flags_t;
  control_type : Z; control_max : Z; control_min : Z; control_step : Z;
  control_default_value : Z; control_menus : camera_menus_t }.
Record camera_controls_t := {
  controls_length : Z;
  controls_head : list camera_control_t }.

(** What is allocated: the kind of block and its number of elements. *)
Inductive kind := MenuArray | ControlArray | ControlsObject.
#[export] Instance kind_eq_dec : EqDecision kind.
Proof. solve_decision. Defined.
#[export] Instance kind_countable : Countable kind.
Proof.
  refine (inj_countable' (λ k, match k with MenuArray => 0%nat | ControlArray => 1%nat
                                       | ControlsObject => 2%nat end)
            (λ n, match n with 0%nat => MenuArray | 1%nat => ControlArray
                          | _ => ControlsObject end) _).
  by intros [].
Defined.

Inductive probe :=
| ProbeCtrl (arg : v4l2_queryctrl) (result : Z * v4l2_queryctrl)
| ProbeMenu (arg : v4l2_querymenu) (result : Z * v4l2_querymenu).

Record state := {
  st_clock : nat;
  st_live : gmultiset (kind * Z);
  st_probes : list probe }.

(** Running code on that state; no result where the behaviour is
    undefined. *)
Definition C (A : Type) : Type := state → option (A * state).
#[export] Instance C_ret : MRet C := λ A a s, Some (a, s).
#[export] Instance C_bind : MBind C := λ A B f m s,
  match m s with
  | Some (a, s') => f a s'
  | None => None
  end.

Definition undefined {A} : C A := λ _, None.

Section Operations.
Context (H : header) (D : driver).

Definition ioctl_queryctrl (fd : Z) (arg : v4l2_queryctrl) : C (Z * v4l2_queryctrl) := λ s,
  let r := query_ctrl D (st_clock s) fd arg in
  Some (r, {| st_clock := S (st_clock s); st_live := st_live s;
              st_probes := st_probes s ++ [ProbeCtrl arg r] |}).

Definition ioctl_querymenu (fd : Z) (arg : v4l2_querymenu) : C (Z * v4l2_querymenu) := λ s,
  let r := query_menu D (st_clock s) fd arg in
  Some (r, {| st_clock := S (st_clock s); st_live := st_live s;
              st_probes := st_probes s ++ [ProbeMenu arg r] |}).

(** [malloc] and [calloc] are taken to succeed, as the source takes
    them; [free] of a block that is not allocated has no meaning. *)
Definition alloc (k : kind) (n : Z) : C unit := λ s,
  Some ((), {| st_clock := st_clock s; st_live := st_live s ⊎ {[+ (k, n) +]};
               st_probes := st_probes s |}).

Definition free (k : kind) (n : Z) : C unit := λ s,
  if decide ((k, n) ∈ st_live s)
  then Some ((), {| st_clock := st_clock s; st_live := st_live s ∖ {[+ (k, n) +]};
                    st_probes := st_probes s |})
  else None.

Definition camera_menu_copy (menu : camera_menu_t) (qmenu : v4l2_querymenu)
  : camera_menu_t := menu_name (qm_name qmenu).

Definition camera_integer_menu_copy (menu : camera_menu_t) (qmenu : v4l2_querymenu)
  : camera_menu_t := menu_value (qm_value qmenu).

(** [memset(&qmenu, 0, sizeof qmenu); qmenu.id = id; qmenu.index = mindex] *)
Definition menu_query (id mindex : Z) : v4l2_querymenu :=
  {| qm_id := id; qm_index := mindex; qm_name := replicate 32 0; qm_value := 0 |}.

(** The loop of [camera_controls_menus] at index [mindex] with [n]
    iterations left; [head] is the array of entries. *)
Fixpoint menus_loop (fd : Z) (copy : camera_menu_t → v4l2_querymenu → camera_menu_t)
    (id : Z) (n : nat) (mindex : nat) (head : list camera_menu_t)
  : C (list camera_menu_t) :=
  match n with
  | O => mret head
  | S n' =>
      r ← ioctl_querymenu fd (menu_query id (Z.of_nat mindex));
      let head' := if decide (r.1 = 0) then alter (λ m, copy m r.2) mindex head else head in
      menus_loop fd copy id n' (S mindex) head'
  end.

Definition set_menus (menus : camera_menus_t) (c : camera_control_t) : camera_control_t :=
  {| control_id := control_id c; control_name := control_name c;
     control_flags := control_flags c; control_type := control_type c;
     control_max := control_max c; control_min := control_min c;
     control_step := control_step c; control_default_value := control_default_value c;
     control_menus := menus |}.

(** The array has [control->max + 1] entries; the model covers the
    counts from 0 on. *)
Definition fill_menus (fd : Z) (copy : camera_menu_t → v4l2_querymenu → camera_menu_t)
    (control : camera_control_t) : C camera_control_t :=
  let length := control_max control + 1 in
  if decide (0 ≤ length)
  then
    alloc MenuArray length;;
    head ← menus_loop fd copy (control_id control) (Z.to_nat length) 0
             (replicate (Z.to_nat length) menu_zero);
    mret (set_menus {| menus_length := length; menus_head := Some head |} control)
  else undefined.

Definition camera_controls_menus (fd : Z) (control : camera_control_t)
  : C camera_control_t :=
  if decide (control_type control = CAMERA_CTRL_MENU H)
  then fill_menus fd camera_menu_copy control
  else if decide (control_type control = CAMERA_CTRL_INTEGER_MENU H)
  then fill_menus fd camera_integer_menu_copy control
  else mret (set_menus {| menus_length := 0; menus_head := None |} control).

(** [memset(&qctrl, 0, sizeof qctrl); qctrl.id = cid] *)
Definition ctrl_query (cid : Z) : v4l2_queryctrl :=
  {| qc_id := cid; qc_type := 0; qc_name := replicate 32 0; qc_minimum := 0;
     qc_maximum := 0; qc_step := 0; qc_default_value := 0; qc_flags := 0 |}.

Definition flag (flags mask : Z) : bool := bool_decide (Z.land flags mask ≠ 0).

(** The entry of the list as the loop fills it in from the answer,
    before its menus are looked up. *)
Definition describe (qctrl : v4l2_queryctrl) : camera_control_t :=
  {| control_id := qc_id qctrl;
     control_name := qc_name qctrl;
     control_flags :=
       {| disabled := flag (qc_flags qctrl) V4L2_CTRL_FLAG_DISABLED;
          grabbed := flag (qc_flags qctrl) V4L2_CTRL_FLAG_GRABBED;
          read_only := flag (qc_flags qctrl) V4L2_CTRL_FLAG_READ_ONLY;
          update := flag (qc_flags qctrl) V4L2_CTRL_FLAG_UPDATE;
          inactive := flag (qc_flags qctrl) V4L2_CTRL_FLAG_INACTIVE;
          slider := flag (qc_flags qctrl) V4L2_CTRL_FLAG_SLIDER;
          write_only := flag (qc_flags qctrl) V4L2_CTRL_FLAG_WRITE_ONLY;
          volatile_value := flag (qc_flags qctrl) V4L2_CTRL_FLAG_VOLATILE |};
     control_type := qc_type qctrl;
     control_max := qc_maximum qctrl;
     control_min := qc_minimum qctrl;
     control_step := qc_step qctrl;
     control_default_value := qc_default_value qctrl;
     control_menus := {| menus_length := 0; menus_head := None |} |}.

(** The loop of [camera_controls_query] at id [cid] with [n] ids left;
    [control_list] is what has been stored in the array so far. *)
Fixpoint query_loop (fd : Z) (n : nat) (cid : Z) (control_list : list camera_control_t)
  : C (list camera_control_t) :=
  match n with
  | O => mret control_list
  | S n' =>
      r ← ioctl_queryctrl fd (ctrl_query cid);
      if decide (r.1 = -1) then query_loop fd n' (cid + 1) control_list
      else
        control ← camera_controls_menus fd (describe r.2);
        query_loop fd n' (cid + 1) (control_list ++ [control])
  end.

Definition camera_controls_query (fd : Z) : C (list camera_control_t) :=
  query_loop fd (Z.to_nat (V4L2_CID_LASTP1 H - V4L2_CID_USER_BASE)) V4L2_CID_USER_BASE [].

Definition camera_controls_new (fd : Z) : C camera_controls_t :=
  control_list ← camera_controls_query fd;
  alloc ControlsObject 1;;
  let length := Z.of_nat (length control_list) in
  alloc ControlArray length;;
  mret {| controls_length := length; controls_head := control_list |}.

(** [free(NULL)] does nothing. *)
Definition free_menus (control : camera_control_t) : C unit :=
  match menus_head (control_menus control) with
  | Some _ => free MenuArray (menus_length (control_menus control))
  | None => mret ()
  end.

Fixpoint delete_loop (controls : list camera_control_t) : C unit :=
  match controls with
  | [] => mret ()
  | control :: rest => free_menus control;; delete_loop rest
  end.

Definition camera_controls_delete (controls : camera_controls_t) : C unit :=
  delete_loop (controls_head controls);;
  free ControlsObject 1.

End Operations.

(** The ids the enumeration probes. *)
Definition probed_ids (H : header) : list Z :=
  seqZ V4L2_CID_USER_BASE (V4L2_CID_LASTP1 H - V4L2_CID_USER_BASE).

(** The id a [VIDIOC_QUERYCTRL] probe asked about, and the answer of one
    that was accepted. *)
Definition ctrl_probe (p : probe) : option Z :=
  match p with
  | ProbeCtrl arg _ => Some (qc_id arg)
  | ProbeMenu _ _ => None
  end.
Definition accepted (p : probe) : option v4l2_queryctrl :=
  match p with
  | ProbeCtrl _ r => if decide (r.1 = -1) then None else Some r.2
  | ProbeMenu _ _ => None
  end.

(** The control types whose entries [camera_controls_menus] looks up. *)
Definition has_menu (H : header) (type : Z) : bool :=
  bool_decide (type = CAMERA_CTRL_MENU H) || bool_decide (type = CAMERA_CTRL_INTEGER_MENU H).

(** The copy function [camera_controls_menus] chooses for a type. *)
Definition copy_for (H : header) (type : Z)
  : camera_menu_t → v4l2_querymenu → camera_menu_t :=
  if decide (type = CAMERA_CTRL_MENU H) then camera_menu_copy else camera_integer_menu_copy.

(** The menu arrays of a list of controls. *)
Definition menu_block (c : camera_control_t) : option (kind * Z) :=
  match menus_head (control_menus c) with
  | Some _ => Some (MenuArray, menus_length (control_menus c))
  | None => None
  end.
Definition menu_blocks (cs : list camera_control_t) : gmultiset (kind * Z) :=
  list_to_set_disj (omap menu_block cs).

(** Control [c] is the descriptor of the answer [q]: its fields are
    those of the answer, and it has an array of [maximum + 1] menu
    entries exactly when its type has a menu. *)
Definition describes (H : header) (c : camera_control_t) (q : v4l2_queryctrl) : Prop :=
  c = set_menus (control_menus c) (describe q)
  ∧ if has_menu H (qc_type q)
    then menus_length (control_menus c) = qc_maximum q + 1
         ∧ ∃ head, menus_head (control_menus c) = Some head
                 ∧ Z.of_nat (length head) = qc_maximum q + 1
    else control_menus c = {| menus_length := 0; menus_head := None |}.

(** The driver reports no menu control with a maximum below -1. *)
Definition menus_in_range (H : header) (D : driver) (fd : Z) : Prop :=
  ∀ t arg, let r := query_ctrl D t fd arg in
    r.1 ≠ -1 → has_menu H (qc_type r.2) = true → 0 ≤ qc_maximum r.2 + 1.

(** The entry of index [i] of a menu of control [id] when it is probed
    at clock [t]. *)
Definition probed_entry (D : driver) (fd : Z)
    (copy : camera_menu_t → v4l2_querymenu → camera_menu_t) (id : Z) (t : nat) (i : nat)
  : camera_menu_t :=
  let r := query_menu D (t + i) fd (menu_query id (Z.of_nat i)) in
  if decide (r.1 = 0) then copy menu_zero r.2 else menu_zero.

(** The probes of the entries [mindex], ..., [mindex + n - 1] of the
    menu of control [id], the first of them at clock [t + mindex]. *)
Definition menu_probes (D : driver) (fd : Z) (id : Z) (t : nat) (mindex n : nat)
  : list probe :=
  (λ i, ProbeMenu (menu_query id (Z.of_nat i))
          (query_menu D (t + i) fd (menu_query id (Z.of_nat i)))) <$> seq mindex n.

(** A driver with two controls: a menu of three entries whose middle
    entry it rejects, and an integer control. *)
Definition two_controls : driver :=
  {| query_ctrl := λ _ _ q,
       if decide (qc_id q = V4L2_CID_USER_BASE + 1)
       then (0, {| qc_id := qc_id q; qc_type := 3; qc_name := replicate 32 77;
                   qc_minimum := 0; qc_maximum := 2; qc_step := 1;
                   qc_default_value := 0; qc_flags := 0 |})
       else if decide (qc_id q = V4L2_CID_USER_BASE + 3)
       then (0, {| qc_id := qc_id q; qc_type := 1; qc_name := replicate 32 73;
                   qc_minimum := 0; qc_maximum := 255; qc_step := 1;
                   qc_default_value := 128; qc_flags := 32 |})
       else (-1, q);
     query_menu := λ _ _ q,
       if decide (qm_index q = 1) then (-1, q)
       else (0, {| qm_id := qm_id q; qm_index := qm_index q;
                   qm_name := replicate 32 (65 + qm_index q); qm_value := 0 |}) |}.

Definition linux : header :=
  {| CAMERA_CTRL_MENU := 3; CAMERA_CTRL_INTEGER_MENU := 9;
     V4L2_CID_LASTP1 := V4L2_CID_USER_BASE + 44 |}.

Definition fresh : state := {| st_clock := 0; st_live := ∅; st_probes := [] |}.

(** The answer of [two_controls] about its menu control. *)
Definition menu_answer : v4l2_queryctrl :=
  (query_ctrl two_controls 0 3 (ctrl_query (V4L2_CID_USER_BASE + 1))).2.

(** What a run returns, [d] when it has no result. *)
Definition result_of {A} (m : C A) (s : state) (d : A) : A :=
  match m s with
  | Some (a, _) => a
  | None => d
  end.
Definition state_after {A} (m : C A) (s : state) : state :=
  match m s with
  | Some (_, s') => s'
  | None => s
  end.

End Controls.

(** ** The tags that survive the codec *)

Module Tags.
Import FormatCodec.







End Tags.

(** ** The channels in closed form *)

Module Clamp.
Import Convert.

(** The channels of a pixel of luma [y] and chroma [u], [v], all three
    as the source bytes hold them: the fixed-point value [yuv2r],
    [yuv2g] and [yuv2b] compute, divided by 256 and rounded down, then
    clamped to [0,255] without any conversion to [uint8_t]. *)
Definition clamped_r (y u v : Z) : Z := saturate ((256 * y + 359 * (v - 128)) / 256).
Definition clamped_g (y u v : Z) : Z :=
  saturate ((256 * y + 88 * (v - 128) - 183 * (u - 128)) / 256).
Definition clamped_b (y u v : Z) : Z := saturate ((256 * y + 454 * (u - 128)) / 256).

(** The two pixels of each macropixel Y0 U Y1 V of a source. *)
Fixpoint clamped_pixels (yuyv : list Z) : list Z :=
  match yuyv with
  | y0 :: u :: y1 :: v :: rest =>
      [clamped_r y0 u v; clamped_g y0 u v; clamped_b y0 u v;
       clamped_r y1 u v; clamped_g y1 u v; clamped_b y1 u v] ++ clamped_pixels rest
  | _ => []
  end.

End Clamp.

(** ** Device calls that failed for good *)

Module Failures.
Import V4L2 Camera Trace Spec.

(** A device call that failed for good, given the value of [errno]
    after it: an [ioctl] that returned -1 for a reason other than an
    interruption ([xioctl] repeats a request that was interrupted), or
    an [mmap] that returned [MAP_FAILED]. *)
Definition hard_failure (errno : Z) (e : event) : option string :=
  match e with
  | @EvSys R call result =>
      match call in syscall T return T → option string with
      | @sys_ioctl A _ request _ =>
          λ ra, if decide (ra.1 = -1 ∧ errno ≠ EINTR)
                then Some (request_name request) else None
      | sys_mmap _ _ _ _ _ _ =>
          λ p, if decide (p = MAP_FAILED) then Some "mmap"%string else None
      | _ => λ _, None
      end result
  | _ => None
  end.

(** The device calls among [evs] that failed for good, in order, when
    the first system call of [evs] is call number [t] of the run. *)
Fixpoint device_failures (K : kernel) (t : nat) (evs : list event) : list string :=
  match evs with
  | [] => []
  | e :: rest =>
      match device_call e with
      | Some _ =>
          match hard_failure (k_errno K t) e with
          | Some name => name :: device_failures K (S t) rest
          | None => device_failures K (S t) rest
          end
      | None => device_failures K t rest
      end
  end.

(** Cropping is optional: [camera_init] carries on whatever
    [VIDIOC_CROPCAP] and [VIDIOC_S_CROP] return. *)
Definition optional_call (name : string) : bool :=
  bool_decide (name = "VIDIOC_CROPCAP"%string) || bool_decide (name = "VIDIOC_S_CROP"%string).


(** From [w] to [w'] the trace has grown by [evs] and the clock by the
    system calls among them. *)
Definition advances (w w' : world) (evs : list event) : Prop :=
  w_trace w' = w_trace w ++ evs
  ∧ w_clock w' = (w_clock w + length (omap device_call evs))%nat.

(** What the events of a run starting at call number [t] say about its
    boolean result [b]: a device call that failed for good, an optional
    one apart, is the last device call of the run and makes the result
    false; a result of true is not preceded by a failed device call, an
    optional one apart. *)
Definition decided (K : kernel) (t : nat) (b : bool) (evs : list event) : Prop :=
  (∀ name, name ∈ device_failures K t evs → optional_call name = false →
           b = false ∧ last (omap device_call evs) = Some (Some name))
  ∧ (b = true →
     ∀ name, last (omap device_call evs) = Some (Some name) →
             optional_call name = true).

Definition tracked (K : kernel) (w w' : world) (b : bool) : Prop :=
  ∃ evs, advances w w' evs ∧ decided K (w_clock w) b evs.

(** The same for one [xioctl] with result [r]: only its last call can
    have failed for good, and then [r] is -1. *)
Definition settled (K : kernel) {A} (fd : Z) (request : ioctl_request A) (arg : A)
    (w w' : world) (r : Z * A) : Prop :=
  ∃ evs, advances w w' evs
    ∧ xioctl_events fd request arg evs r
    ∧ ∀ name, name ∈ device_failures K (w_clock w) evs →
              r.1 = -1 ∧ name = request_name request.


(** A computation that makes no system call. *)
Definition calm {A} (m : M A) : Prop :=
  ∀ w a w', m w = Some (a, w') →
    ∃ evs, advances w w' evs ∧ omap device_call evs = [].



End Failures.

(** * Proofs *)

Import V4L2 Camera Trace Spec Examples.

(** ** The format codec *)

Section FormatCodecFacts.
Import FormatCodec.

Lemma char_code_bounds c : 0 ≤ char_code c < 256.
Proof.
  unfold char_code. pose proof (N_ascii_bounded c). lia.
Qed.


Lemma char_to_uint32_plain sg c :
  sg = UnsignedChar ∨ char_code c < 128 → char_to_uint32 sg c = char_code c.
Proof.
  intros [-> | Hc]; [done |].
  unfold char_to_uint32. destruct sg; [| done].
  destruct (Z.leb_spec 128 (char_code c)); [lia | done].
Qed.

Lemma lor_shifted a b n :
  0 ≤ n → 0 ≤ a < 2 ^ n → Z.lor a (b * 2 ^ n) = a + b * 2 ^ n.
Proof.
  intros Hn Ha.
  assert (Z.land a (b * 2 ^ n) = 0) as Hdisj.
  { apply Z.bits_inj'. intros k Hk.
    rewrite Z.land_spec, Z.bits_0, <- Z.shiftl_mul_pow2 by done.
    destruct (Z.lt_ge_cases k n).
    - rewrite Z.shiftl_spec_low by done. apply andb_false_r.
    - rewrite <- (Z.mod_small a (2 ^ n)) by done.
      rewrite Z.mod_pow2_bits_high by lia. done. }
  rewrite Z.add_nocarry_lxor by done. symmetry. by apply Z.lxor_lor.
Qed.

Lemma pack_bytes a b c d :
  0 ≤ a < 256 → 0 ≤ b < 256 → 0 ≤ c < 256 → 0 ≤ d < 256 →
  Z.lor (Z.lor (Z.lor a (uint32 (Z.shiftl b 8))) (uint32 (Z.shiftl c 16)))
        (uint32 (Z.shiftl d 24))
  = a + b * 2 ^ 8 + c * 2 ^ 16 + d * 2 ^ 24.
Proof.
  intros Ha Hb Hc Hd. unfold uint32.
  rewrite !Z.shiftl_mul_pow2 by lia.
  rewrite !Z.mod_small by lia.
  rewrite (lor_shifted a b 8) by lia.
  rewrite (lor_shifted _ c 16) by lia.
  rewrite (lor_shifted _ d 24) by lia. done.
Qed.

Lemma unpack_bytes a b c d :
  0 ≤ a < 256 → 0 ≤ b < 256 → 0 ≤ c < 256 → 0 ≤ d < 256 →
  let id := a + b * 2 ^ 8 + c * 2 ^ 16 + d * 2 ^ 24 in
  Z.land id 255 = a ∧ Z.land (Z.shiftr id 8) 255 = b ∧
  Z.land (Z.shiftr id 16) 255 = c ∧ Z.land (Z.shiftr id 24) 255 = d.
Proof.
  intros Ha Hb Hc Hd id.
  change 255 with (Z.ones 8).
  rewrite !Z.land_ones, !Z.shiftr_div_pow2 by lia.
  subst id. repeat split; Z.to_euclidean_division_equations; lia.
Qed.

Lemma c_string_of_tag s :
  Forall (λ c, c ≠ NUL) (list_ascii_of_string s) →
  c_string_of (list_ascii_of_string s ++ [NUL]) = s.
Proof.
  induction s as [| c s IH]; intros H.
  - done.
  - inversion H; subst. cbn [list_ascii_of_string app c_string_of].
    destruct (decide (c = NUL)); [done |]. by rewrite IH.
Qed.


End FormatCodecFacts.

(** ** The colour conversion *)

Section ConvertFacts.
Import Convert.

Lemma minmax_saturate v : minmax 0 v 255 = saturate v.
Proof.
  unfold minmax, saturate.
  destruct (Z.ltb_spec v 0); [lia |].
  destruct (Z.ltb_spec 255 v); lia.
Qed.

Lemma saturate_byte v : is_byte (saturate v).
Proof. unfold is_byte, saturate. lia. Qed.

Lemma uint8_byte z : is_byte z → uint8 z = z.
Proof. unfold is_byte, uint8. intros H. apply Z.mod_small. lia. Qed.

Lemma channel_exact x : uint8 (minmax 0 x 255) = saturate x.
Proof. rewrite minmax_saturate. apply uint8_byte, saturate_byte. Qed.

Lemma yuv2r_exact y u v : yuv2r y u v = saturate (Z.shiftr (y + 359 * v) 8).
Proof. apply channel_exact. Qed.
Lemma yuv2g_exact y u v : yuv2g y u v = saturate (Z.shiftr (y + 88 * v - 183 * u) 8).
Proof. apply channel_exact. Qed.
Lemma yuv2b_exact y u v : yuv2b y u v = saturate (Z.shiftr (y + 454 * u) 8).
Proof. apply channel_exact. Qed.

Lemma yuv2r_byte y u v : is_byte (yuv2r y u v).
Proof. rewrite yuv2r_exact. apply saturate_byte. Qed.
Lemma yuv2g_byte y u v : is_byte (yuv2g y u v).
Proof. rewrite yuv2g_exact. apply saturate_byte. Qed.
Lemma yuv2b_byte y u v : is_byte (yuv2b y u v).
Proof. rewrite yuv2b_exact. apply saturate_byte. Qed.

Lemma put_bytes_only x c c' :
  is_byte x → bytes_only c → put x c = Some c' → bytes_only c'.
Proof.
  unfold put, bytes_only. intros Hx Hc Hput.
  destruct (decide _); [| done]. injection Hput as <-. simpl.
  by apply Forall_insert.
Qed.

Lemma put_then x c (f : cursor → option cursor) c' :
  bytes_only c → is_byte x → put x c ≫= f = Some c' →
  ∃ c1, bytes_only c1 ∧ f c1 = Some c'.
Proof.
  intros Hc Hx H. destruct (put x c) as [c1 |] eqn:E; [| done].
  exists c1. split; [by eapply put_bytes_only | done].
Qed.

Lemma macropixel_bytes_only c c' :
  bytes_only c → macropixel c = Some c' → bytes_only c'.
Proof.
  unfold macropixel. intros Hc Hm.
  destruct (src c) as [| b0 [| b1 [| b2 [| b3 rest]]]]; try done.
  assert (bytes_only (Cursor rest (rgb c) (rgbp c))) as Hc0 by done.
  revert Hc0 Hm. generalize (Cursor rest (rgb c) (rgbp c)) as c0.
  intros c0 Hc0 Hm.
  repeat (apply put_then in Hm;
          [| done | auto using yuv2r_byte, yuv2g_byte, yuv2b_byte];
          clear Hc0; destruct Hm as (c1 & Hc0 & Hm); clear c0; rename c1 into c0).
  eapply put_bytes_only; [| | exact Hm]; auto using yuv2b_byte.
Qed.

Lemma iterate_invariant (P : cursor → Prop) body n :
  (∀ c c', P c → body c = Some c' → P c') →
  ∀ c c', P c → iterate n body c = Some c' → P c'.
Proof.
  intros Hbody. induction n as [| n IH]; intros c c' Hc Hit; simpl in Hit.
  - by injection Hit as <-.
  - destruct (body c) as [c1 |] eqn:E; [| done]. simpl in Hit.
    eapply IH; [| exact Hit]. by eapply Hbody.
Qed.

Lemma yuyv2rgb_bytes yuyv width height out :
  yuyv2rgb yuyv width height = Some out → Forall is_byte out.
Proof.
  unfold yuyv2rgb. intros H.
  destruct (iterate _ _ _) as [c |] eqn:E; [| done].
  injection H as <-.
  eapply (iterate_invariant bytes_only) in E; [exact E | |].
  - intros c1 c2 H1. apply iterate_invariant; [| done].
    apply macropixel_bytes_only.
  - unfold bytes_only. simpl. apply Forall_replicate. unfold is_byte. lia.
Qed.

(** The source is read four bytes per macropixel, the destination is
    written six bytes per macropixel. *)
Lemma macropixel_total c :
  (4 ≤ length (src c))%nat → (rgbp c + 6 ≤ length (rgb c))%nat →
  ∃ c', macropixel c = Some c'
      ∧ length (src c') = (length (src c) - 4)%nat
      ∧ length (rgb c') = length (rgb c)
      ∧ rgbp c' = (rgbp c + 6)%nat.
Proof.
  intros Hs Hd. destruct c as [s d p]. simpl in *.
  destruct s as [| b0 [| b1 [| b2 [| b3 rest]]]]; simpl in Hs; try lia.
  unfold macropixel, put. simpl.
  repeat (rewrite decide_True by (rewrite ?length_insert; lia); simpl).
  eexists. split; [reflexivity |]. simpl.
  rewrite !length_insert. lia.
Qed.

Lemma iterate_macropixel n :
  ∀ c, (4 * n ≤ length (src c))%nat → (rgbp c + 6 * n ≤ length (rgb c))%nat →
    ∃ c', iterate n macropixel c = Some c'
        ∧ length (src c') = (length (src c) - 4 * n)%nat
        ∧ length (rgb c') = length (rgb c)
        ∧ rgbp c' = (rgbp c + 6 * n)%nat.
Proof.
  induction n as [| n IH]; intros c Hs Hd.
  - exists c. split; [done |]. lia.
  - destruct (macropixel_total c) as (c1 & Hm & Hs1 & Hd1 & Hp1); [lia | lia |].
    destruct (IH c1) as (c2 & Hit & Hs2 & Hd2 & Hp2); [lia | lia |].
    exists c2. cbn [iterate]. rewrite Hm. split; [exact Hit |]. lia.
Qed.

Lemma iterate_rows cols h :
  ∀ c, (4 * (cols * h) ≤ length (src c))%nat →
       (rgbp c + 6 * (cols * h) ≤ length (rgb c))%nat →
    ∃ c', iterate h (iterate cols macropixel) c = Some c'
        ∧ length (rgb c') = length (rgb c).
Proof.
  induction h as [| h IH]; intros c Hs Hd.
  - by exists c.
  - rewrite Nat.mul_succ_r in Hs, Hd.
    pose proof (Nat.le_0_l (cols * h)) as Hpos.
    destruct (iterate_macropixel cols c) as (c1 & Hrow & Hs1 & Hd1 & Hp1); [lia | lia |].
    assert (4 * (cols * h) ≤ length (src c1))%nat as H1 by (rewrite Hs1; lia).
    assert (rgbp c1 + 6 * (cols * h) ≤ length (rgb c1))%nat as H2 by (rewrite Hd1, Hp1; lia).
    destruct (IH c1 H1 H2) as (c2 & Hit & Hd2).
    exists c2. cbn [iterate]. rewrite Hrow. split; [exact Hit | congruence].
Qed.

(** With an even width, enough source bytes and an image size that
    fits [uint32_t], the conversion runs to its end and fills a block
    of [width * height * 3] bytes. *)
Lemma yuyv2rgb_total yuyv width height :
  0 ≤ width → Z.even width = true → 0 ≤ height →
  width * height * 3 < 2 ^ 32 →
  2 * width * height ≤ Z.of_nat (length yuyv) →
  ∃ out, yuyv2rgb yuyv width height = Some out
       ∧ Z.of_nat (length out) = width * height * 3.
Proof.
  intros Hw Heven Hh Hsize Hsrc.
  assert (width = 2 * Z.of_nat (columns width)) as Hcols.
  { unfold columns. rewrite Z2Nat.id by (apply Z.div_pos; lia).
    apply Zeven_bool_iff, Zeven_ex_iff in Heven as [k ->].
    replace (2 * k + 1) with (1 + k * 2) by lia.
    rewrite Z.div_add by lia. change (1 / 2) with 0. lia. }
  assert (0 ≤ width * height) as Hwh by (apply Z.mul_nonneg_nonneg; lia).
  set (cols := columns width) in *.
  assert (Z.of_nat (cols * Z.to_nat height) * 2 = width * height) as Hprod.
  { rewrite Nat2Z.inj_mul, Z2Nat.id by lia. clearbody cols. subst width. lia. }
  unfold yuyv2rgb, uint32. rewrite Z.mod_small by lia.
  destruct (iterate_rows cols (Z.to_nat height)
              (Cursor yuyv (replicate (Z.to_nat (width * height * 3)) 0) 0))
    as (c & Hrun & Hlen); simpl; rewrite ?length_replicate; try lia.
  fold cols. rewrite Hrun. exists (rgb c). split; [done |].
  rewrite Hlen. simpl. rewrite length_replicate. lia.
Qed.

(** In the range of the inputs the arithmetic of the three channel
    functions stays far inside [int]. *)
Lemma channel_terms_fit_int b0 b1 b3 :
  is_byte b0 → is_byte b1 → is_byte b3 →
  let y := Z.shiftl b0 8 in
  let u := b1 - 128 in
  let v := b3 - 128 in
  - 2 ^ 31 ≤ y + 359 * v < 2 ^ 31
  ∧ - 2 ^ 31 ≤ y + 88 * v - 183 * u < 2 ^ 31
  ∧ - 2 ^ 31 ≤ y + 454 * u < 2 ^ 31.
Proof.
  unfold is_byte. intros H0 H1 H3. simpl. rewrite Z.shiftl_mul_pow2 by lia. lia.
Qed.

End ConvertFacts.

(** ** The device *)


Section Monad.

Lemma bind_Some {A B} (m : M A) (f : A → M B) w a w' :
  m w = Some (a, w') → (m ≫= f) w = f a w'.
Proof. intros H. unfold mbind, M_bind. by rewrite H. Qed.

Lemma bind_assoc {A B C} (m : M A) (f : A → M B) (g : B → M C) w :
  ((m ≫= f) ≫= g) w = (m ≫= λ a, f a ≫= g) w.
Proof. unfold mbind, M_bind. by destruct (m w) as [[a w'] |]. Qed.

Lemma bind_ret {A B} (a : A) (f : A → M B) w : (mret a ≫= f) w = f a w.
Proof. reflexivity. Qed.

Lemma get_Some {A} (f : camera_t → A) w c :
  w_camera w = Some c → get f w = Some (f c, w).
Proof. intros H. unfold get. by rewrite H. Qed.

Lemma set_Some f w c :
  w_camera w = Some c → set f w = Some ((), with_camera (Some (f c)) w).
Proof. intros H. unfold set. by rewrite H. Qed.

Lemma error_Some msg w c :
  w_camera w = Some c → error msg w = Some (false, logged CAMERA_ERROR msg c w).
Proof. intros H. unfold error, call_log, mbind, M_bind. by rewrite H. Qed.

Lemma failure_Some msg w c :
  w_camera w = Some c → failure msg w = Some (false, logged CAMERA_FAIL msg c w).
Proof. intros H. unfold failure, call_log, mbind, M_bind. by rewrite H. Qed.

End Monad.

Ltac mstep H := rewrite (bind_Some _ _ _ _ _ H); cbn beta.

Section Kernel.
Context (K : kernel).

Lemma sys_only_refl w : sys_only w w [].
Proof. split; try done. by rewrite app_nil_r. Qed.

Lemma syscall_do_spec {R} (call : syscall R) w :
  ∃ r w', syscall_do K call w = Some (r, w')
        ∧ r = k_result K (w_clock w) R call
        ∧ sys_only w w' [EvSys call r].
Proof. eexists _, _. split; [reflexivity |]. split; [done |]. by split. Qed.

Lemma xioctl_loop_S {A} fd (request : ioctl_request A) n arg w :
  xioctl_loop K (S n) fd request arg w =
  match syscall_do K (sys_ioctl fd request arg) w with
  | Some (ra, w1) =>
      if bool_decide (ra.1 ≠ -1) || bool_decide (w_errno w1 ≠ EINTR)
      then Some (ra, w1)
      else xioctl_loop K n fd request ra.2 w1
  | None => None
  end.
Proof.
  cbn [xioctl_loop]. unfold ioctl, mbind, M_bind, errno.
  simpl. by destruct (_ || _).
Qed.

Lemma failed_status (r : Z) : bool_decide (r ≠ -1) = false → r = -1.
Proof. intros H. apply bool_decide_eq_false in H. by destruct (decide (r = -1)). Qed.

Lemma xioctl_loop_spec {A} fd (request : ioctl_request A) n :
  ∀ arg w, ∃ r w' evs,
    xioctl_loop K (S n) fd request arg w = Some (r, w')
    ∧ sys_only w w' evs
    ∧ xioctl_events fd request arg evs r
    ∧ (length evs ≤ S n)%nat.
Proof.
  induction n as [| n IH]; intros arg w;
    destruct (syscall_do_spec (sys_ioctl fd request arg) w) as (ra & w1 & Hs & _ & Hso);
    rewrite xioctl_loop_S, Hs;
    destruct (bool_decide (ra.1 ≠ -1) || bool_decide (w_errno w1 ≠ EINTR)) eqn:E;
    try (exists ra, w1, [EvSys (sys_ioctl fd request arg) ra];
         split; [reflexivity |]; split; [done |]; split; [constructor | simpl; lia]);
    apply orb_false_elim in E as [E _]; apply failed_status in E;
    destruct ra as [r0 a]; simpl in E; subst r0.
  - exists (-1, a), w1, [EvSys (sys_ioctl fd request arg) (-1, a)].
    split; [reflexivity |]. split; [done |]. split; [constructor | simpl; lia].
  - destruct (IH a w1) as (r & w2 & evs & Hx & Hso2 & Hev & Hlen).
    exists r, w2, (EvSys (sys_ioctl fd request arg) (-1, a) :: evs).
    split; [exact Hx |]. split.
    { destruct Hso, Hso2. split; try congruence.
      rewrite so_trace1, so_trace0. by rewrite <- app_assoc. }
    split; [by constructor | simpl; lia].
Qed.

Lemma xioctl_spec {A} fd (request : ioctl_request A) arg w :
  ∃ r w' evs,
    xioctl K fd request arg w = Some (r, w')
    ∧ sys_only w w' evs
    ∧ xioctl_events fd request arg evs r
    ∧ (length evs ≤ 100)%nat.
Proof. apply xioctl_loop_spec. Qed.

End Kernel.

Ltac xioctl_step K w r w1 evs Hx Hso Hev :=
  match goal with
  | |- context [(xioctl K ?f ?q ?a ≫= _) w] =>
      destruct (xioctl_spec K f q a w) as (r & w1 & evs & Hx & Hso & Hev & _)
  end;
  mstep Hx.


Section Events.

Lemma xioctl_events_no_mmap {A} fd (request : ioctl_request A) arg evs r :
  xioctl_events fd request arg evs r → omap mmap_region evs = [].
Proof. induction 1; [done |]. simpl. done. Qed.

Lemma xioctl_events_no_munmap {A} fd (request : ioctl_request A) arg evs r :
  xioctl_events fd request arg evs r → omap munmap_region evs = [].
Proof. induction 1; done. Qed.

Lemma xioctl_events_no_log {A} fd (request : ioctl_request A) arg evs r :
  xioctl_events fd request arg evs r → omap log_entry evs = [].
Proof. induction 1; done. Qed.

Lemma xioctl_events_not_granted {A} fd (request : ioctl_request A) arg evs r :
  xioctl_events fd request arg evs r →
  is_reqbufs request = false → omap granted evs = [].
Proof. intros Hev Hr. induction Hev; destruct request; try done. Qed.

Lemma xioctl_events_granted fd arg evs r :
  xioctl_events fd VIDIOC_REQBUFS arg evs r →
  omap granted evs = if decide (r.1 = -1) then [] else [req_count r.2].
Proof.
  induction 1 as [arg r | arg arg' evs r _ IH].
  - simpl. by destruct (decide (r.1 = -1)).
  - simpl. exact IH.
Qed.

Lemma xioctl_events_last_call {A} fd (request : ioctl_request A) arg evs r :
  xioctl_events fd request arg evs r →
  last (omap device_call evs)
  = Some (if decide (r.1 = -1) then Some (request_name request) else None).
Proof.
  induction 1 as [arg r | arg arg' evs r _ IH].
  - done.
  - change (omap device_call (EvSys (sys_ioctl fd request arg) (-1, arg') :: evs))
      with (Some (request_name request) :: omap device_call evs).
    rewrite last_cons. by rewrite IH.
Qed.

End Events.

Section Release.

Lemma munmap_events_mmap bs : omap mmap_region (munmap_events bs) = [].
Proof. induction bs; done. Qed.
Lemma munmap_events_munmap bs : omap munmap_region (munmap_events bs) = region <$> bs.
Proof.
  induction bs as [| b bs IH]; [done |].
  change (region b :: omap munmap_region (munmap_events bs) = region b :: (region <$> bs)).
  by f_equal.
Qed.
Lemma munmap_events_log bs : omap log_entry (munmap_events bs) = [].
Proof. induction bs; done. Qed.
Lemma munmap_events_granted bs : omap granted (munmap_events bs) = [].
Proof. induction bs; done. Qed.
Lemma munmap_events_calls bs : omap device_call (munmap_events bs) = [].
Proof. induction bs; done. Qed.

Lemma regions_cons b bs : regions (b :: bs) = {[+ region b +]} ⊎ regions bs.
Proof. done. Qed.
Lemma regions_app bs1 bs2 : regions (bs1 ++ bs2) = regions bs1 ⊎ regions bs2.
Proof. unfold regions. by rewrite fmap_app, list_to_set_disj_app. Qed.

Lemma buffer_at_Some i w c bs b :
  w_camera w = Some c → buffers c = Some bs → bs !! i = Some b →
  buffer_at i w = Some (b, w).
Proof. intros Hc Hbs Hb. unfold buffer_at. by rewrite Hc, Hbs, Hb. Qed.

Lemma free_buffers_loop_spec n :
  ∀ i w c bs,
    w_camera w = Some c → buffers c = Some bs → (i + n ≤ length bs)%nat →
    ∃ w', free_buffers_loop n i w = Some ((), w')
        ∧ w_camera w' = Some c
        ∧ w_mapped w' = w_mapped w ∖ regions (take n (drop i bs))
        ∧ w_trace w' = w_trace w ++ munmap_events (take n (drop i bs)).
Proof.
  induction n as [| n IH]; intros i w c bs Hc Hbs Hlen.
  - exists w. split; [reflexivity |]. split; [done |].
    rewrite take_0. split; [| by rewrite app_nil_r].
    unfold regions. simpl. multiset_solver.
  - destruct (lookup_lt_is_Some_2 bs i) as [b Hb]; [lia |].
    cbn [free_buffers_loop].
    mstep (buffer_at_Some i w c bs b Hc Hbs Hb).
    unfold munmap at 1. unfold mbind at 1, M_bind at 1.
    set (w1 := with_event _ _).
    destruct (IH (S i) w1 c bs) as (w' & Hrun & Hc' & Hm & Ht); [done | done | lia |].
    exists w'. split; [exact Hrun |]. split; [done |].
    rewrite (drop_S _ _ _ Hb). cbn [take]. rewrite regions_cons.
    split.
    + rewrite Hm. subst w1. simpl. unfold region. multiset_solver.
    + rewrite Ht. subst w1. simpl. by rewrite <- app_assoc.
Qed.

Lemma free_buffers_spec count w c :
  w_camera w = Some c →
  (Z.to_nat count ≤ length (default [] (buffers c)))%nat →
  let bs := take (Z.to_nat count) (default [] (buffers c)) in
  ∃ w', free_buffers count w = Some ((), w')
      ∧ w_camera w' = Some (set_buffer_count 0 (set_buffers None c))
      ∧ w_mapped w' = w_mapped w ∖ regions bs
      ∧ w_trace w' = w_trace w ++ munmap_events bs ++ [EvFree (BufferArray <$> buffers c)].
Proof.
  intros Hc Hlen bs.
  assert (∃ w1, free_buffers_loop (Z.to_nat count) 0 w = Some ((), w1)
              ∧ w_camera w1 = Some c
              ∧ w_mapped w1 = w_mapped w ∖ regions bs
              ∧ w_trace w1 = w_trace w ++ munmap_events bs)
    as (w1 & Hloop & Hc1 & Hm1 & Ht1).
  { subst bs. destruct (buffers c) as [l |] eqn:Hbs; simpl in *.
    - destruct (free_buffers_loop_spec (Z.to_nat count) 0 w c l) as (w1 & ?);
        [done | done | lia |]. exists w1. by rewrite drop_0 in *.
    - assert (Z.to_nat count = 0%nat) as -> by lia.
      exists w. split; [reflexivity |]. split; [done |]. rewrite take_0.
      split; [| by rewrite app_nil_r]. unfold regions. simpl. multiset_solver. }
  unfold free_buffers. mstep Hloop.
  mstep (get_Some buffers w1 c Hc1).
  unfold free at 1. unfold mbind at 1, M_bind at 1.
  set (w2 := with_event _ w1).
  assert (w_camera w2 = Some c) as Hc2 by done.
  mstep (set_Some (set_buffers None) w2 c Hc2).
  set (w3 := with_camera _ w2).
  eexists. split; [apply set_Some; reflexivity |].
  simpl. split; [done |]. split; [done |].
  rewrite Ht1. by rewrite <- app_assoc.
Qed.

Lemma camera_buffer_finish_spec w c :
  w_camera w = Some c → wf_camera c →
  let bs := default [] (buffers c) in
  ∃ w', camera_buffer_finish w = Some ((), w')
      ∧ w_camera w' =
          Some (set_head_start None
                  (set_head_length 0 (set_buffer_count 0 (set_buffers None c))))
      ∧ w_mapped w' = w_mapped w ∖ regions bs
      ∧ w_trace w' = w_trace w ++ munmap_events bs
                       ++ [EvFree (BufferArray <$> buffers c);
                           EvFree (ByteBlock <$> h_start (head c))].
Proof.
  intros Hc Hwf bs. unfold wf_camera in Hwf.
  destruct (free_buffers_spec (buffer_count c) w c Hc) as (w1 & Hfree & Hc1 & Hm1 & Ht1);
    [lia |].
  rewrite Hwf, take_ge in Hm1, Ht1 by lia.
  unfold camera_buffer_finish.
  mstep (get_Some buffer_count w c Hc). mstep Hfree.
  mstep (get_Some (λ c, h_start (head c)) w1 _ Hc1).
  unfold free at 1. unfold mbind at 1, M_bind at 1.
  set (w2 := with_event _ w1).
  assert (w_camera w2 = Some (set_buffer_count 0 (set_buffers None c))) as Hc2 by done.
  mstep (set_Some (set_head_length 0) w2 _ Hc2).
  eexists. split; [apply set_Some; reflexivity |].
  simpl. split; [done |]. split; [done |].
  rewrite Ht1. by rewrite <- !app_assoc.
Qed.

End Release.

Section Reports.

Lemma reported_app evs1 evs2 :
  omap log_entry evs1 = [] → reported evs2 → reported (evs1 ++ evs2).
Proof.
  intros H1 (pre & type & msg & p & -> & Hpre & Hcause).
  exists (evs1 ++ pre), type, msg, p.
  split; [by rewrite app_assoc |].
  split; [by rewrite omap_app, H1, Hpre |].
  rewrite omap_app, last_app.
  destruct Hcause as [[-> Hlast] | (-> & Hlast & Hmsg)]; rewrite Hlast; auto.
Qed.

Lemma reported_error pre msg p :
  omap log_entry pre = [] → last (omap device_call pre) = Some (Some msg) →
  reported (pre ++ [EvLog CAMERA_ERROR msg p]).
Proof. intros H1 H2. exists pre, CAMERA_ERROR, msg, p. auto. Qed.

Lemma reported_fail pre msg p :
  omap log_entry pre = [] → last (omap device_call pre) = Some None →
  missing_capability msg →
  reported (pre ++ [EvLog CAMERA_FAIL msg p]).
Proof.
  intros H1 H2 H3. exists pre, CAMERA_FAIL, msg, p.
  split; [done |]. split; [done |]. by right.
Qed.

End Reports.

Section Allocation.
Context (K : kernel).

Lemma alter_at_end {A} (f : A → A) (done : list A) x rest i :
  length done = i → alter f i (done ++ x :: rest) = done ++ f x :: rest.
Proof.
  intros <-. rewrite <- (Nat.add_0_r (length done)). by rewrite alter_app_r.
Qed.

Lemma mmap_spec addr len prot flags fd offset w :
  ∃ p w', mmap K addr len prot flags fd offset w = Some (p, w')
        ∧ w_camera w' = w_camera w
        ∧ w_trace w' = w_trace w ++ [EvSys (sys_mmap addr len prot flags fd offset) p]
        ∧ w_mapped w' =
            if decide (p = MAP_FAILED) then w_mapped w
            else w_mapped w ⊎ {[+ (p, len) +]}.
Proof.
  destruct (syscall_do_spec K (sys_mmap addr len prot flags fd offset) w)
    as (p & w1 & Hs & _ & Hso).
  unfold mmap. mstep Hs. destruct Hso.
  exists p. destruct (decide (p = MAP_FAILED)).
  - exists w1. by split; [reflexivity |].
  - eexists. split; [reflexivity |]. simpl. by rewrite so_mapped0.
Qed.

Lemma prepare_loop_spec n :
  ∀ i buf_max w c done,
    w_camera w = Some c →
    buffers c = Some (done ++ replicate n zero_slot) →
    length done = i →
    ∃ res w' evs,
      prepare_loop K n i buf_max w = Some (res, w')
      ∧ w_trace w' = w_trace w ++ evs
      ∧ omap granted evs = []
      ∧ match res with
        | Some _ =>
            ∃ more, length more = n
              ∧ w_camera w' = Some (set_buffers (Some (done ++ more)) c)
              ∧ w_mapped w' = w_mapped w ⊎ regions more
              ∧ omap mmap_region evs = region <$> more
              ∧ omap munmap_region evs = []
              ∧ omap log_entry evs = []
        | None =>
            ∃ more,
              w_camera w' = Some (set_buffer_count 0 (set_buffers None c))
              ∧ w_mapped w' = w_mapped w ∖ regions done
              ∧ omap mmap_region evs = region <$> more
              ∧ omap munmap_region evs = region <$> (done ++ more)
              ∧ reported evs
        end.
Proof.
  induction n as [| n IH]; intros i buf_max w c done Hc Hbs Hlen.
  { exists (Some buf_max), w, []. split; [reflexivity |].
    split; [by rewrite app_nil_r |]. split; [done |].
    exists []. simpl in Hbs. rewrite app_nil_r in *.
    split; [done |]. split.
    { rewrite Hc. f_equal. destruct c; simpl in *. by subst. }
    split; [unfold regions; simpl; multiset_solver | done]. }
  cbn [prepare_loop].
  mstep (get_Some fd w c Hc).
  destruct (xioctl_spec K (fd c) VIDIOC_QUERYBUF (capture_buffer (Z.of_nat i)) w)
    as (rb & w1 & evq & Hx & [Hc1 Hm1 _ Ht1] & Hev & _).
  mstep Hx. rewrite Hc in Hc1.
  pose proof (xioctl_events_no_mmap _ _ _ _ _ Hev) as Hq_mmap.
  pose proof (xioctl_events_no_munmap _ _ _ _ _ Hev) as Hq_munmap.
  pose proof (xioctl_events_no_log _ _ _ _ _ Hev) as Hq_log.
  pose proof (xioctl_events_not_granted _ _ _ _ _ Hev eq_refl) as Hq_granted.
  assert (take i (done ++ replicate (S n) zero_slot) = done) as Htake.
  { by rewrite take_app_length' by done. }
  destruct (decide (rb.1 = -1)) as [Hfail | Hok].
  - (* VIDIOC_QUERYBUF failed *)
    destruct (free_buffers_spec (Z.of_nat i) w1 c Hc1) as (w2 & Hfree & Hc2 & Hm2 & Ht2).
    { rewrite Hbs. simpl. rewrite length_app. lia. }
    rewrite Hbs, Nat2Z.id in Hm2, Ht2. cbn [from_option id fmap option_fmap option_map] in Hm2, Ht2.
    rewrite Htake in Hm2, Ht2.
    mstep Hfree. mstep (error_Some "VIDIOC_QUERYBUF" w2 _ Hc2).
    eexists None, _, _. split; [reflexivity |].
    split.
    { simpl. rewrite Ht2, Ht1. rewrite <- !app_assoc. reflexivity. }
    split.
    { rewrite !omap_app, Hq_granted, munmap_events_granted. done. }
    exists []. split; [done |].
    split; [simpl; by rewrite Hm2, Hm1 |].
    split; [by rewrite !omap_app, Hq_mmap, munmap_events_mmap |].
    split; [by rewrite !omap_app, Hq_munmap, munmap_events_munmap, !app_nil_r |].
    rewrite !app_assoc. apply reported_error.
    + by rewrite !omap_app, Hq_log, munmap_events_log.
    + rewrite !omap_app, munmap_events_calls. simpl. rewrite !app_nil_r.
      rewrite (xioctl_events_last_call _ _ _ _ _ Hev). by rewrite decide_True.
  - (* the buffer is described: map it *)
    set (len := buf_length rb.2).
    mstep (set_Some (set_buffer_length i len) w1 c Hc1).
    set (w2 := with_camera _ w1).
    destruct (mmap_spec NULL len (Z.lor PROT_READ PROT_WRITE) MAP_SHARED (fd c)
                (buf_m_offset rb.2) w2) as (p & w3 & Hmap & Hc3 & Ht3 & Hm3).
    mstep Hmap.
    mstep (set_Some (set_buffer_start i p) w3 _ Hc3).
    set (w4 := with_camera _ w3).
    set (b := {| b_start := p; b_length := len |}).
    assert (w_camera w4 =
              Some (set_buffers (Some (done ++ b :: replicate n zero_slot)) c)) as Hc4.
    { subst w4 w2. simpl. f_equal. unfold set_buffer_start, set_buffer_length.
      cbn [buffers set_buffers]. rewrite Hbs.
      cbn [fmap option_fmap option_map].
      rewrite replicate_S, !alter_at_end by done. done. }
    assert (w_trace w4 = w_trace w ++ evq
                         ++ [EvSys (sys_mmap NULL len (Z.lor PROT_READ PROT_WRITE)
                                      MAP_SHARED (fd c) (buf_m_offset rb.2)) p]) as Ht4.
    { subst w4 w2. simpl. rewrite Ht3. simpl. rewrite Ht1. by rewrite <- app_assoc. }
    assert (w_mapped w4 = if decide (p = MAP_FAILED) then w_mapped w
                          else w_mapped w ⊎ {[+ region b +]}) as Hm4.
    { subst w4 w2. simpl. rewrite Hm3. simpl. by rewrite Hm1. }
    clearbody w4. clear Hmap Hc3 Ht3 Hm3 w3. clearbody w2.
    destruct (decide (p = MAP_FAILED)) as [Hmf | Hmapped].
    + (* mmap failed *)
      destruct (free_buffers_spec (Z.of_nat i) w4 _ Hc4) as (w5 & Hfree & Hc5 & Hm5 & Ht5).
      { simpl. rewrite length_app. simpl. lia. }
      rewrite Nat2Z.id in Hm5, Ht5. simpl in Hm5, Ht5.
      rewrite take_app_length' in Hm5, Ht5 by done.
      mstep Hfree. mstep (error_Some "mmap" w5 _ Hc5).
      eexists None, _, _. split; [reflexivity |].
      split.
      { simpl. rewrite Ht5, Ht4. rewrite <- !app_assoc. reflexivity. }
      split.
      { rewrite !omap_app, Hq_granted, munmap_events_granted. done. }
      exists []. split; [done |].
      split.
      { simpl. by rewrite Hm5, Hm4. }
      split.
      { rewrite !omap_app, Hq_mmap, munmap_events_mmap. simpl.
        by rewrite (decide_True (P := p = MAP_FAILED)) by done. }
      split; [by rewrite !omap_app, Hq_munmap, munmap_events_munmap, !app_nil_r |].
      rewrite !app_assoc. apply reported_error.
      * by rewrite !omap_app, Hq_log, munmap_events_log.
      * rewrite !omap_app, munmap_events_calls. simpl.
        rewrite (decide_True (P := p = MAP_FAILED)) by done.
        rewrite !app_nil_r. by rewrite last_snoc.
    + (* next buffer *)
      set (buf_max' := if buf_max <? len then len else buf_max).
      destruct (IH (S i) buf_max' w4 _ (done ++ [b]) Hc4) as
        (res & w5 & evs & Hloop & Ht5 & Hg5 & Hres).
      { simpl. by rewrite <- app_assoc. }
      { rewrite length_app. simpl. lia. }
      exists res, w5, (evq ++ [EvSys (sys_mmap NULL len (Z.lor PROT_READ PROT_WRITE)
                                        MAP_SHARED (fd c) (buf_m_offset rb.2)) p] ++ evs).
      split; [exact Hloop |].
      split; [rewrite Ht5, Ht4; by rewrite <- !app_assoc |].
      split; [by rewrite !omap_app, Hq_granted, Hg5 |].
      destruct res as [bm |].
      * destruct Hres as (more & Hlm & Hc5 & Hm5 & Hmm & Hmu & Hlg).
        exists (b :: more). split; [simpl; lia |].
        split; [rewrite Hc5; simpl; by rewrite <- app_assoc |].
        split; [rewrite Hm5, Hm4, regions_cons; multiset_solver |].
        split.
        { rewrite !omap_app, Hq_mmap, Hmm. simpl.
          by rewrite (decide_False (P := p = MAP_FAILED)) by done. }
        split; [by rewrite !omap_app, Hq_munmap, Hmu |].
        by rewrite !omap_app, Hq_log, Hlg.
      * destruct Hres as (more & Hc5 & Hm5 & Hmm & Hmu & Hrep).
        exists (b :: more). split; [rewrite Hc5; done |].
        split; [rewrite Hm5, Hm4, regions_app, regions_cons; multiset_solver |].
        split.
        { rewrite !omap_app, Hq_mmap, Hmm. simpl.
          by rewrite (decide_False (P := p = MAP_FAILED)) by done. }
        split; [rewrite !omap_app, Hq_munmap, Hmu; simpl; by rewrite <- app_assoc |].
        rewrite app_assoc. apply reported_app; [| done].
        by rewrite omap_app, Hq_log.
Qed.

End Allocation.

Section Quiet.
Context (K : kernel).

Lemma same_buffers_refl c : same_buffers c c.
Proof. by repeat split. Qed.

Lemma same_buffers_trans c1 c2 c3 :
  same_buffers c1 c2 → same_buffers c2 c3 → same_buffers c1 c3.
Proof. unfold same_buffers. intros (?&?&?&?&?) (?&?&?&?&?). repeat split; congruence. Qed.

Lemma no_resource_events_app evs1 evs2 :
  no_resource_events evs1 → no_resource_events evs2 →
  no_resource_events (evs1 ++ evs2).
Proof.
  unfold no_resource_events. intros (A1 & B1 & C1) (A2 & B2 & C2).
  rewrite !omap_app, A1, A2, B1, B2, C1, C2. done.
Qed.

Lemma outcome_app evs1 evs2 b :
  outcome true evs1 → outcome b evs2 → outcome b (evs1 ++ evs2).
Proof.
  unfold outcome. intros H1 H2. destruct b.
  - by rewrite omap_app, H1, H2.
  - by apply reported_app.
Qed.

Lemma quiet_trans c w w1 c1 b w2 :
  quiet_run c w true w1 → w_camera w1 = Some c1 → quiet_run c1 w1 b w2 →
  quiet_run c w b w2.
Proof.
  intros (evs1 & c1' & Ht1 & Hm1 & Hc1 & Hs1 & Hr1 & Ho1) Hc1'
         (evs2 & c2 & Ht2 & Hm2 & Hc2 & Hs2 & Hr2 & Ho2).
  assert (c1' = c1) as -> by congruence.
  exists (evs1 ++ evs2), c2.
  split; [rewrite Ht2, Ht1; by rewrite app_assoc |].
  split; [congruence |]. split; [done |].
  split; [by eapply same_buffers_trans |].
  split; [by apply no_resource_events_app | by apply outcome_app].
Qed.

Lemma quiet_refl c w : w_camera w = Some c → quiet_run c w true w.
Proof.
  intros Hc. exists [], c. split; [by rewrite app_nil_r |].
  split; [done |]. split; [done |]. split; [apply same_buffers_refl |]. by repeat split.
Qed.

Lemma quiet_set f c w :
  w_camera w = Some c → same_buffers c (f c) →
  quiet_run c w true (with_camera (Some (f c)) w).
Proof.
  intros Hc Hs. exists [], (f c). split; [simpl; by rewrite app_nil_r |].
  split; [done |]. split; [done |]. split; [exact Hs |]. by repeat split.
Qed.

Lemma quiet_xioctl {A} c w w1 fd (request : ioctl_request A) arg evs r :
  w_camera w = Some c → sys_only w w1 evs →
  xioctl_events fd request arg evs r → is_reqbufs request = false →
  quiet_run c w true w1.
Proof.
  intros Hc [Hc1 Hm1 _ Ht1] Hev Hreq. exists evs, c.
  split; [done |]. split; [done |]. split; [congruence |].
  split; [apply same_buffers_refl |].
  split; [| by eapply xioctl_events_no_log].
  split; [by eapply xioctl_events_no_mmap |].
  split; [by eapply xioctl_events_no_munmap | by eapply xioctl_events_not_granted].
Qed.

Lemma quiet_error {A} c w0 w fd (request : ioctl_request A) arg evs r :
  w_camera w0 = Some c → sys_only w0 w evs →
  xioctl_events fd request arg evs r → r.1 = -1 → is_reqbufs request = false →
  quiet_run c w0 false (logged CAMERA_ERROR (request_name request) c w).
Proof.
  intros Hc0 [Hc1 Hm1 _ Ht1] Hev Hr Hreq.
  exists (evs ++ [EvLog CAMERA_ERROR (request_name request) (pointer (context c))]), c.
  split; [simpl; rewrite Ht1; by rewrite app_assoc |].
  split; [done |]. split; [simpl; congruence |].
  split; [apply same_buffers_refl |].
  split.
  - apply no_resource_events_app; [| done].
    split; [by eapply xioctl_events_no_mmap |].
    split; [by eapply xioctl_events_no_munmap | by eapply xioctl_events_not_granted].
  - apply reported_error; [by eapply xioctl_events_no_log |].
    rewrite (xioctl_events_last_call _ _ _ _ _ Hev). by rewrite decide_True.
Qed.

Lemma quiet_failure {A} c w0 w fd (request : ioctl_request A) arg evs r msg :
  w_camera w0 = Some c → sys_only w0 w evs →
  xioctl_events fd request arg evs r → r.1 ≠ -1 → is_reqbufs request = false →
  missing_capability msg →
  quiet_run c w0 false (logged CAMERA_FAIL msg c w).
Proof.
  intros Hc0 [Hc1 Hm1 _ Ht1] Hev Hr Hreq Hmsg.
  exists (evs ++ [EvLog CAMERA_FAIL msg (pointer (context c))]), c.
  split; [simpl; rewrite Ht1; by rewrite app_assoc |].
  split; [done |]. split; [simpl; congruence |].
  split; [apply same_buffers_refl |].
  split.
  - apply no_resource_events_app; [| done].
    split; [by eapply xioctl_events_no_mmap |].
    split; [by eapply xioctl_events_no_munmap | by eapply xioctl_events_not_granted].
  - apply reported_fail; [by eapply xioctl_events_no_log | | done].
    rewrite (xioctl_events_last_call _ _ _ _ _ Hev). by rewrite decide_False.
Qed.

(** [camera_stop] in full: the events of its [xioctl], then the report
    when that failed. *)
Lemma camera_stop_spec w c :
  w_camera w = Some c →
  ∃ r w1 evs,
    sys_only w w1 evs
    ∧ xioctl_events (fd c) VIDIOC_STREAMOFF V4L2_BUF_TYPE_VIDEO_CAPTURE evs r
    ∧ (length evs ≤ 100)%nat
    ∧ camera_stop K w =
        Some (if decide (r.1 = -1)
              then (false, logged CAMERA_ERROR "VIDIOC_STREAMOFF" c w1)
              else (true, w1)).
Proof.
  intros Hc.
  destruct (xioctl_spec K (fd c) VIDIOC_STREAMOFF V4L2_BUF_TYPE_VIDEO_CAPTURE w)
    as (r & w1 & evs & Hx & Hso & Hev & Hlen).
  exists r, w1, evs. split; [done |]. split; [done |]. split; [done |].
  unfold camera_stop. mstep (get_Some fd w c Hc). mstep Hx.
  destruct (decide (r.1 = -1)); [| reflexivity].
  apply error_Some. destruct Hso. congruence.
Qed.

Lemma camera_stop_quiet w c :
  w_camera w = Some c →
  ∃ b w', camera_stop K w = Some (b, w') ∧ quiet_run c w b w'.
Proof.
  intros Hc. destruct (camera_stop_spec w c Hc) as (r & w1 & evs & Hso & Hev & _ & Hrun).
  rewrite Hrun. destruct (decide (r.1 = -1)).
  - eexists _, _. split; [reflexivity |].
    by eapply (quiet_error c w w1 _ VIDIOC_STREAMOFF).
  - eexists _, _. split; [reflexivity |]. by eapply quiet_xioctl.
Qed.

Lemma camera_load_settings_quiet w c :
  w_camera w = Some c →
  ∃ b w', camera_load_settings K w = Some (b, w') ∧ quiet_run c w b w'.
Proof.
  intros Hc. unfold camera_load_settings. mstep (get_Some fd w c Hc).
  match goal with |- context [xioctl K ?f ?q ?a] =>
    destruct (xioctl_spec K f q a w) as (r & w1 & evs & Hx & Hso & Hev & _) end.
  mstep Hx.
  assert (w_camera w1 = Some c) as Hc1 by (destruct Hso; congruence).
  destruct (decide (r.1 = -1)).
  - rewrite (error_Some _ _ _ Hc1). eexists _, _. split; [reflexivity |].
    by eapply (quiet_error c w w1 _ VIDIOC_G_FMT).
  - mstep (set_Some (set_width (pix_width (fmt_pix r.2))) w1 c Hc1).
    set (w2 := with_camera _ w1).
    assert (w_camera w2 = Some (set_width (pix_width (fmt_pix r.2)) c)) as Hc2 by done.
    mstep (set_Some (set_height (pix_height (fmt_pix r.2))) w2 _ Hc2).
    eexists _, _. split; [reflexivity |].
    eapply quiet_trans; [by eapply quiet_xioctl | exact Hc1 |].
    eapply quiet_trans;
      [by apply (quiet_set (set_width (pix_width (fmt_pix r.2)))) | exact Hc2 |].
    by apply (quiet_set (set_height (pix_height (fmt_pix r.2)))).
Qed.

Lemma camera_set_config_quiet config w c :
  w_camera w = Some c →
  ∃ b w', camera_set_config K config w = Some (b, w') ∧ quiet_run c w b w'.
Proof.
  intros Hc. unfold camera_set_config.
  assert (∃ b1 w1,
    (if bool_decide (0 < cfg_width config) && bool_decide (0 < cfg_height config)
     then
       fd ← get fd;
       rf ← xioctl K fd VIDIOC_S_FMT
              {| fmt_type := V4L2_BUF_TYPE_VIDEO_CAPTURE;
                 fmt_pix := {| pix_width := cfg_width config;
                               pix_height := cfg_height config;
                               pix_pixelformat :=
                                 logical_or (cfg_format config) V4L2_PIX_FMT_YUYV;
                               pix_field := V4L2_FIELD_NONE |} |};
       if decide (rf.1 = -1) then error "VIDIOC_S_FMT" else mret true
     else mret true) w = Some (b1, w1) ∧ quiet_run c w b1 w1)
    as (b1 & w1 & Hrun1 & Hq1).
  { destruct (_ && _).
    - mstep (get_Some fd w c Hc). xioctl_step K w r w1 evs Hx Hso Hev.
      assert (w_camera w1 = Some c) as Hc1 by (destruct Hso; congruence).
      destruct (decide (r.1 = -1)).
      + rewrite (error_Some _ _ _ Hc1). eexists _, _. split; [reflexivity |].
        by eapply (quiet_error c w w1 _ VIDIOC_S_FMT).
      + eexists _, _. split; [reflexivity |]. by eapply quiet_xioctl.
    - eexists _, _. split; [reflexivity |]. by apply quiet_refl. }
  mstep Hrun1. destruct b1; cbn [negb].
  2: { eexists _, _. split; [reflexivity | done]. }
  destruct Hq1 as (evs1 & c1 & Hq1).
  assert (w_camera w1 = Some c1) as Hc1 by tauto.
  assert (quiet_run c w true w1) as Hq by (by exists evs1, c1).
  clear Hrun1. destruct (_ && _).
  - mstep (get_Some fd w1 c1 Hc1). xioctl_step K w1 r w2 evs Hx Hso Hev.
    assert (w_camera w2 = Some c1) as Hc2 by (destruct Hso; congruence).
    destruct (decide (r.1 = -1)).
    + rewrite (error_Some _ _ _ Hc2). eexists _, _. split; [reflexivity |].
      eapply quiet_trans; [exact Hq | exact Hc1 |].
      by eapply (quiet_error c1 w1 w2 _ VIDIOC_S_PARM).
    + eexists _, _. split; [reflexivity |].
      eapply quiet_trans; [exact Hq | exact Hc1 |]. by eapply quiet_xioctl.
  - eexists _, _. split; [reflexivity | done].
Qed.

Lemma camera_init_quiet w c :
  w_camera w = Some c →
  ∃ b w', camera_init K w = Some (b, w') ∧ quiet_run c w b w'.
Proof.
  intros Hc. unfold camera_init. mstep (get_Some fd w c Hc).
  xioctl_step K w r w1 evs Hx Hso Hev.
  assert (w_camera w1 = Some c) as Hc1 by (destruct Hso; congruence).
  assert (quiet_run c w true w1) as Hq1 by (by eapply quiet_xioctl).
  destruct (decide (r.1 = -1)).
  { rewrite (error_Some _ _ _ Hc1). eexists _, _. split; [reflexivity |].
    by eapply (quiet_error c w w1 _ VIDIOC_QUERYCAP). }
  destruct (decide (Z.land _ V4L2_CAP_VIDEO_CAPTURE = 0)).
  { rewrite (failure_Some _ _ _ Hc1). eexists _, _. split; [reflexivity |].
    eapply (quiet_failure c w w1 _ VIDIOC_QUERYCAP); eauto. by left. }
  destruct (decide (Z.land _ V4L2_CAP_STREAMING = 0)).
  { rewrite (failure_Some _ _ _ Hc1). eexists _, _. split; [reflexivity |].
    eapply (quiet_failure c w w1 _ VIDIOC_QUERYCAP); eauto. by right. }
  xioctl_step K w1 r2 w2 evs2 Hx2 Hso2 Hev2.
  assert (w_camera w2 = Some c) as Hc2 by (destruct Hso2; congruence).
  assert (quiet_run c w true w2) as Hq2.
  { eapply quiet_trans; [exact Hq1 | exact Hc1 |]. by eapply quiet_xioctl. }
  assert (∃ w3, w_camera w3 = Some c ∧ quiet_run c w true w3 ∧
    (if decide (r2.1 = 0)
     then xioctl K (fd c) VIDIOC_S_CROP
            {| crop_type := V4L2_BUF_TYPE_VIDEO_CAPTURE; crop_c := defrect r2.2 |};;
          mret ()
     else mret ()) w2 = Some ((), w3)) as (w3 & Hc3 & Hq3 & Hrun3).
  { destruct (decide (r2.1 = 0)).
    - destruct (xioctl_spec K (fd c) VIDIOC_S_CROP
                  {| crop_type := V4L2_BUF_TYPE_VIDEO_CAPTURE; crop_c := defrect r2.2 |} w2)
        as (r3 & w3 & evs3 & Hx3 & Hso3 & Hev3 & _).
      exists w3. split; [destruct Hso3; congruence |]. split.
      + eapply quiet_trans; [exact Hq2 | exact Hc2 |]. by eapply quiet_xioctl.
      + by mstep Hx3.
    - exists w2. done. }
  mstep Hrun3. mstep (set_Some (set_initialized true) w3 c Hc3).
  eexists _, _. split; [reflexivity |].
  eapply quiet_trans; [exact Hq3 | exact Hc3 |].
  by apply (quiet_set (set_initialized true)).
Qed.

End Quiet.

Section Prepare.
Context (K : kernel).

Lemma camera_buffer_prepare_spec w c :
  w_camera w = Some c →
  ∃ b w' evs c',
    camera_buffer_prepare K w = Some (b, w')
    ∧ w_trace w' = w_trace w ++ evs
    ∧ w_camera w' = Some c'
    ∧ fd c' = fd c ∧ context c' = context c
    ∧ outcome b evs
    ∧ if b
      then allocated c' evs
           ∧ w_mapped w' = w_mapped w ⊎ regions (default [] (buffers c'))
      else rolled_back c c' evs ∧ w_mapped w' = w_mapped w.
Proof.
  intros Hc. unfold camera_buffer_prepare. mstep (get_Some fd w c Hc).
  xioctl_step K w r w1 evr Hx Hso Hev.
  destruct Hso as [Hc1 Hm1 _ Ht1]. rewrite Hc in Hc1.
  pose proof (xioctl_events_no_mmap _ _ _ _ _ Hev) as Hr_mmap.
  pose proof (xioctl_events_no_munmap _ _ _ _ _ Hev) as Hr_munmap.
  pose proof (xioctl_events_no_log _ _ _ _ _ Hev) as Hr_log.
  pose proof (xioctl_events_granted _ _ _ _ Hev) as Hr_granted.
  destruct (decide (r.1 = -1)) as [Hfail | Hok].
  { rewrite (error_Some _ _ _ Hc1).
    eexists false, _, (evr ++ [EvLog CAMERA_ERROR "VIDIOC_REQBUFS" (pointer (context c))]), c.
    split; [reflexivity |].
    split; [simpl; rewrite Ht1; by rewrite app_assoc |].
    split; [done |]. split; [done |]. split; [done |].
    split.
    { apply reported_error; [done |].
      rewrite (xioctl_events_last_call _ _ _ _ _ Hev). by rewrite decide_True. }
    split; [| done].
    split; [by rewrite !omap_app, Hr_mmap, Hr_munmap |].
    left. split; [done |].
    split; by rewrite omap_app, ?Hr_granted, ?Hr_mmap. }
  set (n := req_count r.2) in *.
  mstep (set_Some (set_buffer_count n) w1 c Hc1).
  set (w2 := with_camera _ w1).
  assert (w_camera w2 = Some (set_buffer_count n c)) as Hc2 by done.
  mstep (set_Some (set_buffers (Some (replicate (Z.to_nat n) zero_slot))) w2 _ Hc2).
  set (w3 := with_camera _ w2).
  set (c3 := set_buffers (Some (replicate (Z.to_nat n) zero_slot))
                         (set_buffer_count n c)).
  assert (w_camera w3 = Some c3) as Hc3 by done.
  mstep (get_Some buffer_count w3 c3 Hc3). cbn [buffer_count c3 set_buffers set_buffer_count].
  destruct (prepare_loop_spec K (Z.to_nat n) 0 0 w3 c3 [] Hc3 eq_refl eq_refl)
    as (res & w4 & evs & Hloop & Ht4 & Hg4 & Hres).
  mstep Hloop.
  assert (w_trace w4 = w_trace w ++ evr ++ evs) as Ht4'.
  { rewrite Ht4. subst w3 w2. simpl. rewrite Ht1. by rewrite app_assoc. }
  assert (w_mapped w3 = w_mapped w) as Hm3 by done.
  clearbody w3. clear w2 Hc2.
  destruct res as [bm |].
  - destruct Hres as (more & Hlm & Hc4 & Hm4 & Hmm & Hmu & Hlg).
    mstep (set_Some (set_head_start (Some (replicate (Z.to_nat bm) 0))) w4 _ Hc4).
    eexists true, _, (evr ++ evs), _. split; [reflexivity |].
    split; [done |]. split; [reflexivity |]. split; [done |]. split; [done |].
    split; [by apply (outcome_app _ _ true) |].
    split.
    + exists more. split; [done |]. split; [unfold wf_camera; simpl; lia |].
      split; [by rewrite omap_app, Hr_granted, Hg4 |].
      split; [by rewrite omap_app, Hr_mmap, Hmm | by rewrite omap_app, Hr_munmap, Hmu].
    + simpl. by rewrite Hm4, Hm3.
  - destruct Hres as (more & Hc4 & Hm4 & Hmm & Hmu & Hrep).
    eexists false, _, (evr ++ evs), _. split; [reflexivity |].
    split; [done |]. split; [exact Hc4 |]. split; [done |]. split; [done |].
    split; [by apply (outcome_app _ _ false) |].
    split.
    + split; [by rewrite !omap_app, Hr_mmap, Hr_munmap, Hmm, Hmu |].
      right. split; [| done]. exists n.
      by rewrite omap_app, Hr_granted, Hg4.
    + rewrite Hm4, Hm3. unfold regions. simpl. multiset_solver.
Qed.

End Prepare.

Section Configure.
Context (K : kernel).

Lemma wf_same_buffers c c' : same_buffers c c' → wf_camera c → wf_camera c'.
Proof. unfold same_buffers, wf_camera. intros (_ & -> & -> & _). done. Qed.

Lemma quiet_run_camera c w b w' :
  quiet_run c w b w' → ∃ c', w_camera w' = Some c' ∧ same_buffers c c'.
Proof. intros (evs & c' & _ & _ & Hc & Hs & _). eauto. Qed.

(** The first step of [camera_config]: stop and release when buffers
    are allocated. *)
Lemma teardown_spec w c :
  w_camera w = Some c → wf_camera c →
  ∃ b w' evs c',
    (if bool_decide (0 < buffer_count c)
     then ok ← camera_stop K;
          if negb ok then mret false
          else camera_buffer_finish;; mret true
     else mret true) w = Some (b, w')
    ∧ w_trace w' = w_trace w ++ evs
    ∧ w_camera w' = Some c'
    ∧ wf_camera c'
    ∧ fd c' = fd c ∧ context c' = context c
    ∧ outcome b evs
    ∧ omap mmap_region evs = [] ∧ omap granted evs = []
    ∧ (b = true →
       omap munmap_region evs = region <$> default [] (buffers c)
       ∧ w_mapped w' = w_mapped w ∖ regions (default [] (buffers c))).
Proof.
  intros Hc Hwf. destruct (bool_decide (0 < buffer_count c)) eqn:Hcount.
  - destruct (camera_stop_quiet K w c Hc) as (b & w1 & Hstop & Hq).
    mstep Hstop.
    destruct Hq as (evs1 & c1 & Ht1 & Hm1 & Hc1 & Hs1 & (Hmm1 & Hmu1 & Hg1) & Ho1).
    pose proof (wf_same_buffers _ _ Hs1 Hwf) as Hwf1.
    destruct Hs1 as (Hfd1 & Hbs1 & Hcnt1 & Hhd1 & Hctx1).
    destruct b; cbn [negb].
    + destruct (camera_buffer_finish_spec w1 c1 Hc1 Hwf1) as (w2 & Hfin & Hc2 & Hm2 & Ht2).
      mstep Hfin. rewrite Hbs1 in Hm2, Ht2.
      eexists true, w2, _, _. split; [reflexivity |].
      split; [rewrite Ht2, Ht1; by rewrite <- app_assoc |].
      split; [exact Hc2 |]. split; [done |]. split; [done |]. split; [done |].
      split.
      { apply (outcome_app _ _ true); [done |]. unfold outcome.
        by rewrite omap_app, munmap_events_log. }
      split; [by rewrite !omap_app, Hmm1, munmap_events_mmap |].
      split; [by rewrite !omap_app, Hg1, munmap_events_granted |].
      intros _. split.
      * by rewrite !omap_app, Hmu1, munmap_events_munmap, app_nil_r.
      * by rewrite Hm2, Hm1.
    + eexists false, w1, evs1, c1. split; [reflexivity |].
      repeat (split; [done |]). done.
  - eexists true, w, [], c. split; [reflexivity |].
    split; [by rewrite app_nil_r |].
    repeat (split; [done |]). intros _.
    apply bool_decide_eq_false in Hcount. unfold wf_camera in Hwf.
    assert (default [] (buffers c) = []) as ->.
    { apply length_zero_iff_nil. lia. }
    split; [done |]. unfold regions. simpl. multiset_solver.
Qed.

(** The middle of [camera_config]: initialisation when needed, the
    format and the read-back; either one of them fails and has
    reported it, or the run goes on with what follows. *)
Lemma negotiate_spec config (k : M bool) w c :
  w_camera w = Some c →
  let m :=
    (ok ← (if negb (initialized c) then camera_init K else mret true);
     if negb ok then mret false
     else
       ok ← camera_set_config K config;
       if negb ok then mret false
       else
         ok ← camera_load_settings K;
         if negb ok then mret false
         else k) in
  (∃ w', m w = Some (false, w') ∧ quiet_run c w false w')
  ∨ (∃ w', m w = k w' ∧ quiet_run c w true w').
Proof.
  intros Hc m. subst m.
  assert (∃ b1 w1, (if negb (initialized c) then camera_init K else mret true) w
                   = Some (b1, w1) ∧ quiet_run c w b1 w1) as (b1 & w1 & Hrun1 & Hq1).
  { destruct (initialized c); cbn [negb].
    - eexists _, _. split; [reflexivity |]. by apply quiet_refl.
    - by apply camera_init_quiet. }
  mstep Hrun1. destruct b1; cbn [negb].
  2: { left. eexists. split; [reflexivity | done]. }
  destruct (quiet_run_camera _ _ _ _ Hq1) as (c1 & Hc1 & _).
  destruct (camera_set_config_quiet K config w1 c1 Hc1) as (b2 & w2 & Hrun2 & Hq2).
  mstep Hrun2. destruct b2; cbn [negb].
  2: { left. eexists. split; [reflexivity |]. by eapply quiet_trans. }
  destruct (quiet_run_camera _ _ _ _ Hq2) as (c2 & Hc2 & _).
  destruct (camera_load_settings_quiet K w2 c2 Hc2) as (b3 & w3 & Hrun3 & Hq3).
  mstep Hrun3.
  assert (quiet_run c w b3 w3) as Hq.
  { eapply quiet_trans; [| exact Hc2 | exact Hq3]. by eapply quiet_trans. }
  destruct b3; cbn [negb].
  - right. by exists w3.
  - left. exists w3. split; [reflexivity | done].
Qed.

Lemma camera_config_spec config w c :
  w_camera w = Some c → wf_camera c →
  ∃ b w' evs c',
    camera_config K config w = Some (b, w')
    ∧ w_trace w' = w_trace w ++ evs
    ∧ w_camera w' = Some c'
    ∧ wf_camera c'
    ∧ fd c' = fd c ∧ context c' = context c
    ∧ outcome b evs
    ∧ (b = true →
       ∃ pre post,
         evs = pre ++ post
         ∧ omap munmap_region pre = region <$> default [] (buffers c)
         ∧ omap mmap_region pre = [] ∧ omap granted pre = []
         ∧ allocated c' post
         ∧ w_mapped w' =
             (w_mapped w ∖ regions (default [] (buffers c)))
             ⊎ regions (default [] (buffers c'))).
Proof.
  intros Hc Hwf. unfold camera_config. mstep (get_Some buffer_count w c Hc).
  destruct (teardown_spec w c Hc Hwf)
    as (b1 & w1 & evs1 & c1 & Hrun1 & Ht1 & Hc1 & Hwf1 & Hfd1 & Hctx1 & Ho1
        & Hmm1 & Hg1 & Hok1).
  mstep Hrun1. destruct b1; cbn [negb].
  2: { eexists false, w1, evs1, c1. split; [reflexivity |].
       repeat (split; [done |]). done. }
  destruct (Hok1 eq_refl) as [Hmu1 Hm1]. clear Hok1.
  mstep (get_Some initialized w1 c1 Hc1).
  destruct (negotiate_spec config (camera_buffer_prepare K) w1 c1 Hc1)
    as [(w2 & Hrun2 & Hq2) | (w2 & Hrun2 & Hq2)];
    rewrite Hrun2; clear Hrun2;
    destruct Hq2 as (evs2 & c2 & Ht2 & Hm2 & Hc2 & Hs2 & (Hmm2 & Hmu2 & Hg2) & Ho2);
    pose proof (wf_same_buffers _ _ Hs2 Hwf1) as Hwf2;
    destruct Hs2 as (Hfd2 & Hbs2 & Hcnt2 & Hhd2 & Hctx2).
  { eexists false, w2, (evs1 ++ evs2), c2. split; [reflexivity |].
    split; [rewrite Ht2, Ht1; by rewrite app_assoc |].
    split; [done |]. split; [done |].
    split; [congruence |]. split; [congruence |].
    split; [by apply (outcome_app _ _ false) | done]. }
  destruct (camera_buffer_prepare_spec K w2 c2 Hc2)
    as (b3 & w3 & evs3 & c3 & Hrun3 & Ht3 & Hc3 & Hfd3 & Hctx3 & Ho3 & Hres).
  exists b3, w3, ((evs1 ++ evs2) ++ evs3), c3. split; [exact Hrun3 |].
  split; [rewrite Ht3, Ht2, Ht1; by rewrite !app_assoc |].
  split; [done |].
  assert (outcome b3 ((evs1 ++ evs2) ++ evs3)) as Ho.
  { apply outcome_app; [| done]. by apply (outcome_app _ _ true). }
  destruct b3.
  - destruct Hres as [Halloc Hm3].
    split; [by destruct Halloc as (? & _ & ? & _) |].
    split; [congruence |]. split; [congruence |]. split; [done |].
    intros _. exists (evs1 ++ evs2), evs3. split; [done |].
    split; [by rewrite omap_app, Hmu1, Hmu2, app_nil_r |].
    split; [by rewrite omap_app, Hmm1, Hmm2 |].
    split; [by rewrite omap_app, Hg1, Hg2 |].
    split; [done |]. by rewrite Hm3, Hm2, Hm1.
  - destruct Hres as [[_ Hback] _].
    split.
    { destruct Hback as [(-> & _) | (_ & Hb & Hn)]; [done |].
      unfold wf_camera. by rewrite Hb, Hn. }
    split; [congruence |]. split; [congruence |]. split; [done |]. done.
Qed.

(** The buffer array and the buffer count agree after [camera_open] and
    whatever [camera_config] returns. *)
Lemma camera_open_wf device w w' :
  camera_open K device w = Some (true, w') →
  ∃ c, w_camera w' = Some c ∧ wf_camera c.
Proof.
  unfold camera_open. intros Hrun.
  destruct (syscall_do_spec K (sys_open device (Z.lor O_RDWR O_NONBLOCK) 0) w)
    as (fd & w1 & Hs & _ & _).
  rewrite (bind_Some _ _ _ _ _ Hs) in Hrun. cbn beta in Hrun.
  destruct (decide (fd = -1)); [discriminate Hrun |].
  injection Hrun as <-. by eexists.
Qed.

Lemma camera_config_wf config w c b w' :
  w_camera w = Some c → wf_camera c →
  camera_config K config w = Some (b, w') →
  ∃ c', w_camera w' = Some c' ∧ wf_camera c'.
Proof.
  intros Hc Hwf Hrun.
  destruct (camera_config_spec config w c Hc Hwf)
    as (b' & w'' & evs & c' & Hrun' & _ & Hc' & Hwf' & _).
  rewrite Hrun in Hrun'. injection Hrun' as <- <-. by exists c'.
Qed.

End Configure.

Section StartStopClose.
Context (K : kernel).


Lemma start_loop_quiet n :
  ∀ i w c, w_camera w = Some c →
    ∃ b w', start_loop K n i w = Some (b, w') ∧ quiet_run c w b w'.
Proof.
  induction n as [| n IH]; intros i w c Hc.
  - eexists _, _. split; [reflexivity |]. by apply quiet_refl.
  - cbn [start_loop]. mstep (get_Some fd w c Hc).
    xioctl_step K w r w1 evs Hx Hso Hev.
    assert (w_camera w1 = Some c) as Hc1 by (destruct Hso; congruence).
    destruct (decide (r.1 = -1)).
    + rewrite (error_Some _ _ _ Hc1). eexists _, _. split; [reflexivity |].
      by eapply (quiet_error c w w1 _ VIDIOC_QBUF).
    + destruct (IH (S i) w1 c Hc1) as (b & w2 & Hrun & Hq).
      exists b, w2. split; [done |].
      eapply quiet_trans; [by eapply quiet_xioctl | exact Hc1 | done].
Qed.


Lemma close_loop_S fd n w :
  close_loop K (S n) fd w =
  match syscall_do K (sys_close fd) w with
  | Some (r, w1) => if decide (r ≠ -1) then Some ((), w1) else close_loop K n fd w1
  | None => None
  end.
Proof.
  cbn [close_loop]. unfold mbind, M_bind. simpl. by destruct (decide _).
Qed.

Lemma close_loop_spec fd n :
  ∀ w, ∃ w' evs,
    close_loop K (S n) fd w = Some ((), w')
    ∧ sys_only w w' evs ∧ close_events fd evs ∧ (length evs ≤ S n)%nat.
Proof.
  induction n as [| n IH]; intros w;
    destruct (syscall_do_spec K (sys_close fd) w) as (r & w1 & Hs & _ & Hso);
    rewrite close_loop_S, Hs; destruct (decide (r ≠ -1)) as [Hr | Hr];
    try (exists w1, [EvSys (sys_close fd) r]; split; [reflexivity |];
         split; [done |]; split; [constructor | simpl; lia]);
    assert (r = -1) as -> by (by destruct (decide (r = -1))).
  destruct (IH w1) as (w2 & evs & Hrun & Hso2 & Hev & Hlen).
  exists w2, (EvSys (sys_close fd) (-1) :: evs). split; [exact Hrun |].
  split.
  { destruct Hso, Hso2. split; try congruence.
    rewrite so_trace1, so_trace0. by rewrite <- app_assoc. }
  split; [by constructor | simpl; lia].
Qed.

(** C8.  [camera_close] on a well-formed camera always returns true,
    whatever stream-off and [close] return; when buffers are allocated
    it first asks for stream-off, then unmaps all buffers and frees the
    array and the frame snapshot, and only then closes the descriptor
    and frees the camera object. *)
Theorem close_always_succeeds w c :
  w_camera w = Some c → wf_camera c → closed_after K w c.
Proof.
  intros Hc Hwf. unfold closed_after, camera_close. mstep (get_Some buffer_count w c Hc).
  assert (∃ w1 evs_release,
            (if bool_decide (0 < buffer_count c)
             then camera_stop K;; camera_buffer_finish
             else mret ()) w = Some ((), w1)
            ∧ (∃ c1, w_camera w1 = Some c1 ∧ fd c1 = fd c)
            ∧ w_trace w1 = w_trace w ++ evs_release
            ∧ w_mapped w1 = w_mapped w ∖ regions (default [] (buffers c))
            ∧ if bool_decide (0 < buffer_count c)
              then ∃ r evs_stop,
                  xioctl_events (fd c) VIDIOC_STREAMOFF V4L2_BUF_TYPE_VIDEO_CAPTURE
                    evs_stop r
                  ∧ evs_release =
                      evs_stop
                      ++ (if decide (r.1 = -1)
                          then [EvLog CAMERA_ERROR "VIDIOC_STREAMOFF"
                                  (pointer (context c))]
                          else [])
                      ++ release_events c
              else evs_release = [])
    as (w1 & evs_release & Hrun1 & (c1 & Hc1 & Hfd1) & Ht1 & Hm1 & Hshape).
  { destruct (bool_decide (0 < buffer_count c)) eqn:Hcount.
    - destruct (camera_stop_spec K w c Hc) as (r & w0 & evs & Hso & Hev & _ & Hstop).
      destruct Hso as [Hc0 Hm0 _ Ht0]. rewrite Hc in Hc0.
      set (w0' := if decide (r.1 = -1)
                  then logged CAMERA_ERROR "VIDIOC_STREAMOFF" c w0 else w0).
      assert (∃ b, camera_stop K w = Some (b, w0')) as [b Hstop'].
      { rewrite Hstop. subst w0'. destruct (decide (r.1 = -1)); eauto. }
      assert (w_camera w0' = Some c) as Hc0'.
      { subst w0'. by destruct (decide (r.1 = -1)). }
      destruct (camera_buffer_finish_spec w0' c Hc0' Hwf) as (w1 & Hfin & Hc1 & Hm1 & Ht1).
      mstep Hstop'. exists w1.
      exists (evs ++ (if decide (r.1 = -1)
                      then [EvLog CAMERA_ERROR "VIDIOC_STREAMOFF" (pointer (context c))]
                      else [])
                  ++ release_events c).
      split; [exact Hfin |].
      split; [eexists; split; [exact Hc1 | done] |].
      split.
      { rewrite Ht1. unfold release_events. subst w0'.
        destruct (decide (r.1 = -1)); simpl; rewrite Ht0;
          by rewrite <- ?app_assoc. }
      split.
      { rewrite Hm1. subst w0'. destruct (decide (r.1 = -1)); simpl; by rewrite Hm0. }
      by exists r, evs.
    - exists w, []. split; [reflexivity |]. split; [by exists c |].
      split; [by rewrite app_nil_r |]. split; [| done].
      apply bool_decide_eq_false in Hcount. unfold wf_camera in Hwf.
      assert (default [] (buffers c) = []) as ->.
      { apply length_zero_iff_nil. lia. }
      unfold regions. simpl. multiset_solver. }
  mstep Hrun1. mstep (get_Some fd w1 c1 Hc1). rewrite Hfd1.
  destruct (close_loop_spec (fd c) 9 w1) as (w2 & evs_close & Hrun2 & Hso2 & Hev2 & Hlen2).
  mstep Hrun2. destruct Hso2 as [Hc2 Hm2 _ Ht2].
  eexists _, evs_release, evs_close. split; [reflexivity |].
  split; [done |].
  split; [simpl; rewrite Ht2, Ht1; by rewrite <- !app_assoc |].
  split; [done |]. split; [done |].
  split; [simpl; by rewrite Hm2, Hm1 | done].
Qed.

End StartStopClose.

Section CaptureControl.
Context (K : kernel).

Lemma memcpy_head_inv index n w u w' :
  memcpy_head K index n w = Some (u, w') →
  w_trace w' = w_trace w
  ∧ ∃ c c', w_camera w = Some c ∧ w_camera w' = Some c' ∧ fd c' = fd c.
Proof.
  unfold memcpy_head. intros H.
  destruct (w_camera w) as [c |] eqn:Hc; [| done].
  destruct (buffers c) as [bs |]; [| done].
  destruct (h_start (head c)) as [dst |]; [| done].
  destruct (bs !! Z.to_nat index) as [b |]; [| done].
  destruct (decide _); [| done].
  injection H as _ <-. split; [done |].
  eexists c, _. split; [done |]. split; [reflexivity | done].
Qed.

(** [camera_capture] when the dequeue fails. *)
Lemma camera_capture_dequeue_failed w c rb w1 :
  w_camera w = Some c →
  xioctl K (fd c) VIDIOC_DQBUF (capture_buffer 0) w = Some (rb, w1) →
  rb.1 = -1 →
  camera_capture K w = Some (false, w1).
Proof.
  intros Hc Hx Hfail. unfold camera_capture.
  mstep (get_Some fd w c Hc). mstep Hx. by rewrite decide_True.
Qed.


Lemma camera_control_get_spec id value w c :
  w_camera w = Some c →
  let rc := k_result K (w_clock w) _
              (sys_ioctl (fd c) VIDIOC_G_CTRL {| ctrl_id := id; ctrl_value := 0 |}) in
  ∃ w' evs,
    camera_control_get K id value w =
      Some (if decide (rc.1 = -1) then (false, value) else (true, ctrl_value rc.2), w')
    ∧ w_trace w' = w_trace w ++ evs
    ∧ outcome (bool_decide (rc.1 ≠ -1)) evs.
Proof.
  intros Hc rc. unfold camera_control_get. mstep (get_Some fd w c Hc).
  destruct (syscall_do_spec K (sys_ioctl (fd c) VIDIOC_G_CTRL
                                  {| ctrl_id := id; ctrl_value := 0 |}) w)
    as (r & w1 & Hs & Hr & [Hc1 _ _ Ht1]).
  unfold ioctl. mstep Hs. subst rc. rewrite <- Hr. rewrite Hc in Hc1.
  destruct (decide (r.1 = -1)) as [Hfail | Hok].
  - mstep (error_Some "VIDIOC_G_CTRL" w1 c Hc1).
    eexists _, _. split; [reflexivity |].
    split; [simpl; rewrite Ht1; by rewrite <- app_assoc |].
    rewrite bool_decide_eq_false_2 by tauto.
    apply (reported_error [_]); [done |]. simpl. by rewrite decide_True.
  - eexists _, [_]. split; [reflexivity |]. split; [done |].
    by rewrite bool_decide_eq_true_2.
Qed.


End CaptureControl.


(** ** The claims about the device *)

Section DeviceClaims.

(** C1 (the code departs from the claim).  The pixel format
    [camera_set_config] asks for is the truth value of
    [config->format || V4L2_PIX_FMT_YUYV], that is 1, whatever the
    format of the configuration; with width 640, height 480 and format
    0 the [VIDIOC_S_FMT] call carries pixel format 1, which is not the
    identifier of the packed 4:2:2 format. *)
Theorem set_config_requests_truth_value :
  (∀ format, logical_or format V4L2_PIX_FMT_YUYV = 1) ∧
  omap requested_pixelformat (w_trace configured) = [1] ∧
  1 ≠ V4L2_PIX_FMT_YUYV ∧
  FormatCodec.camera_format_id FormatCodec.UnsignedChar "YUYV" = Some V4L2_PIX_FMT_YUYV.
Proof.
  split; [| split; [| split]].
  - intros format. unfold logical_or.
    rewrite (bool_decide_eq_true_2 (V4L2_PIX_FMT_YUYV ≠ 0)) by done.
    by rewrite orb_true_r.
  - vm_compute. reflexivity.
  - done.
  - vm_compute. reflexivity.
Qed.

(** C2.  After two consecutive successful calls of [camera_config] on a
    well-formed camera exactly one buffer set is allocated: every
    buffer the first call mapped is unmapped before the second call
    requests buffers, the recorded buffer count is the count granted
    to the second call, and only the second set remains mapped. *)
Theorem reconfigure_leaves_one_buffer_set K config1 config2 w0 c0 w1 w2 :
  w_camera w0 = Some c0 → wf_camera c0 →
  camera_config K config1 w0 = Some (true, w1) →
  camera_config K config2 w1 = Some (true, w2) →
  one_buffer_set w0 c0 w1 w2.
Proof.
  intros Hc0 Hwf0 Hrun1 Hrun2.
  destruct (camera_config_spec K config1 w0 c0 Hc0 Hwf0)
    as (b1 & w1' & evs1 & c1 & Hrun1' & Ht1 & Hc1 & Hwf1 & _ & _ & _ & Hok1).
  rewrite Hrun1 in Hrun1'. injection Hrun1' as <- <-.
  destruct (Hok1 eq_refl)
    as (pre1 & post1 & -> & Hmu_pre1 & Hmm_pre1 & Hg_pre1 & Halloc1 & Hm1).
  destruct Halloc1 as (bs1 & Hbs1 & _ & Hg1 & Hmm1 & Hmu1).
  destruct (camera_config_spec K config2 w1 c1 Hc1 Hwf1)
    as (b2 & w2' & evs2 & c2 & Hrun2' & Ht2 & Hc2 & Hwf2 & _ & _ & _ & Hok2).
  rewrite Hrun2 in Hrun2'. injection Hrun2' as <- <-.
  destruct (Hok2 eq_refl)
    as (pre2 & post2 & -> & Hmu_pre2 & Hmm_pre2 & Hg_pre2 & Halloc2 & Hm2).
  destruct Halloc2 as (bs2 & Hbs2 & _ & Hg2 & Hmm2 & Hmu2).
  rewrite Hbs1 in Hmu_pre2, Hm2, Hm1. rewrite Hbs2 in Hm2. simpl in Hmu_pre2, Hm2, Hm1.
  exists c1, c2, bs1, bs2, (pre1 ++ post1), pre2, post2.
  repeat (split; [done |]).
  split; [by rewrite omap_app, Hg_pre1, Hg1 |].
  split; [by rewrite omap_app, Hmm_pre1, Hmm1 |].
  repeat (split; [done |]).
  split; [unfold wf_camera in Hwf2; rewrite Hbs2 in Hwf2; simpl in Hwf2; lia |].
  repeat (split; [done |]).
  rewrite Hm2, Hm1. multiset_solver.
Qed.

Lemma reconfigure_leaves_one_buffer_set_witness :
  one_buffer_set opened (initial_camera 3) configured reconfigured.
Proof.
  apply (reconfigure_leaves_one_buffer_set Stub.device vga qvga).
  - reflexivity.
  - reflexivity.
  - vm_compute. reflexivity.
  - vm_compute. reflexivity.
Defined.

(** C3.  When the dequeue inside [camera_capture] fails, the call
    returns false at once: nothing happens after the dequeue, which
    makes a hundred attempts at most, and the camera object, with the
    contents and the recorded length of the frame snapshot, is what it
    was. *)
Theorem capture_without_frame K w c rb w1 :
  w_camera w = Some c →
  xioctl K (fd c) VIDIOC_DQBUF (capture_buffer 0) w = Some (rb, w1) →
  rb.1 = -1 →
  camera_capture K w = Some (false, w1)
  ∧ w_camera w1 = Some c
  ∧ ∃ evs, w_trace w1 = w_trace w ++ evs
         ∧ xioctl_events (fd c) VIDIOC_DQBUF (capture_buffer 0) evs rb
         ∧ (length evs ≤ 100)%nat.
Proof.
  intros Hc Hx Hfail.
  split; [by eapply camera_capture_dequeue_failed |].
  destruct (xioctl_spec K (fd c) VIDIOC_DQBUF (capture_buffer 0) w)
    as (r & w' & evs & Hx' & [Hc' _ _ Ht'] & Hev & Hlen).
  rewrite Hx in Hx'. injection Hx' as <- <-.
  split; [congruence |]. by exists evs.
Qed.

Lemma capture_without_frame_witness :
  ∃ w1, camera_capture Stub.broken configured = Some (false, w1)
      ∧ w_camera w1 = w_camera configured.
Proof.
  edestruct (capture_without_frame Stub.broken configured (camera_of configured))
    as (Hrun & Hcam & _).
  - vm_compute. reflexivity.
  - vm_compute. reflexivity.
  - reflexivity.
  - eexists. split; [exact Hrun |]. rewrite Hcam. vm_compute. reflexivity.
Defined.

Lemma close_always_succeeds_witness :
  closed_after Stub.broken configured (camera_of configured).
Proof.
  apply close_always_succeeds.
  - vm_compute. reflexivity.
  - vm_compute. reflexivity.
Defined.

(** C9.  When [camera_open] succeeds the camera object holds the new
    descriptor and is otherwise in its initial state: not initialised,
    width, height, buffer count and snapshot length zero, buffer
    collection and snapshot memory null, and the callback writing to
    the standard error stream installed with a null user pointer. *)
Theorem open_initial_state K device w w' :
  camera_open K device w = Some (true, w') →
  ∃ fd,
    fd = k_result K (w_clock w) Z (sys_open device (Z.lor O_RDWR O_NONBLOCK) 0)
    ∧ fd ≠ -1
    ∧ w_camera w' =
        Some {| fd := fd; initialized := false; width := 0; height := 0;
                buffer_count := 0; buffers := None;
                head := {| h_start := None; h_length := 0 |};
                context := {| pointer := NULL; log := log_stderr |} |}.
Proof.
  unfold camera_open. intros Hrun.
  destruct (syscall_do_spec K (sys_open device (Z.lor O_RDWR O_NONBLOCK) 0) w)
    as (fd & w1 & Hs & Hfd & _).
  rewrite (bind_Some _ _ _ _ _ Hs) in Hrun. cbn beta in Hrun.
  destruct (decide (fd = -1)); [discriminate Hrun |].
  injection Hrun as <-. by exists fd.
Qed.

Lemma open_initial_state_witness :
  ∃ fd, fd = 3 ∧ fd ≠ -1 ∧ w_camera opened = Some (initial_camera fd).
Proof.
  apply (open_initial_state Stub.device "/dev/video0" initial_world opened).
  vm_compute. reflexivity.
Defined.

(** C10.  [camera_control_get] makes one [VIDIOC_G_CTRL] call; when it
    returns -1 the operation returns false and the caller's variable
    keeps its value, otherwise the operation returns true and the
    variable holds the value the driver reported. *)
Theorem control_get_out_parameter K id value w c :
  w_camera w = Some c →
  let rc := k_result K (w_clock w) _
              (sys_ioctl (fd c) VIDIOC_G_CTRL {| ctrl_id := id; ctrl_value := 0 |}) in
  ∃ w', camera_control_get K id value w =
          Some (if decide (rc.1 = -1) then (false, value)
                else (true, ctrl_value rc.2), w').
Proof.
  intros Hc rc.
  destruct (camera_control_get_spec K id value w c Hc) as (w' & evs & Hrun & _).
  by exists w'.
Qed.

Lemma control_get_out_parameter_witness :
  (∃ w', camera_control_get Stub.broken 9963776 7 opened = Some ((false, 7), w'))
  ∧ (∃ w', camera_control_get Stub.device 9963776 7 opened = Some ((true, 42), w')).
Proof.
  split.
  - apply (control_get_out_parameter Stub.broken 9963776 7 opened (initial_camera 3)).
    reflexivity.
  - apply (control_get_out_parameter Stub.device 9963776 7 opened (initial_camera 3)).
    reflexivity.
Defined.


End DeviceClaims.

(** ** Failures of the device and the result of an operation *)

Section Tracking.
Import Failures.
Context (K : kernel).

Lemma device_failures_app t evs1 evs2 :
  device_failures K t (evs1 ++ evs2)
  = device_failures K t evs1
    ++ device_failures K (t + length (omap device_call evs1)) evs2.
Proof.
  revert t. induction evs1 as [| e evs1 IH]; intros t.
  - simpl. by rewrite Nat.add_0_r.
  - cbn [app device_failures omap list_omap].
    destruct (device_call e) as [call |].
    + cbn [length]. rewrite IH.
      replace (S t + length (omap device_call evs1))%nat
        with (t + S (length (omap device_call evs1)))%nat by lia.
      by destruct (hard_failure _ e).
    + apply IH.
Qed.

Lemma device_failures_quiet t evs :
  omap device_call evs = [] → device_failures K t evs = [].
Proof.
  induction evs as [| e evs IH]; [done |].
  cbn [omap list_omap device_failures].
  destruct (device_call e); [done | exact IH].
Qed.


Lemma advances_trans w w1 w2 evs1 evs2 :
  advances w w1 evs1 → advances w1 w2 evs2 → advances w w2 (evs1 ++ evs2).
Proof.
  intros [Ht1 Hk1] [Ht2 Hk2]. split.
  - rewrite Ht2, Ht1. by rewrite app_assoc.
  - rewrite omap_app, length_app. lia.
Qed.

Lemma decided_quiet t b evs : omap device_call evs = [] → decided K t b evs.
Proof.
  intros Hq. split.
  - rewrite device_failures_quiet by done. intros name Hin. by apply elem_of_nil in Hin.
  - rewrite Hq. done.
Qed.

Lemma decided_app t b evs1 evs2 :
  decided K t true evs1 →
  decided K (t + length (omap device_call evs1)) b evs2 →
  decided K t b (evs1 ++ evs2).
Proof.
  intros [Hf1 Hl1] [Hf2 Hl2]. split.
  - intros name Hin Hopt. rewrite device_failures_app in Hin.
    apply elem_of_app in Hin as [Hin | Hin].
    + by destruct (Hf1 name Hin Hopt).
    + destruct (Hf2 name Hin Hopt) as [-> Hlast]. split; [done |].
      rewrite omap_app, last_app, Hlast. done.
  - intros -> name. rewrite omap_app, last_app.
    destruct (last (omap device_call evs2)) as [call |] eqn:Hlast.
    + intros [= ->]. by apply Hl2.
    + by apply Hl1.
Qed.


Lemma tracked_quiet w w' evs b :
  advances w w' evs → omap device_call evs = [] → tracked K w w' b.
Proof. intros Hadv Hq. exists evs. split; [done |]. by apply decided_quiet. Qed.


Lemma tracked_trans w w1 w2 b :
  tracked K w w1 true → tracked K w1 w2 b → tracked K w w2 b.
Proof.
  intros (evs1 & Hadv1 & Hd1) (evs2 & Hadv2 & Hd2).
  exists (evs1 ++ evs2). split; [by eapply advances_trans |].
  apply decided_app; [done |]. destruct Hadv1 as [_ <-]. done.
Qed.


(** *** Runs, step by step *)

Lemma bind_inv {A B} (m : M A) (f : A → M B) w b w' :
  (m ≫= f) w = Some (b, w') → ∃ a w1, m w = Some (a, w1) ∧ f a w1 = Some (b, w').
Proof.
  unfold mbind, M_bind. destruct (m w) as [[a w1] |]; [| done].
  intros H. by exists a, w1.
Qed.

Lemma ret_inv {A} (a b : A) w w' :
  (mret a : M A) w = Some (b, w') → b = a ∧ w' = w.
Proof. intros [= <- <-]. done. Qed.

Lemma get_inv {A} (f : camera_t → A) w a w' :
  get f w = Some (a, w') → w' = w ∧ ∃ c, w_camera w = Some c ∧ a = f c.
Proof.
  unfold get. destruct (w_camera w) as [c |]; [| done].
  intros [= <- <-]. split; [done |]. by exists c.
Qed.

Lemma set_inv f w u w' :
  set f w = Some (u, w') →
  advances w w' [] ∧ ∃ c, w_camera w = Some c ∧ w_camera w' = Some (f c).
Proof.
  unfold set. destruct (w_camera w) as [c |]; [| done].
  intros H. injection H as _ <-. split; [| by exists c].
  split; simpl; [by rewrite app_nil_r | lia].
Qed.

Lemma log_inv type msg w u w' :
  call_log type msg w = Some (u, w') →
  w_camera w' = w_camera w ∧ ∃ p, advances w w' [EvLog type msg p].
Proof.
  unfold call_log. destruct (w_camera w) as [c |] eqn:Hc; [| done].
  intros H. injection H as _ <-. split; [done |]. exists (pointer (context c)).
  split; simpl; [done | lia].
Qed.

Lemma error_inv msg w b w' :
  error msg w = Some (b, w') →
  b = false ∧ w_camera w' = w_camera w
  ∧ ∃ p, advances w w' [EvLog CAMERA_ERROR msg p].
Proof.
  unfold error. intros H. apply bind_inv in H as (u & w1 & Hlog & Hret).
  apply ret_inv in Hret as [-> ->]. split; [done |]. by eapply log_inv.
Qed.


Lemma syscall_inv {R} (call : syscall R) w r w' :
  syscall_do K call w = Some (r, w') →
  r = k_result K (w_clock w) R call
  ∧ w_camera w' = w_camera w
  ∧ w_errno w' = k_errno K (w_clock w)
  ∧ advances w w' [EvSys call r].
Proof.
  intros [= <- <-]. split; [done |]. split; [done |]. split; [done |].
  split; simpl; [done | lia].
Qed.

Lemma ioctl_failure errno {A} fd (request : ioctl_request A) arg ra :
  hard_failure errno (EvSys (sys_ioctl fd request arg) ra)
  = if decide (ra.1 = -1 ∧ errno ≠ EINTR) then Some (request_name request) else None.
Proof. done. Qed.

Lemma xioctl_loop_settled {A} fd (request : ioctl_request A) n :
  ∀ arg w r w',
    xioctl_loop K (S n) fd request arg w = Some (r, w') →
    w_camera w' = w_camera w ∧ settled K fd request arg w w' r.
Proof.
  induction n as [| n IH]; intros arg w r w' Hrun;
    rewrite xioctl_loop_S in Hrun;
    destruct (syscall_do K (sys_ioctl fd request arg) w) as [[ra w1] |] eqn:Hs;
    try done;
    apply syscall_inv in Hs as (_ & Hc1 & He1 & Hadv1);
    destruct (bool_decide (ra.1 ≠ -1) || bool_decide (w_errno w1 ≠ EINTR)) eqn:E.
  1, 3: injection Hrun as <- <-; split; [done |];
    exists [EvSys (sys_ioctl fd request arg) ra];
    split; [done |]; split; [apply xioctl_last |];
    intros name; cbn [device_failures device_call]; rewrite ioctl_failure;
    destruct (decide _) as [[Hfail _] |]; [| intros Hin; by apply elem_of_nil in Hin];
    intros Hin%list_elem_of_singleton; done.
  - apply orb_false_elim in E as [E1 E2]. apply failed_status in E1.
    apply bool_decide_eq_false in E2. rewrite He1 in E2.
    destruct ra as [r0 a]. simpl in E1. subst r0.
    injection Hrun as <- <-. split; [done |].
    exists [EvSys (sys_ioctl fd request arg) (-1, a)].
    split; [done |]. split.
    { apply xioctl_last. }
    intros name. cbn [device_failures device_call]. rewrite ioctl_failure.
    destruct (decide _) as [[_ Hne] |]; [| intros Hin; by apply elem_of_nil in Hin].
    destruct (decide (k_errno K (w_clock w) = EINTR)); [done | tauto].
  - apply orb_false_elim in E as [E1 E2]. apply failed_status in E1.
    apply bool_decide_eq_false in E2. rewrite He1 in E2.
    destruct (IH _ _ _ _ Hrun) as (Hc2 & evs & Hadv2 & Hev & Hf).
    split; [congruence |].
    exists (EvSys (sys_ioctl fd request arg) ra :: evs).
    split; [by apply (advances_trans _ _ _ [_] evs Hadv1) |].
    split.
    { destruct ra as [r0 a]. simpl in E1. subst r0. by apply xioctl_retry. }
    intros name. cbn [device_failures device_call]. rewrite ioctl_failure.
    destruct (decide _) as [[_ Hne] |].
    { destruct (decide (k_errno K (w_clock w) = EINTR)); [done | tauto]. }
    destruct Hadv1 as [_ Hk1]. simpl in Hk1.
    replace (S (w_clock w)) with (w_clock w1) by lia. apply Hf.
Qed.

Lemma xioctl_settled {A} fd (request : ioctl_request A) arg w r w' :
  xioctl K fd request arg w = Some (r, w') →
  w_camera w' = w_camera w ∧ settled K fd request arg w w' r.
Proof. apply xioctl_loop_settled. Qed.




Lemma calm_set f : calm (set f).
Proof. intros w a w' [Hadv _]%set_inv. by exists []. Qed.

Lemma calm_error msg : calm (error msg).
Proof. intros w a w' (_ & _ & p & Hadv)%error_inv. by exists [EvLog CAMERA_ERROR msg p]. Qed.








Lemma calm_memcpy_head index n : calm (memcpy_head K index n).
Proof.
  intros w u w' H. apply memcpy_head_inv in H as H'. destruct H' as [Ht _].
  exists []. split; [| done]. split; [by rewrite app_nil_r |].
  unfold memcpy_head in H.
  destruct (w_camera w) as [c |]; [| done].
  destruct (buffers c) as [bs |]; [| done].
  destruct (h_start (head c)) as [dst |]; [| done].
  destruct (bs !! Z.to_nat index) as [b |]; [| done].
  destruct (decide _); [| done].
  injection H as _ <-. simpl. lia.
Qed.

Lemma calm_tracked {A} (m : M A) w a w' b :
  calm m → m w = Some (a, w') → tracked K w w' b.
Proof. intros Hm H. destruct (Hm _ _ _ H) as (evs & Hadv & Hq). by eapply tracked_quiet. Qed.


(** *** One checked request *)

Lemma tracked_weaken w w' b : tracked K w w' true → tracked K w w' b.
Proof.
  intros (evs & Hadv & Hf & Hl). exists evs. split; [done |]. split.
  - intros name Hin Hopt. by destruct (Hf name Hin Hopt).
  - intros ->. by apply Hl.
Qed.

Lemma settled_passed {A} fd (request : ioctl_request A) arg w w1 r :
  settled K fd request arg w w1 r → r.1 ≠ -1 → tracked K w w1 true.
Proof.
  intros (evs & Hadv & Hev & Hf) Hok. exists evs. split; [done |]. split.
  - intros name Hin _. by destruct (Hf name Hin).
  - intros _ name. rewrite (xioctl_events_last_call _ _ _ _ _ Hev).
    by rewrite decide_False.
Qed.

Lemma settled_failed {A} fd (request : ioctl_request A) arg w w1 r :
  settled K fd request arg w w1 r → r.1 = -1 → tracked K w w1 false.
Proof.
  intros (evs & Hadv & Hev & Hf) Hfail. exists evs. split; [done |]. split; [| done].
  intros name Hin _. destruct (Hf name Hin) as [_ ->]. split; [done |].
  rewrite (xioctl_events_last_call _ _ _ _ _ Hev). by rewrite decide_True.
Qed.




(** *** The operations *)

















Lemma camera_capture_tracked w b w' :
  camera_capture K w = Some (b, w') → tracked K w w' b.
Proof.
  unfold camera_capture. intros H.
  apply bind_inv in H as (fd0 & w0 & [-> _]%get_inv & H).
  apply bind_inv in H as (rb & w1 & [_ Hdq]%xioctl_settled & H).
  destruct (decide (rb.1 = -1)) as [Hfail | Hok].
  - apply ret_inv in H as [-> ->]. by eapply settled_failed.
  - cbn zeta in H. eapply tracked_trans; [by eapply settled_passed |].
    apply bind_inv in H as (u & w2 & Hcpy & H).
    eapply tracked_trans; [by eapply calm_tracked; [apply calm_memcpy_head |] |].
    apply bind_inv in H as (u' & w3 & Hset & H).
    eapply tracked_trans; [by eapply calm_tracked; [apply calm_set |] |].
    apply bind_inv in H as (rq & w4 & [_ Hq]%xioctl_settled & H).
    destruct (decide (rq.1 = -1)); apply ret_inv in H as [-> ->].
    + by eapply settled_failed.
    + by eapply settled_passed.
Qed.

End Tracking.

(** ** The claims about failures *)

Section FailureClaims.
Import Failures.








End FailureClaims.



(** * Further properties *)

Import Pixels Retry Observe Session Frames.

(** ** The codec, both ways *)

Section TagFacts.
Import FormatCodec.

Lemma char_code_of_int b : 0 ≤ b < 256 → char_code (char_of_int b) = b.
Proof.
  intros Hb. unfold char_code, char_of_int, uint8.
  rewrite Z.mod_small by lia.
  rewrite N_ascii_embedding; [lia |].
  apply N2Z.inj_lt. rewrite Z2N.id by lia. simpl. lia.
Qed.

Lemma id_byte_bounds id k : 0 ≤ id_byte id k < 256.
Proof.
  unfold id_byte. change 255 with (Z.ones 8). rewrite Z.land_ones by lia.
  apply Z.mod_pos_bound. lia.
Qed.

Lemma id_bytes_sum id :
  0 ≤ id < 2 ^ 32 →
  id_byte id 0 + id_byte id 1 * 2 ^ 8 + id_byte id 2 * 2 ^ 16 + id_byte id 3 * 2 ^ 24 = id.
Proof.
  intros Hid. unfold id_byte. change 255 with (Z.ones 8).
  rewrite !Z.land_ones, !Z.shiftr_div_pow2 by lia.
  simpl (8 * _). Z.to_euclidean_division_equations. lia.
Qed.

(** A character in the last position may have its high bit set: the
    shift by 24 pushes the sign extension out of the 32 bits. *)
Lemma top_byte_shift sg c :
  uint32 (Z.shiftl (char_to_uint32 sg c) 24) = char_code c * 2 ^ 24.
Proof.
  pose proof (char_code_bounds c) as Hc.
  unfold char_to_uint32. destruct sg; [| unfold uint32;
    rewrite Z.shiftl_mul_pow2, Z.mod_small by lia; done].
  destruct (Z.leb_spec 128 (char_code c)).
  - unfold uint32. rewrite Z.shiftl_mul_pow2 by lia.
    replace (char_code c - 256) with (char_code c + (-1) * 256) by lia.
    rewrite (Z.mod_small (char_code c + -1 * 256 + 0) _) || idtac.
    replace ((char_code c + -1 * 256) mod 2 ^ 32) with (char_code c - 256 + 2 ^ 32).
    2: { symmetry. rewrite <- (Z.mod_add _ 1) by lia.
         rewrite Z.mod_small by lia. lia. }
    replace ((char_code c - 256 + 2 ^ 32) * 2 ^ 24)
      with (char_code c * 2 ^ 24 + (2 ^ 24 - 1) * 2 ^ 32) by lia.
    rewrite Z.mod_add by lia. rewrite Z.mod_small by lia. done.
  - unfold uint32. rewrite Z.shiftl_mul_pow2, Z.mod_small by lia. done.
Qed.

Lemma pack_chars sg b0 b1 b2 b3 :
  0 ≤ b0 < 256 → 0 ≤ b1 < 256 → 0 ≤ b2 < 256 → 0 ≤ b3 < 256 →
  sg = UnsignedChar ∨ (b0 < 128 ∧ b1 < 128 ∧ b2 < 128) →
  camera_format_id sg
    (tag_of_buffer [char_of_int b0; char_of_int b1; char_of_int b2; char_of_int b3; NUL])
  = Some (b0 + b1 * 2 ^ 8 + b2 * 2 ^ 16 + b3 * 2 ^ 24).
Proof.
  intros H0 H1 H2 H3 Hplain.
  change (camera_format_id sg (tag_of_buffer
            [char_of_int b0; char_of_int b1; char_of_int b2; char_of_int b3; NUL]))
    with (Some (Z.lor (Z.lor (Z.lor (char_to_uint32 sg (char_of_int b0))
                   (uint32 (Z.shiftl (char_to_uint32 sg (char_of_int b1)) 8)))
                   (uint32 (Z.shiftl (char_to_uint32 sg (char_of_int b2)) 16)))
                   (uint32 (Z.shiftl (char_to_uint32 sg (char_of_int b3)) 24)))).
  f_equal.
  rewrite top_byte_shift, (char_code_of_int _ H3).
  assert (∀ b, 0 ≤ b < 256 → sg = UnsignedChar ∨ b < 128 →
               char_to_uint32 sg (char_of_int b) = b) as Hlow.
  { intros b Hb Hs. rewrite char_to_uint32_plain; [by apply char_code_of_int |].
    rewrite char_code_of_int by done. done. }
  rewrite !Hlow by (try done; destruct Hplain as [-> | (? & ? & ?)]; auto).
  unfold uint32. rewrite !Z.shiftl_mul_pow2 by lia.
  rewrite !Z.mod_small by lia.
  rewrite (lor_shifted _ _ 8) by lia.
  rewrite (lor_shifted _ _ 16) by lia.
  rewrite (lor_shifted _ _ 24) by lia.
  done.
Qed.

(** X1.  Encoding the tag that [camera_format_name] writes gives the
    code back: for every 32-bit [format_id], [camera_format_id] on the
    four characters [camera_format_name] produced returns [format_id],
    where plain [char] is unsigned, and also where it is signed as long
    as the three low bytes of the code are below 128 (the sign
    extension of the top byte is shifted out of the 32 bits). *)
Theorem format_name_then_id sg format_id :
  0 ≤ format_id < 2 ^ 32 →
  sg = UnsignedChar
  ∨ (id_byte format_id 0 < 128 ∧ id_byte format_id 1 < 128 ∧ id_byte format_id 2 < 128) →
  camera_format_id sg (tag_of_buffer (camera_format_name format_id)) = Some format_id.
Proof.
  intros Hid Hplain.
  assert (camera_format_name format_id =
            [char_of_int (id_byte format_id 0); char_of_int (id_byte format_id 1);
             char_of_int (id_byte format_id 2); char_of_int (id_byte format_id 3); NUL])
    as ->.
  { unfold camera_format_name, id_byte. by rewrite Z.shiftr_0_r. }
  rewrite pack_chars by (try apply id_byte_bounds; done).
  f_equal. by apply id_bytes_sum.
Qed.

Lemma format_name_then_id_witness :
  camera_format_id SignedChar (tag_of_buffer (camera_format_name 3510781778))
  = Some 3510781778.
Proof.
  apply format_name_then_id; [lia |].
  right. vm_compute. repeat split.
Defined.

Lemma lor_below a b n :
  0 ≤ n → 0 ≤ a < 2 ^ n → 0 ≤ b < 2 ^ n → 0 ≤ Z.lor a b < 2 ^ n.
Proof.
  intros Hn Ha Hb. split; [apply Z.lor_nonneg; lia |].
  destruct (decide (a = 0)) as [-> | Ha0]; [by rewrite Z.lor_0_l; lia |].
  destruct (decide (b = 0)) as [-> | Hb0]; [by rewrite Z.lor_0_r; lia |].
  apply Z.log2_lt_pow2.
  - assert (0 ≤ Z.lor a b) by (apply Z.lor_nonneg; lia).
    assert (Z.lor a b ≠ 0) by (rewrite Z.lor_eq_0_iff; lia). lia.
  - rewrite Z.log2_lor by lia.
    apply Z.max_lub_lt; apply Z.log2_lt_pow2; lia.
Qed.

Lemma char_to_uint32_bounds sg c : 0 ≤ char_to_uint32 sg c < 2 ^ 32.
Proof.
  pose proof (char_code_bounds c). unfold char_to_uint32.
  destruct sg; [| lia]. destruct (_ <=? _); [| lia].
  unfold uint32. apply Z.mod_pos_bound. lia.
Qed.

(** X2.  [camera_format_id] reads the first four characters of
    the name only: whatever follows them does not change the code, and
    the code fits 32 bits. *)
Theorem format_id_reads_four_characters sg s t :
  String.length s = 4%nat →
  ∃ id, camera_format_id sg (s +:+ t) = Some id
      ∧ camera_format_id sg s = Some id
      ∧ 0 ≤ id < 2 ^ 32.
Proof.
  intros Hlen.
  destruct s as [| c0 [| c1 [| c2 [| c3 [| c4 s]]]]]; try discriminate Hlen.
  eexists. split; [reflexivity |]. split; [reflexivity |].
  pose proof (char_to_uint32_bounds sg c0).
  assert (∀ x k, 0 ≤ uint32 (Z.shiftl x k) < 2 ^ 32) as Hsh.
  { intros x k. unfold uint32. apply Z.mod_pos_bound. lia. }
  repeat apply lor_below; try lia; apply Hsh.
Qed.

Lemma format_id_reads_four_characters_witness :
  ∃ id, camera_format_id SignedChar ("MJPG" +:+ "-extra") = Some id
      ∧ camera_format_id SignedChar "MJPG" = Some id
      ∧ 0 ≤ id < 2 ^ 32.
Proof. apply format_id_reads_four_characters. reflexivity. Defined.

End TagFacts.

(** ** The tags that come back *)

Section SurvivingTags.
Import FormatCodec Tags.















End SurvivingTags.

(** ** What the conversion computes *)

Section PixelFacts.
Import Convert.

(** The destination as what has been written and what is still to be
    written. *)
Lemma puts_spec xs :
  ∀ s W Z p c', p = length W →
    puts xs (Cursor s (W ++ Z) p) = Some c' →
    (length xs ≤ length Z)%nat
    ∧ c' = Cursor s (W ++ xs ++ drop (length xs) Z) (p + length xs).
Proof.
  induction xs as [| x xs IH]; intros s W Z p c' Hp Hrun; simpl in Hrun.
  - injection Hrun as <-. simpl. rewrite Nat.add_0_r, drop_0. split; [lia | done].
  - unfold put in Hrun at 1. simpl in Hrun.
    destruct (decide (p < length (W ++ Z))%nat) as [Hlt |]; [| done].
    rewrite length_app in Hlt.
    destruct Z as [| z Z]; [simpl in Hlt; lia |].
    simpl in Hrun.
    replace (<[p:=x]> (W ++ z :: Z)) with ((W ++ [x]) ++ Z) in Hrun.
    2: { subst p. rewrite <- (Nat.add_0_r (length W)), insert_app_r.
         by rewrite <- app_assoc. }
    apply IH in Hrun as [Hle ->]; [| rewrite length_app; simpl; lia].
    split; [simpl; lia |]. simpl. rewrite <- app_assoc. simpl.
    f_equal. lia.
Qed.

Lemma rgb_of_yuyv_app quad rest :
  length quad = 4%nat → rgb_of_yuyv (quad ++ rest) = rgb_of_yuyv quad ++ rgb_of_yuyv rest.
Proof.
  intros Hq. destruct quad as [| b0 [| b1 [| b2 [| b3 [| b4 q]]]]]; try discriminate Hq.
  reflexivity.
Qed.

Lemma macropixel_puts b0 b1 b2 b3 rest l p :
  macropixel (Cursor (b0 :: b1 :: b2 :: b3 :: rest) l p)
  = puts (rgb_of_yuyv [b0; b1; b2; b3]) (Cursor rest l p).
Proof.
  cbn [macropixel src rgb rgbp puts rgb_of_yuyv app].
  generalize (Z.shiftl b0 8), (b1 - 128), (Z.shiftl b2 8), (b3 - 128).
  intros y0 u y1 v.
  destruct (put (yuv2r y0 u v) (Cursor rest l p)) as [c1 |]; [| done]. cbn [mbind option_bind].
  destruct (put (yuv2g y0 u v) c1) as [c2 |]; [| done]. cbn [mbind option_bind].
  destruct (put (yuv2b y0 u v) c2) as [c3 |]; [| done]. cbn [mbind option_bind].
  destruct (put (yuv2r y1 u v) c3) as [c4 |]; [| done]. cbn [mbind option_bind].
  destruct (put (yuv2g y1 u v) c4) as [c5 |]; [| done]. cbn [mbind option_bind].
  by destruct (put (yuv2b y1 u v) c5).
Qed.

Lemma macropixel_spec s W Z p c' :
  p = length W →
  macropixel (Cursor s (W ++ Z) p) = Some c' →
  ∃ quad s', s = quad ++ s' ∧ length quad = 4%nat
    ∧ length (rgb_of_yuyv quad) = 6%nat
    ∧ (6 ≤ length Z)%nat
    ∧ c' = Cursor s' (W ++ rgb_of_yuyv quad ++ drop 6 Z) (p + 6).
Proof.
  intros Hp Hrun.
  destruct s as [| b0 [| b1 [| b2 [| b3 rest]]]]; try discriminate Hrun.
  rewrite macropixel_puts in Hrun.
  apply puts_spec in Hrun as [Hle ->]; [| done].
  exists [b0; b1; b2; b3], rest. done.
Qed.

(** A run of [n] macropixels reads [4 * n] bytes and appends their
    pixels to what has been written. *)
Lemma iterate_macropixel_spec n :
  ∀ s W Z p c', p = length W →
    iterate n macropixel (Cursor s (W ++ Z) p) = Some c' →
    ∃ chunk s', s = chunk ++ s' ∧ length chunk = (4 * n)%nat
      ∧ length (rgb_of_yuyv chunk) = (6 * n)%nat
      ∧ (∀ rest, rgb_of_yuyv (chunk ++ rest) = rgb_of_yuyv chunk ++ rgb_of_yuyv rest)
      ∧ (6 * n ≤ length Z)%nat
      ∧ c' = Cursor s' (W ++ rgb_of_yuyv chunk ++ drop (6 * n) Z) (p + 6 * n).
Proof.
  induction n as [| n IH]; intros s W Z p c' Hp Hrun.
  - injection Hrun as <-. exists [], s. simpl. rewrite Nat.add_0_r, drop_0.
    repeat (split; [done || lia |]). done.
  - cbn [iterate] in Hrun.
    destruct (macropixel (Cursor s (W ++ Z) p)) as [c1 |] eqn:Hm; [| done].
    simpl in Hrun.
    apply macropixel_spec in Hm as (quad & s1 & -> & Hq & Hq6 & Hle & ->); [| done].
    rewrite app_assoc in Hrun.
    apply IH in Hrun as (chunk & s' & -> & Hc & Hc6 & Happ & Hle' & ->).
    2: { rewrite length_app. lia. }
    rewrite length_drop in Hle'.
    exists (quad ++ chunk), s'. split; [by rewrite app_assoc |].
    split; [rewrite length_app; lia |].
    split; [rewrite rgb_of_yuyv_app, length_app by done; lia |].
    split.
    { intros rest. rewrite <- app_assoc, (rgb_of_yuyv_app quad (chunk ++ rest)) by done.
      rewrite (rgb_of_yuyv_app quad chunk), Happ by done. by rewrite <- app_assoc. }
    split; [lia |].
    rewrite rgb_of_yuyv_app by done. rewrite drop_drop.
    rewrite <- !app_assoc.
    replace (6 + 6 * n)%nat with (6 * S n)%nat by lia.
    replace (p + 6 + 6 * n)%nat with (p + 6 * S n)%nat by lia. done.
Qed.

Lemma iterate_rows_spec cols h :
  ∀ s W Z p c', p = length W →
    iterate h (iterate cols macropixel) (Cursor s (W ++ Z) p) = Some c' →
    ∃ chunk s', s = chunk ++ s' ∧ length chunk = (4 * (cols * h))%nat
      ∧ length (rgb_of_yuyv chunk) = (6 * (cols * h))%nat
      ∧ (∀ rest, rgb_of_yuyv (chunk ++ rest) = rgb_of_yuyv chunk ++ rgb_of_yuyv rest)
      ∧ (6 * (cols * h) ≤ length Z)%nat
      ∧ c' = Cursor s' (W ++ rgb_of_yuyv chunk ++ drop (6 * (cols * h)) Z)
               (p + 6 * (cols * h)).
Proof.
  induction h as [| h IH]; intros s W Z p c' Hp Hrun.
  - injection Hrun as <-. exists [], s. rewrite Nat.mul_0_r. simpl.
    rewrite Nat.add_0_r, drop_0. repeat (split; [done || lia |]). done.
  - cbn [iterate] in Hrun.
    destruct (iterate cols macropixel (Cursor s (W ++ Z) p)) as [c1 |] eqn:Hrow; [| done].
    simpl in Hrun.
    apply iterate_macropixel_spec in Hrow
      as (row & s1 & -> & Hr & Hr6 & Happ1 & Hle & ->); [| done].
    rewrite app_assoc in Hrun.
    apply IH in Hrun as (chunk & s' & -> & Hc & Hc6 & Happ & Hle' & ->).
    2: { rewrite length_app. lia. }
    rewrite length_drop in Hle'. rewrite Nat.mul_succ_r.
    exists (row ++ chunk), s'. split; [by rewrite app_assoc |].
    split; [rewrite length_app; lia |].
    split; [rewrite Happ1, length_app; lia |].
    split.
    { intros rest. rewrite <- app_assoc, (Happ1 (chunk ++ rest)), (Happ1 chunk), Happ.
      by rewrite <- app_assoc. }
    split; [lia |].
    rewrite Happ1. rewrite drop_drop.
    rewrite <- !app_assoc.
    replace (6 * cols + 6 * (cols * h))%nat with (6 * (cols * h + cols))%nat by lia.
    replace (p + 6 * cols + 6 * (cols * h))%nat with (p + 6 * (cols * h + cols))%nat by lia.
    done.
Qed.

(** What a finished conversion has done: it consumed [4 * n] source
    bytes for its [n] macropixels and left the rest of the block zero. *)
Lemma yuyv2rgb_inv yuyv width height out :
  yuyv2rgb yuyv width height = Some out →
  let n := (columns width * Z.to_nat height)%nat in
  let size := Z.to_nat (uint32 (width * height * 3)) in
  ∃ chunk rest, yuyv = chunk ++ rest ∧ length chunk = (4 * n)%nat
    ∧ (6 * n ≤ size)%nat
    ∧ out = rgb_of_yuyv chunk ++ replicate (size - 6 * n) 0.
Proof.
  unfold yuyv2rgb. intros Hrun. cbv zeta. set (n := (columns width * Z.to_nat height)%nat).
  set (size := Z.to_nat (uint32 (width * height * 3))) in *.
  destruct (iterate (Z.to_nat height) (iterate (columns width) macropixel)
              (Cursor yuyv (replicate size 0) 0)) as [c |] eqn:Hit; [| done].
  injection Hrun as <-.
  apply (iterate_rows_spec _ _ yuyv [] (replicate size 0) 0%nat c eq_refl) in Hit
    as (chunk & rest & -> & Hc & _ & _ & Hle & ->).
  rewrite length_replicate in Hle. fold n in Hc, Hle |- *.
  exists chunk, rest. repeat (split; [done |]). simpl.
  by rewrite drop_replicate.
Qed.

Lemma even_columns width :
  0 ≤ width → Z.even width = true → width = 2 * Z.of_nat (columns width).
Proof.
  intros Hw Heven. unfold columns. rewrite Z2Nat.id by (apply Z.div_pos; lia).
  apply Zeven_bool_iff, Zeven_ex_iff in Heven as [k ->].
  replace (2 * k + 1) with (1 + k * 2) by lia.
  rewrite Z.div_add by lia. change (1 / 2) with 0. lia.
Qed.

(** X3.  With an even width, enough source bytes and an image size
    that fits [uint32_t], [yuyv2rgb] returns exactly the pixels of the
    first [2 * width * height] source bytes, macropixel after
    macropixel in source order: each group Y0 U Y1 V becomes the pixel
    of (Y0, U, V) followed by the pixel of (Y1, U, V); the block has
    [width * height * 3] bytes. *)
Theorem yuyv2rgb_pixels yuyv width height :
  0 ≤ width → Z.even width = true → 0 ≤ height →
  width * height * 3 < 2 ^ 32 →
  2 * width * height ≤ Z.of_nat (length yuyv) →
  yuyv2rgb yuyv width height
  = Some (rgb_of_yuyv (take (Z.to_nat (2 * width * height)) yuyv))
  ∧ Z.of_nat (length (rgb_of_yuyv (take (Z.to_nat (2 * width * height)) yuyv)))
    = width * height * 3.
Proof.
  intros Hw Heven Hh Hsize Hsrc.
  destruct (yuyv2rgb_total yuyv width height) as (out & Hrun & Hlen); try done.
  rewrite Hrun.
  pose proof (even_columns width Hw Heven) as Hcols.
  apply yuyv2rgb_inv in Hrun as (chunk & rest & -> & Hc & Hle & ->).
  assert (0 ≤ width * height) as Hwh by (apply Z.mul_nonneg_nonneg; lia).
  unfold uint32 in *. rewrite Z.mod_small in * by lia.
  set (cols := columns width) in *. clearbody cols. subst width.
  assert (Z.to_nat (2 * (2 * Z.of_nat cols) * height) = length chunk) as ->.
  { rewrite Hc. nia. }
  rewrite take_app_length.
  rewrite length_app, length_replicate in Hlen.
  assert (Z.to_nat (2 * Z.of_nat cols * height * 3) = (6 * (cols * Z.to_nat height))%nat)
    as Hn by nia.
  rewrite Hn, Nat.sub_diag in *. simpl in *. rewrite app_nil_r.
  split; [done |]. lia.
Qed.

Lemma yuyv2rgb_pixels_witness :
  yuyv2rgb [76; 84; 76; 255; 29; 255; 29; 107] 2 2
  = Some [254; 151; 0; 254; 151; 0; 0; 0; 254; 0; 0; 254].
Proof.
  exact (proj1 (yuyv2rgb_pixels [76; 84; 76; 255; 29; 255; 29; 107] 2 2
           ltac:(lia) eq_refl ltac:(lia) ltac:(lia) ltac:(simpl; lia))).
Defined.

(** X4.  With an odd width [yuyv2rgb] has no defined result: every
    row is converted in whole macropixels, so a row of odd width stores
    one pixel more than it has, and the conversion stores past the end
    of the block it allocated (or reads past the end of its source). *)
Theorem yuyv2rgb_odd_width yuyv width height :
  0 < width → Z.odd width = true → 0 < height →
  width * height * 3 < 2 ^ 32 →
  yuyv2rgb yuyv width height = None.
Proof.
  intros Hw Hodd Hh Hsize.
  destruct (yuyv2rgb yuyv width height) as [out |] eqn:Hrun; [| done].
  apply yuyv2rgb_inv in Hrun as (chunk & rest & _ & _ & Hle & _).
  exfalso. revert Hle. unfold columns, uint32.
  assert (0 < width * height) as Hwh by (apply Z.mul_pos_pos; lia).
  rewrite Z.mod_small by lia.
  apply Zodd_bool_iff, Zodd_ex_iff in Hodd as [k ->].
  replace (2 * k + 1 + 1) with ((k + 1) * 2) by lia.
  rewrite Z.div_mul by lia. nia.
Qed.

Lemma yuyv2rgb_odd_width_witness :
  yuyv2rgb [76; 84; 76; 255; 29; 255; 29; 107] 3 1 = None.
Proof.
  apply yuyv2rgb_odd_width; [lia | reflexivity | lia | lia].
Defined.

Lemma rgb_of_gray ps :
  Forall (λ p, is_byte p.1 ∧ is_byte p.2) ps →
  rgb_of_yuyv (gray_yuyv ps) = gray_rgb ps.
Proof.
  induction 1 as [| [y0 y1] ps [H0 H1] _ IH]; [done |].
  unfold gray_yuyv, gray_rgb in *. cbn [mbind list_bind fst snd app].
  cbn [rgb_of_yuyv]. rewrite IH. simpl in H0, H1.
  rewrite !yuv2r_exact, !yuv2g_exact, !yuv2b_exact.
  change (128 - 128) with 0. rewrite !Z.mul_0_r, !Z.sub_0_r, !Z.add_0_r.
  rewrite !Z.shiftr_shiftl_l by lia. simpl Z.shiftl at 1.
  unfold is_byte in *.
  rewrite !Z.shiftl_0_r.
  unfold saturate.
  rewrite !(Z.min_r 255 y0), !(Z.min_r 255 y1), !Z.max_r by lia. done.
Qed.

(** X5.  Neutral chroma gives gray: when every U and every V byte of
    the source is 128, every pixel [yuyv2rgb] produces has its three
    channels equal to its luma byte. *)
Theorem gray_stays_gray ps width height :
  Forall (λ p, is_byte p.1 ∧ is_byte p.2) ps →
  0 ≤ width → Z.even width = true → 0 ≤ height →
  width * height * 3 < 2 ^ 32 →
  2 * Z.of_nat (length ps) = width * height →
  yuyv2rgb (gray_yuyv ps) width height = Some (gray_rgb ps).
Proof.
  intros Hbytes Hw Heven Hh Hsize Hlen.
  assert (length (gray_yuyv ps) = (4 * length ps)%nat) as Hsrc.
  { clear. induction ps as [| p ps IH]; [done |].
    unfold gray_yuyv in *. cbn [mbind list_bind]. rewrite length_app, IH. simpl. lia. }
  destruct (yuyv2rgb_total (gray_yuyv ps) width height) as (out & Hrun & Hout);
    try done; [rewrite Hsrc; lia |].
  rewrite Hrun.
  pose proof (even_columns width Hw Heven) as Hcols.
  apply yuyv2rgb_inv in Hrun as (chunk & rest & Hsplit & Hc & Hle & ->).
  assert (0 ≤ width * height) as Hwh by (apply Z.mul_nonneg_nonneg; lia).
  unfold uint32 in *. rewrite Z.mod_small in * by lia.
  set (cols := columns width) in *. clearbody cols. subst width.
  assert (Z.to_nat (2 * Z.of_nat cols * height * 3) = (6 * (cols * Z.to_nat height))%nat)
    as Hn by nia.
  rewrite Hn, Nat.sub_diag in *. simpl. rewrite app_nil_r.
  assert (rest = []) as ->.
  { apply nil_length_inv. apply (f_equal length) in Hsplit.
    rewrite length_app, Hsrc, Hc in Hsplit. nia. }
  rewrite app_nil_r in Hsplit. subst chunk. f_equal. by apply rgb_of_gray.
Qed.

Lemma gray_stays_gray_witness :
  yuyv2rgb [0; 128; 90; 128; 200; 128; 255; 128] 2 2
  = Some [0; 0; 0; 90; 90; 90; 200; 200; 200; 255; 255; 255].
Proof.
  apply (gray_stays_gray [(0, 90); (200, 255)] 2 2);
    [repeat constructor; unfold is_byte; simpl; lia
    | lia | reflexivity | lia | lia | reflexivity].
Defined.

(** X6.  For an image of [2 ^ 32] bytes or more [yuyv2rgb] has no
    defined result: the size of the block is computed in [uint32_t] and
    wraps around, so the block is shorter than the image the loops
    store into it. *)
Theorem yuyv2rgb_large_image yuyv width height :
  0 ≤ width < 2 ^ 32 → Z.even width = true → 0 ≤ height < 2 ^ 32 →
  2 ^ 32 ≤ width * height * 3 →
  yuyv2rgb yuyv width height = None.
Proof.
  intros Hw Heven Hh Hsize.
  destruct (yuyv2rgb yuyv width height) as [out |] eqn:Hrun; [| done].
  apply yuyv2rgb_inv in Hrun as (chunk & rest & _ & _ & Hle & _).
  exfalso. revert Hle.
  pose proof (even_columns width (proj1 Hw) Heven) as Hcols.
  unfold uint32.
  pose proof (Z.mod_pos_bound (width * height * 3) (2 ^ 32) eq_refl) as Hmod.
  set (cols := columns width) in *. clearbody cols. subst width. nia.
Qed.

Lemma yuyv2rgb_large_image_witness : yuyv2rgb [] 65536 65536 = None.
Proof.
  apply yuyv2rgb_large_image; [lia | reflexivity | lia | lia].
Defined.

End PixelFacts.

(** ** Every byte of the image is a clamped channel *)

Section ClampFacts.
Import Convert Clamp.

Lemma saturate_byte_range x : 0 ≤ saturate x ≤ 255.
Proof. unfold saturate. lia. Qed.

Lemma channels_clamped y u v :
  yuv2r (Z.shiftl y 8) (u - 128) (v - 128) = clamped_r y u v
  ∧ yuv2g (Z.shiftl y 8) (u - 128) (v - 128) = clamped_g y u v
  ∧ yuv2b (Z.shiftl y 8) (u - 128) (v - 128) = clamped_b y u v.
Proof.
  rewrite yuv2r_exact, yuv2g_exact, yuv2b_exact.
  unfold clamped_r, clamped_g, clamped_b.
  rewrite !Z.shiftr_div_pow2, Z.shiftl_mul_pow2 by lia.
  change (2 ^ 8) with 256.
  repeat split; f_equal; f_equal; lia.
Qed.

Lemma rgb_of_yuyv_clamped n :
  ∀ yuyv, (length yuyv ≤ n)%nat → rgb_of_yuyv yuyv = clamped_pixels yuyv.
Proof.
  induction n as [| n IH]; intros yuyv Hlen.
  - destruct yuyv; [done | simpl in Hlen; lia].
  - destruct yuyv as [| y0 [| u [| y1 [| v rest]]]]; try done.
    cbn [rgb_of_yuyv clamped_pixels].
    destruct (channels_clamped y0 u v) as (-> & -> & ->).
    destruct (channels_clamped y1 u v) as (-> & -> & ->).
    rewrite IH; [done |]. simpl in Hlen. lia.
Qed.

Lemma clamped_pixels_bytes yuyv : Forall is_byte (clamped_pixels yuyv).
Proof.
  assert (∀ n yuyv, (length yuyv ≤ n)%nat → Forall is_byte (clamped_pixels yuyv)) as Hall.
  { induction n as [| n IH]; intros l Hlen.
    - destruct l; [constructor | simpl in Hlen; lia].
    - destruct l as [| y0 [| u [| y1 [| v rest]]]]; try (by constructor).
      cbn [clamped_pixels app].
      repeat (constructor; [apply saturate_byte_range |]).
      apply IH. simpl in Hlen. lia. }
  by apply (Hall (length yuyv)).
Qed.

Lemma clamped_pixels_length n :
  ∀ yuyv, length yuyv = (4 * n)%nat → length (clamped_pixels yuyv) = (6 * n)%nat.
Proof.
  induction n as [| n IH]; intros yuyv Hlen.
  - by destruct yuyv.
  - destruct yuyv as [| y0 [| u [| y1 [| v rest]]]]; simpl in Hlen; try lia.
    cbn [clamped_pixels app length]. rewrite (IH rest) by lia. lia.
Qed.

Lemma even_width width :
  0 ≤ width → Z.even width = true → width = 2 * Z.of_nat (columns width).
Proof.
  intros Hw Heven. unfold columns. rewrite Z2Nat.id by (apply Z.div_pos; lia).
  apply Zeven_bool_iff, Zeven_ex_iff in Heven as [k ->].
  replace (2 * k + 1) with (1 + k * 2) by lia.
  rewrite Z.div_add by lia. change (1 / 2) with 0. lia.
Qed.

(** C7.  Every byte of an image [yuyv2rgb] produces is a clamped channel
    value.  Whenever the conversion has a result, the image holds, for
    each macropixel Y0 U Y1 V read, in the order of the source, the two
    pixels whose channels are the fixed-point values of the conversion
    clamped to [0,255] (a value above 255 gives 255, a value below 0
    gives 0, nothing wraps), followed by what is left of the zeroed
    block, and every byte lies in [0,255].  With an even width, enough
    source bytes and a size that fits [uint32_t], the conversion has a
    result, and the image is exactly the clamped pixels of the first
    [2 * width * height] source bytes. *)
Theorem rgb_channels_clamped yuyv width height :
  (∀ out, yuyv2rgb yuyv width height = Some out →
     ∃ chunk rest pad,
       yuyv = chunk ++ rest
       ∧ length chunk = (4 * (columns width * Z.to_nat height))%nat
       ∧ out = clamped_pixels chunk ++ replicate pad 0
       ∧ Forall is_byte out)
  ∧ (0 ≤ width → Z.even width = true → 0 ≤ height →
     width * height * 3 < 2 ^ 32 →
     2 * width * height ≤ Z.of_nat (length yuyv) →
     ∃ out, yuyv2rgb yuyv width height = Some out
       ∧ out = clamped_pixels (take (Z.to_nat (2 * width * height)) yuyv)
       ∧ Z.of_nat (length out) = width * height * 3
       ∧ Forall is_byte out).
Proof.
  assert (∀ out, yuyv2rgb yuyv width height = Some out →
     ∃ chunk rest pad,
       yuyv = chunk ++ rest
       ∧ length chunk = (4 * (columns width * Z.to_nat height))%nat
       ∧ out = clamped_pixels chunk ++ replicate pad 0
       ∧ Forall is_byte out) as Hany.
  { intros out Hrun.
    apply yuyv2rgb_inv in Hrun as (chunk & rest & Hsplit & Hlen & _ & ->).
    rewrite (rgb_of_yuyv_clamped (length chunk) chunk) by done.
    eexists chunk, rest, _. split; [done |]. split; [done |]. split; [done |].
    apply Forall_app. split; [apply clamped_pixels_bytes |].
    apply Forall_replicate. unfold is_byte. lia. }
  split; [exact Hany |].
  intros Hw Heven Hh Hsize Hsrc.
  destruct (yuyv2rgb_total yuyv width height Hw Heven Hh Hsize Hsrc) as (out & Hrun & Hout).
  destruct (Hany out Hrun) as (chunk & rest & pad & -> & Hlen & -> & Hbytes).
  exists (clamped_pixels chunk ++ replicate pad 0).
  split; [done |]. split; [| done].
  pose proof (even_width width Hw Heven) as Hcols.
  set (cols := columns width) in *.
  assert (Z.of_nat (cols * Z.to_nat height) * 2 = width * height) as Hprod.
  { rewrite Nat2Z.inj_mul, Z2Nat.id by lia. clearbody cols. subst width. lia. }
  rewrite length_app, length_replicate, (clamped_pixels_length _ _ Hlen) in Hout.
  assert (pad = 0%nat) as -> by lia.
  replace (Z.to_nat (2 * width * height)) with (length chunk) by lia.
  rewrite take_app_length. simpl. by rewrite app_nil_r.
Qed.

Lemma rgb_channels_clamped_witness :
  yuyv2rgb [255; 255; 255; 255; 0; 0; 0; 128] 4 1
  = Some [255; 207; 255; 255; 207; 255; 0; 91; 0; 0; 91; 0]
  ∧ clamped_pixels [255; 255; 255; 255; 0; 0; 0; 128]
    = [255; 207; 255; 255; 207; 255; 0; 91; 0; 0; 91; 0].
Proof.
  destruct (rgb_channels_clamped [255; 255; 255; 255; 0; 0; 0; 128] 4 1) as [_ Htotal].
  destruct Htotal as (out & Hrun & Hout & _); [lia | reflexivity | lia | lia | simpl; lia |].
  assert (clamped_pixels (take (Z.to_nat (2 * 4 * 1)) [255; 255; 255; 255; 0; 0; 0; 128])
          = [255; 207; 255; 255; 207; 255; 0; 91; 0; 0; 91; 0])
    as Hval by (vm_compute; reflexivity).
  rewrite Hval in Hout. rewrite Hout in Hrun.
  split; [exact Hrun | vm_compute; reflexivity].
Defined.

End ClampFacts.

(** ** Interrupted device calls *)

Section RetryFacts.
Context (K : kernel).

Lemma xioctl_loop_settles {A} fd (request : ioctl_request A) n :
  ∀ m arg w, (n ≤ m)%nat →
    (∀ i, (i < n)%nat → interrupted K fd request (w_clock w + i)) →
    settled K fd request (w_clock w + n) →
    ∃ a w', xioctl_loop K (S m) fd request arg w
            = Some (k_result K (w_clock w + n) _ (sys_ioctl fd request a), w')
          ∧ w_clock w' = (w_clock w + S n)%nat
          ∧ w_errno w' = k_errno K (w_clock w + n)
          ∧ length (w_trace w') = (length (w_trace w) + S n)%nat
          ∧ w_camera w' = w_camera w ∧ w_mapped w' = w_mapped w.
Proof.
  induction n as [| n IH]; intros m arg w Hle Hint Hset; rewrite xioctl_loop_S;
    unfold syscall_do; cbn [w_errno w_clock fst snd].
  - rewrite Nat.add_0_r in Hset. destruct (Hset arg) as [Hr | He].
    + rewrite (bool_decide_eq_true_2 _ Hr). cbn [orb].
      exists arg. eexists. split; [by rewrite Nat.add_0_r |]. simpl.
      rewrite length_app, Nat.add_0_r. simpl. repeat split; lia.
    + rewrite (bool_decide_eq_true_2 _ He), orb_true_r.
      exists arg. eexists. split; [by rewrite Nat.add_0_r |]. simpl.
      rewrite length_app, Nat.add_0_r. simpl. repeat split; lia.
  - destruct m as [| m]; [lia |].
    destruct (Hint 0%nat ltac:(lia) arg) as [Hr He]. rewrite Nat.add_0_r in Hr, He.
    rewrite bool_decide_eq_false_2 by (intros Hne; by apply Hne).
    rewrite bool_decide_eq_false_2 by (intros Hne; by apply Hne).
    cbn [orb].
    match goal with
    | |- context [xioctl_loop K (S m) fd request ?a ?w1] =>
        destruct (IH m a w1) as (a' & w' & Hrun & Hclock & Herr & Hlen & Hcam & Hmap)
    end.
    + lia.
    + intros i Hi. cbn [w_clock]. replace (S (w_clock w) + i)%nat with (w_clock w + S i)%nat by lia.
      apply Hint. lia.
    + cbn [w_clock]. by replace (S (w_clock w) + n)%nat with (w_clock w + S n)%nat by lia.
    + cbn [w_clock w_trace w_camera w_mapped] in *.
      replace (S (w_clock w) + n)%nat with (w_clock w + S n)%nat in * by lia.
      exists a', w'. split; [exact Hrun |].
      rewrite length_app in Hlen. simpl in Hlen. repeat split; try done; lia.
Qed.

(** X7.  [xioctl] repeats the call exactly while it is interrupted:
    when the first [n] attempts, [n < 100], return -1 with [errno] at
    [EINTR] and the next attempt does not, [xioctl] returns the result
    of that attempt and leaves the [errno] of that attempt, after
    [n + 1] calls. *)
Theorem xioctl_retries_until_settled {A} fd (request : ioctl_request A) arg w n :
  (n < 100)%nat →
  (∀ i, (i < n)%nat → interrupted K fd request (w_clock w + i)) →
  settled K fd request (w_clock w + n) →
  ∃ a w', xioctl K fd request arg w
          = Some (k_result K (w_clock w + n) _ (sys_ioctl fd request a), w')
        ∧ w_clock w' = (w_clock w + S n)%nat
        ∧ w_errno w' = k_errno K (w_clock w + n)
        ∧ length (w_trace w') = (length (w_trace w) + S n)%nat.
Proof.
  intros Hn Hint Hset.
  destruct (xioctl_loop_settles fd request n 99 arg w) as (a & w' & H & ? & ? & ? & _);
    [lia | done | done |].
  by exists a, w'.
Qed.

Lemma xioctl_loop_exhausted {A} fd (request : ioctl_request A) n :
  ∀ arg w,
    (∀ i, (i < n)%nat → interrupted K fd request (w_clock w + i)) →
    ∃ a w', xioctl_loop K n fd request arg w = Some ((-1, a), w')
          ∧ w_clock w' = (w_clock w + n)%nat
          ∧ (0 < n → w_errno w' = EINTR)%nat
          ∧ length (w_trace w') = (length (w_trace w) + n)%nat.
Proof.
  induction n as [| n IH]; intros arg w Hint.
  - exists arg, w. split; [done |]. repeat split; lia.
  - rewrite xioctl_loop_S. unfold syscall_do. cbn [w_errno w_clock fst snd].
    destruct (Hint 0%nat ltac:(lia) arg) as [Hr He]. rewrite Nat.add_0_r in Hr, He.
    rewrite bool_decide_eq_false_2 by (intros Hne; by apply Hne).
    rewrite bool_decide_eq_false_2 by (intros Hne; by apply Hne).
    cbn [orb].
    match goal with
    | |- context [xioctl_loop K n fd request ?a ?w1] =>
        destruct (IH a w1) as (a' & w' & Hrun & Hclock & Herr & Hlen)
    end.
    { intros i Hi. cbn [w_clock]. replace (S (w_clock w) + i)%nat with (w_clock w + S i)%nat by lia.
      apply Hint. lia. }
    cbn [w_clock w_trace w_errno] in *.
    exists a', w'. split; [exact Hrun |].
    rewrite length_app in Hlen. simpl in Hlen.
    split; [lia |]. split; [| lia].
    intros _. destruct n as [| n]; [| apply Herr; lia].
    injection Hrun as _ <-. exact He.
Qed.

(** X8.  [xioctl] gives up after a hundred attempts: when a hundred
    attempts in a row are interrupted it returns -1 with [errno] at
    [EINTR], after exactly a hundred calls. *)
Theorem xioctl_gives_up {A} fd (request : ioctl_request A) arg w :
  (∀ i, (i < 100)%nat → interrupted K fd request (w_clock w + i)) →
  ∃ a w', xioctl K fd request arg w = Some ((-1, a), w')
        ∧ w_clock w' = (w_clock w + 100)%nat
        ∧ w_errno w' = EINTR
        ∧ length (w_trace w') = (length (w_trace w) + 100)%nat.
Proof.
  intros Hint.
  destruct (xioctl_loop_exhausted fd request 100 arg w Hint) as (a & w' & H & ? & He & ?).
  exists a, w'. repeat split; try done. apply He. lia.
Qed.

End RetryFacts.

Lemma busy_interrupted n {A} fd (request : ioctl_request A) t :
  (t < n)%nat → interrupted (busy n) fd request t.
Proof.
  intros Ht arg. unfold busy. simpl.
  destruct (Nat.ltb_spec t n); [done | lia].
Qed.

Lemma busy_settled n {A} fd (request : ioctl_request A) t :
  (n ≤ t)%nat → settled (busy n) fd request t.
Proof.
  intros Ht arg. right. unfold busy. simpl.
  destruct (Nat.ltb_spec t n); [lia | done].
Qed.

Lemma xioctl_retries_until_settled_witness :
  ∃ a w', xioctl (busy 3) 3 VIDIOC_STREAMON V4L2_BUF_TYPE_VIDEO_CAPTURE initial_world
          = Some ((0, a), w')
        ∧ w_clock w' = 4%nat ∧ w_errno w' = 0 ∧ length (w_trace w') = 4%nat.
Proof.
  destruct (xioctl_retries_until_settled (busy 3) 3 VIDIOC_STREAMON
              V4L2_BUF_TYPE_VIDEO_CAPTURE initial_world 3)
    as (a & w' & Hrun & Hclock & Herr & Hlen).
  - lia.
  - intros i Hi. apply busy_interrupted. simpl. lia.
  - apply busy_settled. simpl. lia.
  - exists a, w'. split; [exact Hrun |].
    split; [exact Hclock |]. split; [exact Herr | exact Hlen].
Defined.

Lemma xioctl_gives_up_witness :
  ∃ a w', xioctl (busy 100) 3 VIDIOC_STREAMON V4L2_BUF_TYPE_VIDEO_CAPTURE initial_world
          = Some ((-1, a), w')
        ∧ w_clock w' = 100%nat ∧ w_errno w' = EINTR ∧ length (w_trace w') = 100%nat.
Proof.
  destruct (xioctl_gives_up (busy 100) 3 VIDIOC_STREAMON
              V4L2_BUF_TYPE_VIDEO_CAPTURE initial_world)
    as (a & w' & Hrun & Hclock & Herr & Hlen).
  - intros i Hi. apply busy_interrupted. simpl. lia.
  - exists a, w'. split; [exact Hrun |].
    split; [exact Hclock |]. split; [exact Herr | exact Hlen].
Defined.

(** ** The requests a call makes *)

Section Requests.
Context (K : kernel).

Lemma xioctl_events_requests {A} fd (request : ioctl_request A) arg evs r :
  xioctl_events fd request arg evs r →
  omap request_of evs = replicate (length evs) (request_name request) ∧ (0 < length evs)%nat.
Proof.
  induction 1 as [| arg arg' evs r _ [IH _]]; [split; [done | simpl; lia] |].
  split; [| simpl; lia].
  change (request_name request :: omap request_of evs
          = request_name request :: replicate (length evs) (request_name request)).
  by rewrite IH.
Qed.

Lemma xioctl_events_names {A} fd (request : ioctl_request A) arg evs r n :
  xioctl_events fd request arg evs r →
  n ∈ omap request_of evs ↔ n = request_name request.
Proof.
  intros Hev. apply xioctl_events_requests in Hev as [-> Hlen]. split.
  - intros Hin. by apply elem_of_replicate in Hin as [-> _].
  - intros ->. apply elem_of_replicate. split; [done | lia].
Qed.

(** X9.  [camera_control_set] makes exactly one device call, a
    [VIDIOC_S_CTRL] with the id and the value it was given, and does
    not repeat it, not even when it was interrupted: it returns true
    exactly when that call did not return -1; when it did, the callback
    is called once, with severity ERROR and the name of the request,
    and sees the [errno] of that call.  The camera object is as
    before. *)
Theorem control_set_single_call id value w c :
  w_camera w = Some c →
  let call := sys_ioctl (fd c) VIDIOC_S_CTRL {| ctrl_id := id; ctrl_value := value |} in
  let rc := k_result K (w_clock w) _ call in
  ∃ w', camera_control_set K id value w = Some (bool_decide (rc.1 ≠ -1), w')
      ∧ w_camera w' = Some c
      ∧ w_clock w' = S (w_clock w)
      ∧ w_trace w' = w_trace w ++ EvSys call rc ::
                       (if decide (rc.1 = -1)
                        then [log_event CAMERA_ERROR "VIDIOC_S_CTRL" c] else [])
      ∧ w_diag w' = if decide (rc.1 = -1)
                    then log (context c) CAMERA_ERROR "VIDIOC_S_CTRL" (pointer (context c))
                           (k_errno K (w_clock w)) (w_diag w)
                    else w_diag w.
Proof.
  intros Hc call rc. unfold camera_control_set. mstep (get_Some fd w c Hc).
  unfold ioctl.
  destruct (syscall_do_spec K call w) as (r & w1 & Hs & Hr & Hso).
  fold call. mstep Hs. fold rc in Hr. subst r.
  assert (w_camera w1 = Some c) as Hc1 by (destruct Hso; congruence).
  assert (w_clock w1 = S (w_clock w) ∧ w_errno w1 = k_errno K (w_clock w)) as [Hclock Herr].
  { unfold syscall_do in Hs. by injection Hs as <-. }
  destruct Hso as [_ _ Hdiag Htrace].
  destruct (decide (rc.1 = -1)) as [Hfail | Hok].
  - rewrite (error_Some _ _ _ Hc1). rewrite bool_decide_eq_false_2 by (intros Hne; by apply Hne).
    eexists. split; [reflexivity |]. unfold logged, log_event. simpl.
    rewrite Htrace, Hdiag, Herr, <- app_assoc. done.
  - rewrite (bool_decide_eq_true_2 _ Hok). eexists. split; [reflexivity |]. done.
Qed.

End Requests.

Lemma control_set_single_call_witness :
  ∃ w', camera_control_set (busy 2) 9963776 7 opened = Some (false, w')
      ∧ w_clock w' = 2%nat
      ∧ omap request_of (w_trace w') = ["VIDIOC_S_CTRL"%string]
      ∧ w_diag w' = [LineError "VIDIOC_S_CTRL" EINTR].
Proof.
  destruct (control_set_single_call (busy 2) 9963776 7 opened (initial_camera 3) eq_refl)
    as (w' & Hrun & _ & Hclock & Htrace & Hdiag).
  exists w'. split; [exact Hrun |]. split; [exact Hclock |].
  split; [by rewrite Htrace | exact Hdiag].
Defined.

(** ** Negotiation *)

Section Negotiation.
Context (K : kernel).

(** A checked device call leaves the camera object and the mappings
    alone, and every [ioctl] it makes carries its request. *)
Lemma checked_xioctl {A} (request : ioctl_request A) arg w c :
  w_camera w = Some c →
  ∃ r w1 b w' evs,
    xioctl K (fd c) request arg w = Some (r, w1)
    ∧ (rf ← xioctl K (fd c) request arg;
       if decide (rf.1 = -1) then error (request_name request) else mret true) w
      = Some (b, w')
    ∧ b = bool_decide (r.1 ≠ -1)
    ∧ w_camera w' = Some c
    ∧ w_mapped w' = w_mapped w
    ∧ w_trace w' = w_trace w ++ evs
    ∧ (∀ n, n ∈ omap request_of evs ↔ n = request_name request).
Proof.
  intros Hc.
  destruct (xioctl_spec K (fd c) request arg w) as (r & w1 & evs & Hx & Hso & Hev & _).
  assert (w_camera w1 = Some c) as Hc1 by (destruct Hso; congruence).
  destruct Hso as [_ Hm1 _ Ht1].
  exists r, w1. destruct (decide (r.1 = -1)) as [Hfail | Hok].
  - exists false, (logged CAMERA_ERROR (request_name request) c w1),
      (evs ++ [EvLog CAMERA_ERROR (request_name request) (pointer (context c))]).
    split; [done |]. split.
    { mstep Hx. rewrite decide_True by done. by apply error_Some. }
    split; [by rewrite bool_decide_eq_false_2 by (intros Hne; by apply Hne) |].
    split; [done |]. split; [done |].
    split; [simpl; by rewrite Ht1, <- app_assoc |].
    intros n. rewrite omap_app. simpl. rewrite app_nil_r.
    by eapply xioctl_events_names.
  - exists true, w1, evs. split; [done |]. split.
    { mstep Hx. by rewrite decide_False by done. }
    split; [by rewrite bool_decide_eq_true_2 |].
    split; [done |]. split; [done |]. split; [done |].
    intros n. by eapply xioctl_events_names.
Qed.

(** X10.  [camera_set_config] sends only what the configuration
    gives: it requests [VIDIOC_S_FMT] exactly when width and height are
    both positive, it requests [VIDIOC_S_PARM] only when numerator and
    denominator are both non-zero, and on success whenever they are;
    it makes no other request, and it leaves the camera object and the
    mappings as they were: the requested size is not stored. *)
Theorem set_config_sends_only_what_is_given config w c :
  w_camera w = Some c →
  ∃ b w' evs,
    camera_set_config K config w = Some (b, w')
    ∧ w_camera w' = Some c
    ∧ w_mapped w' = w_mapped w
    ∧ w_trace w' = w_trace w ++ evs
    ∧ Forall (λ n, n = "VIDIOC_S_FMT"%string ∨ n = "VIDIOC_S_PARM"%string)
        (omap request_of evs)
    ∧ ("VIDIOC_S_FMT"%string ∈ omap request_of evs
       ↔ 0 < cfg_width config ∧ 0 < cfg_height config)
    ∧ ("VIDIOC_S_PARM"%string ∈ omap request_of evs
       → numerator (cfg_interval config) ≠ 0 ∧ denominator (cfg_interval config) ≠ 0)
    ∧ (b = true → numerator (cfg_interval config) ≠ 0
       → denominator (cfg_interval config) ≠ 0
       → "VIDIOC_S_PARM"%string ∈ omap request_of evs).
Proof.
  intros Hc. unfold camera_set_config.
  set (fmt := {| fmt_type := V4L2_BUF_TYPE_VIDEO_CAPTURE;
                 fmt_pix := {| pix_width := cfg_width config;
                               pix_height := cfg_height config;
                               pix_pixelformat :=
                                 logical_or (cfg_format config) V4L2_PIX_FMT_YUYV;
                               pix_field := V4L2_FIELD_NONE |} |}).
  set (parm := {| parm_type := V4L2_BUF_TYPE_VIDEO_CAPTURE;
                  timeperframe_numerator := numerator (cfg_interval config);
                  timeperframe_denominator := denominator (cfg_interval config) |}).
  assert (∃ b1 w1 evs1,
    (if bool_decide (0 < cfg_width config) && bool_decide (0 < cfg_height config)
     then
       fd ← get fd;
       rf ← xioctl K fd VIDIOC_S_FMT fmt;
       if decide (rf.1 = -1) then error "VIDIOC_S_FMT" else mret true
     else mret true) w = Some (b1, w1)
    ∧ w_camera w1 = Some c ∧ w_mapped w1 = w_mapped w
    ∧ w_trace w1 = w_trace w ++ evs1
    ∧ (∀ n, n ∈ omap request_of evs1
            ↔ n = "VIDIOC_S_FMT"%string ∧ 0 < cfg_width config ∧ 0 < cfg_height config))
    as (b1 & w1 & evs1 & Hrun1 & Hc1 & Hm1 & Ht1 & Hn1).
  { destruct (bool_decide (0 < cfg_width config)) eqn:Hw;
      [destruct (bool_decide (0 < cfg_height config)) eqn:Hh |]; cbn [andb].
    - apply bool_decide_eq_true in Hw, Hh.
      mstep (get_Some fd w c Hc).
      destruct (checked_xioctl VIDIOC_S_FMT fmt w c Hc)
        as (r & w0 & b & w1 & evs & _ & Hrun & _ & Hc1 & Hm1 & Ht1 & Hn).
      exists b, w1, evs. split; [exact Hrun |]. repeat (split; [done |]).
      intros n. rewrite Hn. simpl. tauto.
    - apply bool_decide_eq_false in Hh.
      exists true, w, []. split; [done |]. split; [done |]. split; [done |].
      split; [by rewrite app_nil_r |]. intros n. simpl. rewrite elem_of_nil. tauto.
    - apply bool_decide_eq_false in Hw.
      exists true, w, []. split; [done |]. split; [done |]. split; [done |].
      split; [by rewrite app_nil_r |]. intros n. simpl. rewrite elem_of_nil. tauto. }
  mstep Hrun1. clear Hrun1.
  assert (∀ evs2,
    (∀ n, n ∈ omap request_of evs2
          → n = "VIDIOC_S_PARM"%string
            ∧ numerator (cfg_interval config) ≠ 0
            ∧ denominator (cfg_interval config) ≠ 0) →
    Forall (λ n, n = "VIDIOC_S_FMT"%string ∨ n = "VIDIOC_S_PARM"%string)
        (omap request_of (evs1 ++ evs2))
    ∧ ("VIDIOC_S_FMT"%string ∈ omap request_of (evs1 ++ evs2)
       ↔ 0 < cfg_width config ∧ 0 < cfg_height config)
    ∧ ("VIDIOC_S_PARM"%string ∈ omap request_of (evs1 ++ evs2)
       → numerator (cfg_interval config) ≠ 0 ∧ denominator (cfg_interval config) ≠ 0))
    as Hnames.
  { intros evs2 Hn2. rewrite omap_app. split; [| split].
    - apply Forall_forall. intros n [Hin | Hin]%elem_of_app.
      + left. by apply Hn1 in Hin as [-> _].
      + right. by apply Hn2 in Hin as [-> _].
    - rewrite elem_of_app, Hn1. split; [| tauto].
      intros [(_ & ?) | Hin]; [done |]. by apply Hn2 in Hin as [? _].
    - rewrite elem_of_app, Hn1.
      intros [(? & _) | Hin]; [discriminate |]. by apply Hn2 in Hin as [_ ?]. }
  destruct b1; cbn [negb].
  2: { exists false, w1, evs1. split; [done |]. split; [done |]. split; [done |].
       split; [done |].
       destruct (Hnames []) as (HF & Hfmt & Hparm).
       { intros n. simpl. by rewrite elem_of_nil. }
       rewrite app_nil_r in HF, Hfmt, Hparm. repeat (split; [done |]). done. }
  destruct (bool_decide (numerator (cfg_interval config) ≠ 0)) eqn:Hnum;
    [destruct (bool_decide (denominator (cfg_interval config) ≠ 0)) eqn:Hden |];
    cbn [andb].
  - apply bool_decide_eq_true in Hnum, Hden.
    mstep (get_Some fd w1 c Hc1).
    destruct (checked_xioctl VIDIOC_S_PARM parm w1 c Hc1)
      as (r & w0 & b & w2 & evs2 & _ & Hrun & _ & Hc2 & Hm2 & Ht2 & Hn2).
    exists b, w2, (evs1 ++ evs2). split; [exact Hrun |]. split; [done |].
    split; [congruence |]. split; [rewrite Ht2, Ht1; by rewrite app_assoc |].
    destruct (Hnames evs2) as (HF & Hfmt & Hparm).
    { intros n Hin. by apply Hn2 in Hin as ->. }
    repeat (split; [done |]). intros _ _ _.
    rewrite omap_app, elem_of_app. right. by apply Hn2.
  - apply bool_decide_eq_false in Hden.
    exists true, w1, evs1. split; [done |]. split; [done |]. split; [done |].
    split; [done |].
    destruct (Hnames []) as (HF & Hfmt & Hparm).
    { intros n. simpl. by rewrite elem_of_nil. }
    rewrite app_nil_r in HF, Hfmt, Hparm. repeat (split; [done |]). done.
  - apply bool_decide_eq_false in Hnum.
    exists true, w1, evs1. split; [done |]. split; [done |]. split; [done |].
    split; [done |].
    destruct (Hnames []) as (HF & Hfmt & Hparm).
    { intros n. simpl. by rewrite elem_of_nil. }
    rewrite app_nil_r in HF, Hfmt, Hparm. repeat (split; [done |]). done.
Qed.

(** X11.  [camera_init] returns true exactly when [VIDIOC_QUERYCAP]
    did not fail and reported both the capture and the streaming
    capability, whatever the two crop requests return; on success the
    camera is marked initialized and nothing else is changed, on
    failure the camera object is as before. *)
Theorem init_needs_both_capabilities w c :
  w_camera w = Some c →
  ∃ rc w1 b w',
    xioctl K (fd c) VIDIOC_QUERYCAP {| capabilities := 0 |} w = Some (rc, w1)
    ∧ camera_init K w = Some (b, w')
    ∧ (b = true ↔ rc.1 ≠ -1
                  ∧ Z.land (capabilities rc.2) V4L2_CAP_VIDEO_CAPTURE ≠ 0
                  ∧ Z.land (capabilities rc.2) V4L2_CAP_STREAMING ≠ 0)
    ∧ w_camera w' = Some (if b then set_initialized true c else c)
    ∧ w_mapped w' = w_mapped w.
Proof.
  intros Hc. unfold camera_init. mstep (get_Some fd w c Hc).
  destruct (xioctl_spec K (fd c) VIDIOC_QUERYCAP {| capabilities := 0 |} w)
    as (rc & w1 & evs & Hx & [Hc1 Hm1 _ _] & _).
  rewrite Hc in Hc1. exists rc, w1. mstep Hx.
  destruct (decide (rc.1 = -1)) as [Hfail | Hok].
  { rewrite (error_Some _ _ _ Hc1). eexists false, _. split; [done |].
    split; [reflexivity |]. split; [| done]. split; [done |]. by intros [? _]. }
  destruct (decide (Z.land _ V4L2_CAP_VIDEO_CAPTURE = 0)) as [Hcap | Hcap].
  { rewrite (failure_Some _ _ _ Hc1). eexists false, _. split; [done |].
    split; [reflexivity |]. split; [| done]. split; [done |]. by intros (_ & ? & _). }
  destruct (decide (Z.land _ V4L2_CAP_STREAMING = 0)) as [Hstr | Hstr].
  { rewrite (failure_Some _ _ _ Hc1). eexists false, _. split; [done |].
    split; [reflexivity |]. split; [| done]. split; [done |]. by intros (_ & _ & ?). }
  xioctl_step K w1 r2 w2 evs2 Hx2 Hso2 Hev2.
  destruct Hso2 as [Hc2 Hm2 _ _]. rewrite Hc1 in Hc2.
  assert (∃ w3, w_camera w3 = Some c ∧ w_mapped w3 = w_mapped w ∧
    (if decide (r2.1 = 0)
     then xioctl K (fd c) VIDIOC_S_CROP
            {| crop_type := V4L2_BUF_TYPE_VIDEO_CAPTURE; crop_c := defrect r2.2 |};;
          mret ()
     else mret ()) w2 = Some ((), w3)) as (w3 & Hc3 & Hm3 & Hrun3).
  { destruct (decide (r2.1 = 0)).
    - destruct (xioctl_spec K (fd c) VIDIOC_S_CROP
                  {| crop_type := V4L2_BUF_TYPE_VIDEO_CAPTURE; crop_c := defrect r2.2 |} w2)
        as (r3 & w3 & evs3 & Hx3 & [Hc3 Hm3 _ _] & _).
      exists w3. split; [congruence |]. split; [congruence |]. by mstep Hx3.
    - exists w2. split; [done |]. split; [congruence | done]. }
  mstep Hrun3. mstep (set_Some (set_initialized true) w3 c Hc3).
  eexists true, _. split; [done |]. split; [reflexivity |].
  split; [done |]. split; [done |]. simpl. done.
Qed.

(** X12.  When buffers are allocated and the stream-off request
    fails, [camera_config] gives up at once: it returns false, the
    callback has been called with severity ERROR and the name of the
    request, and nothing else has happened after the request: the
    camera object, with its buffers, and the mappings are what they
    were. *)
Theorem config_gives_up_when_stop_fails config w c rt w1 :
  w_camera w = Some c → 0 < buffer_count c →
  xioctl K (fd c) VIDIOC_STREAMOFF V4L2_BUF_TYPE_VIDEO_CAPTURE w = Some (rt, w1) →
  rt.1 = -1 →
  ∃ w', camera_config K config w = Some (false, w')
      ∧ w_camera w' = Some c
      ∧ w_mapped w' = w_mapped w
      ∧ w_trace w' = w_trace w1 ++ [log_event CAMERA_ERROR "VIDIOC_STREAMOFF" c].
Proof.
  intros Hc Hcount Hx Hfail.
  assert (w_camera w1 = Some c ∧ w_mapped w1 = w_mapped w) as [Hc1 Hm1].
  { destruct (xioctl_spec K (fd c) VIDIOC_STREAMOFF V4L2_BUF_TYPE_VIDEO_CAPTURE w)
      as (r & w0 & evs & Hx' & [Hc0 Hm0 _ _] & _).
    rewrite Hx in Hx'. injection Hx' as <- <-. split; congruence. }
  assert (camera_stop K w = Some (false, logged CAMERA_ERROR "VIDIOC_STREAMOFF" c w1))
    as Hstop.
  { unfold camera_stop. mstep (get_Some fd w c Hc). mstep Hx.
    rewrite decide_True by done. by apply error_Some. }
  exists (logged CAMERA_ERROR "VIDIOC_STREAMOFF" c w1). split; [| done].
  unfold camera_config. mstep (get_Some buffer_count w c Hc).
  rewrite bool_decide_eq_true_2 by done.
  rewrite bind_assoc. mstep Hstop. cbn [negb]. reflexivity.
Qed.

End Negotiation.

Lemma config_gives_up_when_stop_fails_witness :
  ∃ w', camera_config Stub.broken qvga configured = Some (false, w')
      ∧ w_camera w' = w_camera configured
      ∧ w_mapped w' = w_mapped configured.
Proof.
  destruct (config_gives_up_when_stop_fails Stub.broken qvga configured
              (camera_of configured) (-1, V4L2_BUF_TYPE_VIDEO_CAPTURE)
              (run (xioctl Stub.broken 3 VIDIOC_STREAMOFF V4L2_BUF_TYPE_VIDEO_CAPTURE)
                 configured))
    as (w' & Hrun & Hc & Hm & _).
  - vm_compute. reflexivity.
  - vm_compute. reflexivity.
  - vm_compute. reflexivity.
  - reflexivity.
  - exists w'. split; [exact Hrun |]. split; [| exact Hm].
    rewrite Hc. vm_compute. reflexivity.
Defined.

Lemma init_needs_both_capabilities_witness :
  ∃ w', camera_init Stub.device opened = Some (true, w')
      ∧ w_camera w' = Some (set_initialized true (initial_camera 3)).
Proof.
  destruct (init_needs_both_capabilities Stub.device opened (initial_camera 3) eq_refl)
    as (rc & w1 & b & w' & Hx & Hrun & Hiff & Hc & _).
  assert (b = true) as ->.
  { apply Hiff. vm_compute in Hx. injection Hx as <- _. by vm_compute. }
  by exists w'.
Defined.

Lemma set_config_sends_only_what_is_given_witness :
  ∃ b w' evs,
    camera_set_config Stub.device vga opened = Some (b, w')
    ∧ w_camera w' = Some (initial_camera 3)
    ∧ w_trace w' = w_trace opened ++ evs
    ∧ ¬ "VIDIOC_S_PARM"%string ∈ omap request_of evs.
Proof.
  destruct (set_config_sends_only_what_is_given Stub.device vga opened
              (initial_camera 3) eq_refl)
    as (b & w' & evs & Hrun & Hc & _ & Ht & _ & _ & Hparm & _).
  exists b, w', evs. repeat (split; [done |]).
  intros Hin. by destruct (Hparm Hin) as [Hnum _].
Defined.

(** ** Mappings over the life of a camera *)

Section Lifecycle.
Context (K : kernel).

Lemma quiet_balanced others c w b w' :
  w_camera w = Some c → quiet_run c w b w' → balanced others w → balanced others w'.
Proof.
  intros Hc (evs & c' & _ & Hm & Hc' & Hs & _) (c0 & Hc0 & Hwf & Hbal).
  rewrite Hc in Hc0. injection Hc0 as <-.
  exists c'. split; [done |]. split; [by eapply wf_same_buffers |].
  destruct Hs as (_ & -> & _). by rewrite Hm.
Qed.

Lemma no_buffers c : wf_camera c → buffer_count c ≤ 0 → default [] (buffers c) = [].
Proof. unfold wf_camera. intros Hwf Hn. apply length_zero_iff_nil. lia. Qed.

Lemma prepare_balanced w c :
  w_camera w = Some c → wf_camera c → default [] (buffers c) = [] →
  ∃ b w', camera_buffer_prepare K w = Some (b, w') ∧ balanced (w_mapped w) w'.
Proof.
  intros Hc Hwf Hnone.
  destruct (camera_buffer_prepare_spec K w c Hc)
    as (b & w' & evs & c' & Hrun & _ & Hc' & _ & _ & _ & Hres).
  exists b, w'. split; [done |]. exists c'. split; [done |].
  destruct b.
  - destruct Hres as [(bs & Hbs & Hwf' & _) ->]. split; [done |]. multiset_solver.
  - destruct Hres as [[_ Hback] ->].
    destruct Hback as [(-> & _) | (_ & Hb & Hn)].
    + split; [done |]. rewrite Hnone. unfold regions. simpl. multiset_solver.
    + split; [unfold wf_camera; by rewrite Hb, Hn |].
      rewrite Hb. unfold regions. simpl. multiset_solver.
Qed.

Lemma teardown_balanced others w c :
  w_camera w = Some c → balanced others w →
  ∃ b w' c',
    (if bool_decide (0 < buffer_count c)
     then ok ← camera_stop K;
          if negb ok then mret false
          else camera_buffer_finish;; mret true
     else mret true) w = Some (b, w')
    ∧ balanced others w'
    ∧ w_camera w' = Some c'
    ∧ (b = true → default [] (buffers c') = [] ∧ w_mapped w' = others).
Proof.
  intros Hc Hbal.
  destruct (Hbal) as (c0 & Hc0 & Hwf & Hm). rewrite Hc in Hc0. injection Hc0 as <-.
  destruct (bool_decide (0 < buffer_count c)) eqn:Hcount.
  - destruct (camera_stop_quiet K w c Hc) as (b & w0 & Hstop & Hq).
    mstep Hstop.
    pose proof (quiet_balanced _ _ _ _ _ Hc Hq Hbal) as Hbal0.
    destruct Hq as (_ & c0 & _ & Hm0 & Hc0 & Hs0 & _).
    pose proof (wf_same_buffers _ _ Hs0 Hwf) as Hwf0.
    destruct Hs0 as (_ & Hbs0 & _).
    destruct b; cbn [negb].
    + destruct (camera_buffer_finish_spec w0 c0 Hc0 Hwf0) as (w1 & Hfin & Hc1 & Hm1 & _).
      mstep Hfin. eexists true, w1, _. split; [reflexivity |].
      rewrite Hbs0, Hm0, Hm in Hm1.
      split; [| split; [exact Hc1 | by intros _]].
      eexists. split; [exact Hc1 |]. split; [done |].
      simpl. rewrite Hm1. unfold regions. simpl. multiset_solver.
    + eexists false, _, c0. split; [reflexivity |]. split; [done |].
      split; [done | done].
  - apply bool_decide_eq_false in Hcount.
    exists true, w, c. split; [reflexivity |]. split; [done |]. split; [done |].
    intros _.
    rewrite (no_buffers c Hwf) in * by lia. split; [done |].
    rewrite <- Hm. unfold regions. simpl. multiset_solver.
Qed.

Lemma config_balanced others config w :
  balanced others w →
  ∃ b w', camera_config K config w = Some (b, w') ∧ balanced others w'.
Proof.
  intros Hbal. destruct (Hbal) as (c & Hc & Hwf & Hm).
  unfold camera_config. mstep (get_Some buffer_count w c Hc).
  destruct (teardown_balanced others w c Hc Hbal)
    as (b1 & w1 & c1 & Hrun1 & Hbal1 & Hc1 & Hok1).
  mstep Hrun1. destruct b1; cbn [negb].
  2: { by exists false, w1. }
  destruct (Hok1 eq_refl) as [Hnone1 Hm1]. clear Hok1.
  mstep (get_Some initialized w1 c1 Hc1).
  destruct (negotiate_spec K config (camera_buffer_prepare K) w1 c1 Hc1)
    as [(w2 & Hrun2 & Hq2) | (w2 & Hrun2 & Hq2)]; rewrite Hrun2; clear Hrun2.
  { exists false, w2. split; [done |]. by eapply quiet_balanced. }
  pose proof (quiet_balanced _ _ _ _ _ Hc1 Hq2 Hbal1) as (c2 & Hc2 & Hwf2 & Hm2).
  destruct Hq2 as (_ & c2' & _ & Hmap2 & Hc2' & (_ & Hbs2 & _) & _).
  rewrite Hc2 in Hc2'. injection Hc2' as <-.
  assert (default [] (buffers c2) = []) as Hnone2 by (by rewrite Hbs2).
  destruct (prepare_balanced w2 c2 Hc2 Hwf2 Hnone2) as (b3 & w3 & Hrun3 & Hbal3).
  exists b3, w3. split; [done |]. by rewrite Hmap2, Hm1 in Hbal3.
Qed.

Lemma load_balanced others w :
  balanced others w →
  ∃ b w', camera_load K w = Some (b, w') ∧ balanced others w'.
Proof.
  intros Hbal. destruct (Hbal) as (c & Hc & Hwf & Hm).
  unfold camera_load. mstep (get_Some initialized w c Hc).
  assert (∃ b1 w1, (if negb (initialized c) then camera_init K else mret true) w
                   = Some (b1, w1) ∧ quiet_run c w b1 w1) as (b1 & w1 & Hrun1 & Hq1).
  { destruct (initialized c); cbn [negb].
    - eexists _, _. split; [reflexivity |]. by apply quiet_refl.
    - by apply camera_init_quiet. }
  mstep Hrun1.
  pose proof (quiet_balanced _ _ _ _ _ Hc Hq1 Hbal) as Hbal1.
  destruct b1; cbn [negb].
  2: { by exists false, w1. }
  destruct (Hbal1) as (c1 & Hc1 & Hwf1 & Hm1).
  mstep (get_Some buffer_count w1 c1 Hc1).
  destruct (bool_decide (buffer_count c1 = 0)) eqn:Hcount.
  2: { by exists true, w1. }
  apply bool_decide_eq_true in Hcount.
  destruct (camera_load_settings_quiet K w1 c1 Hc1) as (b2 & w2 & Hrun2 & Hq2).
  mstep Hrun2.
  pose proof (quiet_balanced _ _ _ _ _ Hc1 Hq2 Hbal1) as Hbal2.
  destruct b2; cbn [negb].
  2: { by exists false, w2. }
  destruct (Hbal2) as (c2 & Hc2 & Hwf2 & Hm2).
  destruct Hq2 as (_ & c2' & _ & Hmap2 & Hc2' & (_ & Hbs2 & _) & _).
  rewrite Hc2 in Hc2'. injection Hc2' as <-.
  assert (default [] (buffers c2) = []) as Hnone2.
  { rewrite Hbs2. apply no_buffers; [done | lia]. }
  destruct (prepare_balanced w2 c2 Hc2 Hwf2 Hnone2) as (b3 & w3 & Hrun3 & Hbal3).
  mstep Hrun3. exists b3, w3. split; [by destruct b3 |].
  rewrite Hnone2 in Hm2. rewrite <- Hm2.
  replace (w_mapped w2 ∖ regions []) with (w_mapped w2); [done |].
  unfold regions. simpl. multiset_solver.
Qed.

Lemma start_balanced others w :
  balanced others w →
  ∃ b w', camera_start K w = Some (b, w') ∧ balanced others w'.
Proof.
  intros Hbal. unfold camera_start.
  destruct (load_balanced others w Hbal) as (b1 & w1 & Hrun1 & Hbal1).
  mstep Hrun1. destruct b1; cbn [negb].
  2: { by exists false, w1. }
  destruct (Hbal1) as (c1 & Hc1 & Hwf1 & Hm1).
  mstep (get_Some buffer_count w1 c1 Hc1).
  destruct (start_loop_quiet K (Z.to_nat (buffer_count c1)) 0 w1 c1 Hc1)
    as (b2 & w2 & Hrun2 & Hq2).
  mstep Hrun2.
  pose proof (quiet_balanced _ _ _ _ _ Hc1 Hq2 Hbal1) as Hbal2.
  destruct b2; cbn [negb].
  2: { by exists false, w2. }
  destruct (Hbal2) as (c2 & Hc2 & Hwf2 & Hm2).
  mstep (get_Some fd w2 c2 Hc2).
  xioctl_step K w2 r w3 evs Hx Hso Hev.
  assert (w_camera w3 = Some c2) as Hc3 by (destruct Hso; congruence).
  destruct (decide (r.1 = -1)).
  - rewrite (error_Some _ _ _ Hc3). eexists _, _. split; [reflexivity |].
    eapply quiet_balanced; [exact Hc2 | | exact Hbal2].
    by eapply (quiet_error c2 w2 w3 _ VIDIOC_STREAMON).
  - eexists _, _. split; [reflexivity |].
    eapply quiet_balanced; [exact Hc2 | | exact Hbal2]. by eapply quiet_xioctl.
Qed.

End Lifecycle.

(** ** Frames *)

Section CaptureFacts.
Context (K : kernel).

(** The copy into the snapshot is defined exactly when the frame lies
    in a mapped buffer and fits the snapshot block. *)
Lemma memcpy_head_spec index n w u w' :
  memcpy_head K index n w = Some (u, w') ↔
  ∃ c bs dst b,
    w_camera w = Some c ∧ buffers c = Some bs ∧ h_start (head c) = Some dst
    ∧ bs !! Z.to_nat index = Some b
    ∧ (0 ≤ index ∧ 0 ≤ n ≤ Z.of_nat (length dst) ∧ n ≤ b_length b
       ∧ (b_start b, b_length b) ∈ w_mapped w)
    ∧ w' = with_camera
             (Some (set_head_start
                      (Some (device_bytes K (w_clock w) (b_start b) n
                             ++ drop (Z.to_nat n) dst)) c)) w.
Proof.
  unfold memcpy_head. split.
  - intros H.
    destruct (w_camera w) as [c |] eqn:Hc; [| done].
    destruct (buffers c) as [bs |] eqn:Hbs; [| done].
    destruct (h_start (head c)) as [dst |] eqn:Hdst; [| done].
    destruct (bs !! Z.to_nat index) as [b |] eqn:Hb; [| done].
    destruct (decide _) as [Hok |]; [| done].
    injection H as _ <-. by exists c, bs, dst, b.
  - intros (c & bs & dst & b & -> & -> & -> & -> & Hok & ->).
    rewrite decide_True by done. by destruct u.
Qed.

Lemma camera_capture_frame w c rb w1 ok w' :
  w_camera w = Some c →
  xioctl K (fd c) VIDIOC_DQBUF (capture_buffer 0) w = Some (rb, w1) →
  rb.1 ≠ -1 →
  camera_capture K w = Some (ok, w') →
  ∃ bs dst b rq,
    buffers c = Some bs ∧ h_start (head c) = Some dst
    ∧ bs !! Z.to_nat (buf_index rb.2) = Some b
    ∧ (0 ≤ buf_index rb.2 ∧ 0 ≤ buf_bytesused rb.2 ≤ Z.of_nat (length dst)
       ∧ buf_bytesused rb.2 ≤ b_length b
       ∧ (b_start b, b_length b) ∈ w_mapped w)
    ∧ xioctl K (fd c) VIDIOC_QBUF rb.2
        (with_camera
           (Some (with_frame K (w_clock w1) (b_start b) (buf_bytesused rb.2) dst c)) w1)
      = Some (rq, w')
    ∧ ok = bool_decide (rq.1 ≠ -1).
Proof.
  intros Hc Hx Hok. unfold camera_capture. mstep (get_Some fd w c Hc). mstep Hx.
  rewrite decide_False by done. intros Hrun.
  assert (w_camera w1 = w_camera w ∧ w_mapped w1 = w_mapped w) as [Hc1 Hm1].
  { destruct (xioctl_spec K (fd c) VIDIOC_DQBUF (capture_buffer 0) w)
      as (r & w0 & evs & Hx' & Hso & _).
    rewrite Hx in Hx'. injection Hx' as <- <-. by destruct Hso. }
  rewrite Hc in Hc1.
  destruct (memcpy_head K (buf_index rb.2) (buf_bytesused rb.2) w1)
    as [[[] w2] |] eqn:Hcpy.
  2: { unfold mbind, M_bind in Hrun. by rewrite Hcpy in Hrun. }
  rewrite (bind_Some _ _ _ _ _ Hcpy) in Hrun. cbn beta in Hrun.
  apply memcpy_head_spec in Hcpy
    as (c0 & bs & dst & b & Hc0 & Hbs & Hdst & Hb & Hguard & ->).
  rewrite Hc1 in Hc0. injection Hc0 as <-.
  match type of Hrun with
  | (set ?f ≫= _) ?w0 = _ =>
      rewrite (bind_Some _ _ _ _ _ (set_Some f w0 _ eq_refl)) in Hrun; cbn beta in Hrun
  end.
  match type of Hrun with
  | context [xioctl K ?f ?q ?a ≫= _] =>
      destruct (xioctl_spec K f q a
                  (with_camera
                     (Some (with_frame K (w_clock w1) (b_start b) (buf_bytesused rb.2) dst c))
                     w1))
        as (rq & w4 & evs4 & Hx4 & _)
  end.
  change (with_camera _ (with_camera _ w1))
    with (with_camera
            (Some (with_frame K (w_clock w1) (b_start b) (buf_bytesused rb.2) dst c)) w1)
    in Hrun.
  rewrite (bind_Some _ _ _ _ _ Hx4) in Hrun. cbn beta in Hrun.
  exists bs, dst, b, rq. rewrite Hm1 in Hguard.
  repeat (split; [done |]).
  destruct (decide (rq.1 = -1)) as [Hq | Hq]; injection Hrun as <- <-.
  - split; [done |]. by rewrite bool_decide_eq_false_2 by (intros Hne; by apply Hne).
  - split; [done |]. by rewrite bool_decide_eq_true_2.
Qed.

(** X13.  When the dequeue succeeds and names a mapped buffer, with
    a byte count that fits the buffer and the snapshot block,
    [camera_capture] copies that many bytes of device memory from the
    start of the buffer to the front of the snapshot block, leaves the
    rest of the block, records the byte count as the length of the
    snapshot, hands the descriptor it dequeued back with [VIDIOC_QBUF]
    and returns true exactly when this last call did not return -1;
    the snapshot is updated also when it did.  The buffers and the
    mappings are as before. *)
Theorem capture_delivers_frame w c rb w1 bs b dst :
  w_camera w = Some c →
  xioctl K (fd c) VIDIOC_DQBUF (capture_buffer 0) w = Some (rb, w1) →
  rb.1 ≠ -1 →
  buffers c = Some bs → h_start (head c) = Some dst →
  0 ≤ buf_index rb.2 → bs !! Z.to_nat (buf_index rb.2) = Some b →
  0 ≤ buf_bytesused rb.2 ≤ Z.of_nat (length dst) →
  buf_bytesused rb.2 ≤ b_length b →
  (b_start b, b_length b) ∈ w_mapped w →
  let c' := with_frame K (w_clock w1) (b_start b) (buf_bytesused rb.2) dst c in
  ∃ rq w',
    xioctl K (fd c) VIDIOC_QBUF rb.2 (with_camera (Some c') w1) = Some (rq, w')
    ∧ camera_capture K w = Some (bool_decide (rq.1 ≠ -1), w')
    ∧ w_camera w' = Some c'
    ∧ w_mapped w' = w_mapped w.
Proof.
  intros Hc Hx Hok Hbs Hdst Hi Hb Hn Hlen Hmap c'.
  assert (w_camera w1 = w_camera w ∧ w_mapped w1 = w_mapped w) as [Hc1 Hm1].
  { destruct (xioctl_spec K (fd c) VIDIOC_DQBUF (capture_buffer 0) w)
      as (r & w0 & evs & Hx' & Hso & _).
    rewrite Hx in Hx'. injection Hx' as <- <-. by destruct Hso. }
  rewrite Hc in Hc1.
  destruct (xioctl_spec K (fd c) VIDIOC_QBUF rb.2 (with_camera (Some c') w1))
    as (rq & w' & evs & Hq & [Hc' Hm' _ _] & _).
  exists rq, w'. split; [exact Hq |].
  split; [| split; [exact Hc' | by rewrite Hm']].
  unfold camera_capture. mstep (get_Some fd w c Hc). mstep Hx.
  rewrite decide_False by done.
  assert (memcpy_head K (buf_index rb.2) (buf_bytesused rb.2) w1
          = Some ((), with_camera
                        (Some (set_head_start
                                 (Some (device_bytes K (w_clock w1) (b_start b)
                                          (buf_bytesused rb.2)
                                        ++ drop (Z.to_nat (buf_bytesused rb.2)) dst)) c))
                        w1)) as Hcpy.
  { apply memcpy_head_spec. exists c, bs, dst, b. rewrite Hm1. done. }
  mstep Hcpy.
  match goal with
  | |- (set ?f ≫= _) ?w0 = _ =>
      rewrite (bind_Some _ _ _ _ _ (set_Some f w0 _ eq_refl)); cbn beta
  end.
  change (with_camera _ (with_camera _ w1)) with (with_camera (Some c') w1).
  mstep Hq.
  destruct (decide (rq.1 = -1)) as [Hf | Hf].
  - by rewrite bool_decide_eq_false_2 by (intros Hne; by apply Hne).
  - by rewrite bool_decide_eq_true_2.
Qed.

(** A capture that runs leaves the buffers and the mappings alone. *)
Lemma capture_balanced others w ok w' :
  balanced others w → camera_capture K w = Some (ok, w') → balanced others w'.
Proof.
  intros (c & Hc & Hwf & Hm) Hrun.
  destruct (xioctl_spec K (fd c) VIDIOC_DQBUF (capture_buffer 0) w)
    as (rb & w1 & evs & Hx & [Hc1 Hm1 _ _] & _).
  destruct (decide (rb.1 = -1)) as [Hfail | Hok].
  - rewrite (camera_capture_dequeue_failed K w c rb w1 Hc Hx Hfail) in Hrun.
    injection Hrun as _ <-. exists c. by rewrite Hc1, Hm1.
  - destruct (camera_capture_frame w c rb w1 ok w' Hc Hx Hok Hrun)
      as (bs & dst & b & rq & _ & _ & _ & _ & Hq & _).
    match type of Hq with
    | xioctl K ?f ?q ?a ?w0 = _ =>
        destruct (xioctl_spec K f q a w0) as (rq' & w2 & evs' & Hq' & [Hc2 Hm2 _ _] & _)
    end.
    rewrite Hq in Hq'. injection Hq' as <- <-.
    simpl in Hm2, Hc2. eexists. split; [exact Hc2 |]. split; [exact Hwf |].
    simpl. by rewrite Hm2, Hm1.
Qed.

(** X14.  [camera_capture] checks nothing of what the driver hands
    out: when the dequeue succeeds with an index beyond the buffer
    array, with a byte count larger than the buffer or than the
    snapshot block, or for a buffer that is not mapped, the copy reads
    or stores outside what the camera owns and the call has no defined
    result. *)
Theorem capture_trusts_the_driver w c rb w1 bs dst :
  w_camera w = Some c →
  xioctl K (fd c) VIDIOC_DQBUF (capture_buffer 0) w = Some (rb, w1) →
  rb.1 ≠ -1 →
  buffers c = Some bs → h_start (head c) = Some dst →
  Z.of_nat (length bs) ≤ buf_index rb.2
  ∨ Z.of_nat (length dst) < buf_bytesused rb.2
  ∨ (∃ b, bs !! Z.to_nat (buf_index rb.2) = Some b
        ∧ (b_length b < buf_bytesused rb.2 ∨ (b_start b, b_length b) ∉ w_mapped w)) →
  camera_capture K w = None.
Proof.
  intros Hc Hx Hok Hbs Hdst Hbad.
  destruct (camera_capture K w) as [[ok w'] |] eqn:Hrun; [| done]. exfalso.
  destruct (camera_capture_frame w c rb w1 ok w' Hc Hx Hok Hrun)
    as (bs' & dst' & b & rq & Hbs' & Hdst' & Hb & (Hi & Hn & Hlen & Hmap) & _).
  rewrite Hbs in Hbs'. injection Hbs' as <-.
  rewrite Hdst in Hdst'. injection Hdst' as <-.
  destruct Hbad as [Hout | [Hbig | (b' & Hb' & Hbad)]].
  - apply lookup_lt_Some in Hb. lia.
  - lia.
  - rewrite Hb in Hb'. injection Hb' as <-. destruct Hbad as [Hshort | Hun]; [lia | done].
Qed.

End CaptureFacts.

Lemma capture_delivers_frame_witness :
  ∃ w', camera_capture streaming configured = Some (true, w')
      ∧ head (camera_of w')
        = {| h_start := Some [0; 1; 2; 3; 4; 0; 0; 0]; h_length := 5 |}
      ∧ w_mapped w' = w_mapped configured.
Proof.
  destruct (capture_delivers_frame streaming configured (camera_of configured)
              (0, {| buf_index := 1; buf_type := V4L2_BUF_TYPE_VIDEO_CAPTURE;
                     buf_bytesused := 5; buf_memory := V4L2_MEMORY_MMAP;
                     buf_m_offset := 1; buf_length := 8 |})
              (run (xioctl streaming 3 VIDIOC_DQBUF (capture_buffer 0)) configured)
              [{| b_start := 4096; b_length := 8 |}; {| b_start := 8192; b_length := 8 |}]
              {| b_start := 8192; b_length := 8 |}
              (replicate 8 0))
    as (rq & w' & Hq & Hrun & Hc' & Hm').
  - vm_compute. reflexivity.
  - vm_compute. reflexivity.
  - done.
  - vm_compute. reflexivity.
  - vm_compute. reflexivity.
  - simpl. lia.
  - reflexivity.
  - simpl. lia.
  - simpl. lia.
  - apply elem_of_multiplicity.
    assert (multiplicity (8192, 8) (w_mapped configured) = 1%nat) as Hmul
        by (vm_compute; reflexivity).
    change (0 < multiplicity (8192%Z, 8%Z) (w_mapped configured))%nat.
    rewrite Hmul. lia.
  - assert (rq.1 = 0) as Hrq.
    { vm_compute in Hq. injection Hq as <- _. reflexivity. }
    rewrite Hrq in Hrun.
    exists w'. split; [exact Hrun |]. split; [| exact Hm'].
    unfold camera_of. rewrite Hc'. vm_compute. reflexivity.
Defined.

Lemma capture_trusts_the_driver_witness :
  camera_capture stray configured = None.
Proof.
  apply (capture_trusts_the_driver stray configured (camera_of configured)
           (0, {| buf_index := 2; buf_type := V4L2_BUF_TYPE_VIDEO_CAPTURE;
                  buf_bytesused := 5; buf_memory := V4L2_MEMORY_MMAP;
                  buf_m_offset := 2; buf_length := 8 |})
           (run (xioctl stray 3 VIDIOC_DQBUF (capture_buffer 0)) configured)
           [{| b_start := 4096; b_length := 8 |}; {| b_start := 8192; b_length := 8 |}]
           (replicate 8 0)).
  - vm_compute. reflexivity.
  - vm_compute. reflexivity.
  - done.
  - vm_compute. reflexivity.
  - vm_compute. reflexivity.
  - left. simpl. lia.
Defined.

(** ** Sessions *)

Section Sessions.
Context (K : kernel).

Lemma close_balanced others w :
  balanced others w →
  ∃ w', camera_close K w = Some (true, w') ∧ w_camera w' = None ∧ w_mapped w' = others.
Proof.
  intros (c & Hc & Hwf & Hm). unfold camera_close.
  mstep (get_Some buffer_count w c Hc).
  assert (∃ w1 c1,
            (if bool_decide (0 < buffer_count c)
             then camera_stop K;; camera_buffer_finish
             else mret ()) w = Some ((), w1)
            ∧ w_camera w1 = Some c1 ∧ w_mapped w1 = others)
    as (w1 & c1 & Hrun1 & Hc1 & Hm1).
  { destruct (bool_decide (0 < buffer_count c)) eqn:Hcount.
    - destruct (camera_stop_quiet K w c Hc) as (b & w0 & Hstop & Hq).
      mstep Hstop.
      destruct Hq as (_ & c0 & _ & Hm0 & Hc0 & Hs0 & _).
      pose proof (wf_same_buffers _ _ Hs0 Hwf) as Hwf0.
      destruct Hs0 as (_ & Hbs0 & _).
      destruct (camera_buffer_finish_spec w0 c0 Hc0 Hwf0) as (w1 & Hfin & Hc1 & Hm1 & _).
      exists w1. eexists. split; [exact Hfin |]. split; [exact Hc1 |].
      by rewrite Hm1, Hbs0, Hm0.
    - apply bool_decide_eq_false in Hcount.
      exists w, c. split; [reflexivity |]. split; [done |].
      rewrite (no_buffers c Hwf) in Hm by lia. rewrite <- Hm.
      unfold regions. simpl. multiset_solver. }
  mstep Hrun1. mstep (get_Some fd w1 c1 Hc1).
  destruct (close_loop_spec K (fd c1) 9 w1) as (w2 & evs & Hrun2 & [_ Hm2 _ _] & _).
  mstep Hrun2. eexists. split; [reflexivity |]. split; [done |].
  simpl. by rewrite Hm2.
Qed.

Lemma perform_balanced others a w :
  balanced others w →
  (captures a = false → ∃ ok w', perform K a w = Some (ok, w'))
  ∧ (∀ ok w', perform K a w = Some (ok, w') → balanced others w').
Proof.
  intros Hbal. destruct a as [config | | |]; simpl.
  - destruct (config_balanced K others config w Hbal) as (b & w1 & Hrun & Hbal1).
    split; [by eauto |]. intros ok w'. rewrite Hrun. by intros [= _ <-].
  - destruct (start_balanced K others w Hbal) as (b & w1 & Hrun & Hbal1).
    split; [by eauto |]. intros ok w'. rewrite Hrun. by intros [= _ <-].
  - destruct (Hbal) as (c & Hc & _).
    destruct (camera_stop_quiet K w c Hc) as (b & w1 & Hrun & Hq).
    split; [by eauto |]. intros ok w'. rewrite Hrun. intros [= _ <-].
    by eapply quiet_balanced.
  - split; [done |]. intros ok w'. by apply capture_balanced.
Qed.

Lemma session_balanced others actions :
  ∀ w, balanced others w →
    (forallb (λ a, negb (captures a)) actions = true →
     ∃ w', session K actions w = Some ((), w'))
    ∧ (∀ w', session K actions w = Some ((), w') → balanced others w').
Proof.
  induction actions as [| a rest IH]; intros w Hbal.
  - split; [by eauto |]. by intros w' [= <-].
  - destruct (perform_balanced others a w Hbal) as [Htotal Hkeep]. split.
    + cbn [forallb]. intros [Ha Hrest]%andb_true_iff.
      destruct Htotal as (ok & w1 & Hrun); [by destruct (captures a) |].
      cbn [session]. mstep Hrun.
      by apply (IH w1 (Hkeep _ _ Hrun)).
    + intros w'. cbn [session]. unfold mbind at 1, M_bind.
      destruct (perform K a w) as [[ok w1] |] eqn:Hrun; [| done].
      by apply (IH w1 (Hkeep _ _ eq_refl)).
Qed.

(** X15.  Whatever a caller does with a camera whose buffer array
    agrees with its buffer count, as it does after [camera_open], any
    sequence of [camera_config], [camera_start], [camera_stop] and
    [camera_capture], whatever these return, [camera_close] afterwards
    returns true, the camera object is gone, and what is mapped is what
    was mapped at the start apart from the buffers of the camera: no
    mapping made for the camera survives it.  A sequence without
    [camera_capture] always runs to its end. *)
Theorem session_then_close_unmaps_all actions w c :
  w_camera w = Some c → wf_camera c →
  (forallb (λ a, negb (captures a)) actions = true →
   ∃ w1, session K actions w = Some ((), w1))
  ∧ (∀ w1, session K actions w = Some ((), w1) →
     ∃ w2, camera_close K w1 = Some (true, w2)
         ∧ w_camera w2 = None
         ∧ w_mapped w2 = w_mapped w ∖ regions (default [] (buffers c))).
Proof.
  intros Hc Hwf.
  assert (balanced (w_mapped w ∖ regions (default [] (buffers c))) w) as Hbal
    by (by exists c).
  destruct (session_balanced _ actions w Hbal) as [Htotal Hkeep].
  split; [done |]. intros w1 Hrun. by apply close_balanced, Hkeep.
Qed.

End Sessions.

Lemma session_then_close_unmaps_all_witness :
  ∃ w1 w2,
    session streaming [Configure vga; Start; Capture; Configure qvga; Stop] opened
    = Some ((), w1)
    ∧ camera_close streaming w1 = Some (true, w2)
    ∧ w_camera w2 = None
    ∧ w_mapped w2 = ∅.
Proof.
  destruct (session_then_close_unmaps_all streaming
              [Configure vga; Start; Capture; Configure qvga; Stop]
              opened (initial_camera 3) eq_refl eq_refl) as [_ Hclose].
  eexists.
  assert (session streaming [Configure vga; Start; Capture; Configure qvga; Stop] opened
          = Some ((), run (session streaming
                             [Configure vga; Start; Capture; Configure qvga; Stop]) opened))
    as Hrun by (vm_compute; reflexivity).
  destruct (Hclose _ Hrun) as (w2 & Hc2 & Hn2 & Hm2).
  exists w2. split; [exact Hrun |]. split; [exact Hc2 |]. split; [exact Hn2 |].
  rewrite Hm2. change (w_mapped opened) with (∅ : gmultiset (Z * Z)).
  change (regions _) with (∅ : gmultiset (Z * Z)). multiset_solver.
Defined.

(** ** Starting the stream *)

Section Streaming.
Context (K : kernel).
Hypothesis Hquiet : uninterrupted K.

Lemma xioctl_uninterrupted {A} fd (request : ioctl_request A) arg w :
  xioctl K fd request arg w = syscall_do K (sys_ioctl fd request arg) w.
Proof.
  unfold xioctl. rewrite xioctl_loop_S. unfold syscall_do. cbn [w_errno].
  rewrite (bool_decide_eq_true_2 _ (Hquiet (w_clock w))). by rewrite orb_true_r.
Qed.

Lemma start_loop_order n :
  ∀ i w c, w_camera w = Some c →
    ∃ b w' evs k,
      start_loop K n i w = Some (b, w')
      ∧ w_trace w' = w_trace w ++ evs
      ∧ w_camera w' = Some c
      ∧ w_mapped w' = w_mapped w
      ∧ (k ≤ n)%nat
      ∧ omap enqueued evs = Z.of_nat <$> seq i k
      ∧ Forall (λ name, name = "VIDIOC_QBUF"%string) (omap request_of evs)
      ∧ (b = true → k = n ∧ omap log_entry evs = []).
Proof.
  induction n as [| n IH]; intros i w c Hc.
  - exists true, w, [], 0%nat. split; [done |]. split; [by rewrite app_nil_r |].
    repeat (split; [done |]). done.
  - cbn [start_loop]. mstep (get_Some fd w c Hc).
    rewrite (bind_Some _ _ _ _ _ (xioctl_uninterrupted _ _ _ _)). cbn beta.
    set (call := sys_ioctl (fd c) VIDIOC_QBUF (capture_buffer (Z.of_nat i))).
    set (r := k_result K (w_clock w) _ call).
    set (w1 := {| w_camera := w_camera w; w_errno := k_errno K (w_clock w);
                  w_clock := S (w_clock w); w_mapped := w_mapped w;
                  w_trace := w_trace w ++ [EvSys call r]; w_diag := w_diag w |}).
    assert (w_camera w1 = Some c) as Hc1 by done.
    destruct (decide (r.1 = -1)).
    + rewrite (error_Some _ _ _ Hc1).
      eexists false, _, [EvSys call r; EvLog CAMERA_ERROR "VIDIOC_QBUF" _], 1%nat.
      split; [reflexivity |]. split; [simpl; by rewrite <- app_assoc |].
      split; [done |]. split; [done |]. split; [lia |]. split; [done |].
      split; [by repeat constructor | done].
    + destruct (IH (S i) w1 c Hc1) as (b & w2 & evs & k & Hrun & Ht & Hc2 & Hm2 & Hk & Hq & HF & Hb).
      exists b, w2, (EvSys call r :: evs), (S k).
      split; [done |]. split; [rewrite Ht; simpl; by rewrite <- app_assoc |].
      split; [done |]. split; [done |]. split; [lia |].
      split.
      { change (omap enqueued (EvSys call r :: evs)) with (Z.of_nat i :: omap enqueued evs).
        by rewrite Hq. }
      split; [by constructor |].
      intros Hb'. destruct (Hb Hb') as [-> Hlog]. done.
Qed.

Lemma camera_load_loaded w c :
  w_camera w = Some c → initialized c = true → buffer_count c ≠ 0 →
  camera_load K w = Some (true, w).
Proof.
  intros Hc Hinit Hcount. unfold camera_load.
  mstep (get_Some initialized w c Hc). rewrite Hinit. cbn [negb].
  rewrite bind_ret. cbn [negb].
  mstep (get_Some buffer_count w c Hc).
  by rewrite bool_decide_eq_false_2.
Qed.

(** X16.  On a camera that is initialized and has buffers, with no
    call interrupted, [camera_start] negotiates and allocates nothing:
    the only requests it makes are [VIDIOC_QBUF] and
    [VIDIOC_STREAMON]; the buffers it hands to the driver are those of
    the indices 0, 1, ... in this order and without a gap;
    [VIDIOC_STREAMON] is requested only after all of them have been
    handed over; and when it returns true, all of them have been and
    the stream-on request was its last call and did not fail.  The
    camera object and the mappings are as before. *)
Theorem start_enqueues_every_buffer w c :
  w_camera w = Some c → initialized c = true → buffer_count c ≠ 0 →
  ∃ b w' evs k,
    camera_start K w = Some (b, w')
    ∧ w_trace w' = w_trace w ++ evs
    ∧ w_camera w' = Some c
    ∧ w_mapped w' = w_mapped w
    ∧ (k ≤ Z.to_nat (buffer_count c))%nat
    ∧ omap enqueued evs = Z.of_nat <$> seq 0 k
    ∧ Forall (λ name, name = "VIDIOC_QBUF"%string ∨ name = "VIDIOC_STREAMON"%string)
        (omap request_of evs)
    ∧ ("VIDIOC_STREAMON"%string ∈ omap request_of evs
       → k = Z.to_nat (buffer_count c))
    ∧ (b = true
       → k = Z.to_nat (buffer_count c)
         ∧ ∃ r, r.1 ≠ -1
              ∧ last evs = Some (EvSys (sys_ioctl (fd c) VIDIOC_STREAMON
                                          V4L2_BUF_TYPE_VIDEO_CAPTURE) r)).
Proof.
  intros Hc Hinit Hcount. unfold camera_start.
  mstep (camera_load_loaded w c Hc Hinit Hcount). cbn [negb].
  mstep (get_Some buffer_count w c Hc).
  destruct (start_loop_order (Z.to_nat (buffer_count c)) 0 w c Hc)
    as (b & w1 & evs & k & Hrun & Ht & Hc1 & Hm1 & Hk & Hq & HF & Hb).
  mstep Hrun. destruct b; cbn [negb].
  2: { exists false, w1, evs, k. repeat (split; [done |]).
       split; [eapply Forall_impl; [exact HF | by left] |].
       split; [| done]. intros Hin.
       by apply (proj1 (Forall_forall _ _) HF) in Hin. }
  destruct (Hb eq_refl) as [-> Hlog]. clear Hb.
  mstep (get_Some fd w1 c Hc1).
  rewrite (bind_Some _ _ _ _ _ (xioctl_uninterrupted _ _ _ _)). cbn beta.
  set (call := sys_ioctl (fd c) VIDIOC_STREAMON V4L2_BUF_TYPE_VIDEO_CAPTURE).
  set (r := k_result K (w_clock w1) _ call).
  set (w2 := {| w_camera := w_camera w1; w_errno := k_errno K (w_clock w1);
                w_clock := S (w_clock w1); w_mapped := w_mapped w1;
                w_trace := w_trace w1 ++ [EvSys call r]; w_diag := w_diag w1 |}).
  assert (w_camera w2 = Some c) as Hc2 by done.
  assert (Forall (λ name, name = "VIDIOC_QBUF"%string ∨ name = "VIDIOC_STREAMON"%string)
            (omap request_of evs)) as HF'.
  { eapply Forall_impl; [exact HF | by left]. }
  destruct (decide (r.1 = -1)).
  - rewrite (error_Some _ _ _ Hc2).
    eexists false, _, (evs ++ [EvSys call r; EvLog CAMERA_ERROR "VIDIOC_STREAMON" _]), _.
    split; [reflexivity |].
    split; [simpl; rewrite Ht; by rewrite <- !app_assoc |].
    split; [done |]. split; [done |]. split; [done |].
    split; [rewrite omap_app, Hq; simpl; by rewrite app_nil_r |].
    split; [rewrite omap_app; apply Forall_app; split; [done | by repeat constructor] |].
    done.
  - exists true, w2, (evs ++ [EvSys call r]), (Z.to_nat (buffer_count c)).
    split; [reflexivity |].
    split; [simpl; rewrite Ht; by rewrite <- !app_assoc |].
    split; [done |]. split; [done |]. split; [done |].
    split; [rewrite omap_app, Hq; simpl; by rewrite app_nil_r |].
    split; [rewrite omap_app; apply Forall_app; split; [done | by repeat constructor] |].
    split; [done |]. intros _. split; [done |].
    exists r. split; [done |]. by rewrite last_snoc.
Qed.

End Streaming.

Lemma start_enqueues_every_buffer_witness :
  ∃ w' evs,
    camera_start Stub.device configured = Some (true, w')
    ∧ w_trace w' = w_trace configured ++ evs
    ∧ omap enqueued evs = [0; 1]
    ∧ omap request_of evs = ["VIDIOC_QBUF"; "VIDIOC_QBUF"; "VIDIOC_STREAMON"]%string.
Proof.
  destruct (start_enqueues_every_buffer Stub.device (λ _, ltac:(discriminate))
              configured (camera_of configured))
    as (b & w' & evs & k & Hrun & Ht & _ & _ & _ & Hq & _ & _ & Hb).
  - vm_compute. reflexivity.
  - reflexivity.
  - vm_compute. discriminate.
  - assert (camera_start Stub.device configured
            = Some (true, run (camera_start Stub.device) configured)) as Hrun'
      by (vm_compute; reflexivity).
    rewrite Hrun in Hrun'. apply (inj Some) in Hrun'.
    apply pair_equal_spec in Hrun' as [-> Hw'].
    exists w', evs. split; [exact Hrun |]. split; [exact Ht |].
    destruct (Hb eq_refl) as [Hk _].
    assert (Z.to_nat (buffer_count (camera_of configured)) = 2%nat) as Hcount
      by (vm_compute; reflexivity).
    rewrite Hcount in Hk. rewrite Hk in Hq.
    split; [exact Hq |].
    assert (evs = drop (length (w_trace configured)) (w_trace w')) as ->.
    { rewrite Ht. symmetry. apply drop_app_length. }
    rewrite Hw'. vm_compute. reflexivity.
Defined.

(** ** The snapshot block and the negotiated size *)

Section Snapshot.
Context (K : kernel).

Lemma bail_out_None {A} (m : M unit) (e : M bool) w (x : A) w' :
  (m;; e;; mret None) w = Some (Some x, w') → False.
Proof.
  unfold mbind, M_bind, mret, M_ret.
  destruct (m w) as [[? w1] |]; [| done].
  destruct (e w1) as [[? w2] |]; done.
Qed.

Lemma foldl_max_le bm ls : bm ≤ foldl Z.max bm ls ∧ Forall (λ l, l ≤ foldl Z.max bm ls) ls.
Proof.
  revert bm. induction ls as [| l ls IH]; intros bm; simpl; [split; [lia | done] |].
  destruct (IH (Z.max bm l)) as [Hle HF]. split; [lia |].
  constructor; [lia | done].
Qed.

Lemma xioctl_events_no_format {A} fd (request : ioctl_request A) arg evs r :
  xioctl_events fd request arg evs r →
  request_name request ≠ "VIDIOC_G_FMT"%string →
  omap format_answer evs = [].
Proof.
  intros Hev Hreq. induction Hev as [arg r | arg arg' evs r _ IH].
  - by destruct request.
  - change (omap format_answer (?e :: evs)) with
      (from_option (λ x, x :: omap format_answer evs) (omap format_answer evs)
         (format_answer e)).
    rewrite IH. by destruct request.
Qed.

(** The loop of [camera_buffer_prepare] when it runs to its end: the
    running maximum is the largest length of the buffers it filled in. *)
Lemma prepare_loop_sizes n :
  ∀ i buf_max w c done buf_max' w',
    w_camera w = Some c →
    buffers c = Some (done ++ replicate n zero_slot) →
    length done = i →
    prepare_loop K n i buf_max w = Some (Some buf_max', w') →
    ∃ more evs, length more = n
      ∧ w_camera w' = Some (set_buffers (Some (done ++ more)) c)
      ∧ buf_max' = foldl Z.max buf_max (b_length <$> more)
      ∧ w_trace w' = w_trace w ++ evs
      ∧ omap format_answer evs = [].
Proof.
  induction n as [| n IH]; intros i buf_max w c done buf_max' w' Hc Hbs Hlen Hrun.
  { injection Hrun as <- <-. exists [], []. simpl in Hbs. rewrite !app_nil_r in *.
    split; [done |]. split; [| repeat split; reflexivity].
    rewrite Hc. f_equal. destruct c; simpl in *. by subst. }
  cbn [prepare_loop] in Hrun.
  rewrite (bind_Some _ _ _ _ _ (get_Some fd w c Hc)) in Hrun. cbn beta in Hrun.
  destruct (xioctl_spec K (fd c) VIDIOC_QUERYBUF (capture_buffer (Z.of_nat i)) w)
    as (rb & w1 & evq & Hx & [Hc1 _ _ Ht1] & Hev & _).
  rewrite (bind_Some _ _ _ _ _ Hx) in Hrun. cbn beta in Hrun. rewrite Hc in Hc1.
  apply xioctl_events_no_format in Hev; [| done].
  destruct (decide (rb.1 = -1)) as [Hfail | Hok].
  { by apply bail_out_None in Hrun. }
  set (len := buf_length rb.2) in *.
  rewrite (bind_Some _ _ _ _ _ (set_Some (set_buffer_length i len) w1 c Hc1)) in Hrun.
  cbn beta in Hrun.
  set (w2 := with_camera _ w1) in Hrun.
  destruct (mmap_spec K NULL len (Z.lor PROT_READ PROT_WRITE) MAP_SHARED (fd c)
              (buf_m_offset rb.2) w2) as (p & w3 & Hmap & Hc3 & Ht3 & _).
  rewrite (bind_Some _ _ _ _ _ Hmap) in Hrun. cbn beta in Hrun.
  rewrite (bind_Some _ _ _ _ _ (set_Some (set_buffer_start i p) w3 _ Hc3)) in Hrun.
  cbn beta in Hrun.
  set (w4 := with_camera _ w3) in Hrun.
  set (b := {| b_start := p; b_length := len |}).
  assert (w_camera w4 =
            Some (set_buffers (Some (done ++ b :: replicate n zero_slot)) c)) as Hc4.
  { subst w4 w2. simpl. f_equal. unfold set_buffer_start, set_buffer_length.
    cbn [buffers set_buffers]. rewrite Hbs.
    cbn [fmap option_fmap option_map].
    rewrite replicate_S, !alter_at_end by done. done. }
  assert (w_trace w4 = w_trace w ++ evq
                       ++ [EvSys (sys_mmap NULL len (Z.lor PROT_READ PROT_WRITE)
                                    MAP_SHARED (fd c) (buf_m_offset rb.2)) p]) as Ht4.
  { subst w4 w2. simpl. rewrite Ht3. simpl. rewrite Ht1. by rewrite <- app_assoc. }
  clearbody w4.
  destruct (decide (p = MAP_FAILED)) as [Hmf | Hmapped].
  { by apply bail_out_None in Hrun. }
  destruct (IH (S i) (if buf_max <? len then len else buf_max) w4 _ (done ++ [b])
              buf_max' w' Hc4) as (more & evs & Hlm & Hc5 & Hmax & Ht5 & Hf5).
  - simpl. by rewrite <- app_assoc.
  - rewrite length_app. simpl. lia.
  - exact Hrun.
  - exists (b :: more), (evq ++ [EvSys (sys_mmap NULL len (Z.lor PROT_READ PROT_WRITE)
                                          MAP_SHARED (fd c) (buf_m_offset rb.2)) p] ++ evs).
    split; [simpl; lia |].
    split; [rewrite Hc5; simpl; by rewrite <- app_assoc |].
    split.
    { rewrite Hmax. simpl. f_equal. unfold Z.max.
      destruct (Z.ltb_spec buf_max len), (Z.compare_spec buf_max len); lia. }
    split; [rewrite Ht5, Ht4; by rewrite <- !app_assoc |].
    by rewrite !omap_app, Hev, Hf5.
Qed.

(** A successful [camera_buffer_prepare] in full: the camera it leaves. *)
Lemma prepare_success w c w' :
  w_camera w = Some c →
  camera_buffer_prepare K w = Some (true, w') →
  ∃ count bs evs,
    w_camera w' =
      Some (set_head_start
              (Some (replicate (Z.to_nat (foldl Z.max 0 (b_length <$> bs))) 0))
              (set_buffers (Some bs) (set_buffer_count count c)))
    ∧ w_trace w' = w_trace w ++ evs
    ∧ omap format_answer evs = [].
Proof.
  intros Hc Hrun.
  unfold camera_buffer_prepare in Hrun.
  rewrite (bind_Some _ _ _ _ _ (get_Some fd w c Hc)) in Hrun. cbn beta in Hrun.
  match type of Hrun with
  | context [xioctl K ?f ?q ?a ≫= _] =>
      destruct (xioctl_spec K f q a w) as (rr & w1 & evr & Hx & [Hc1 _ _ Ht1] & Hev & _)
  end.
  rewrite (bind_Some _ _ _ _ _ Hx) in Hrun. cbn beta in Hrun. rewrite Hc in Hc1.
  apply xioctl_events_no_format in Hev; [| done].
  destruct (decide (rr.1 = -1)) as [Hfail | Hok].
  { rewrite (error_Some _ _ _ Hc1) in Hrun. discriminate Hrun. }
  rewrite (bind_Some _ _ _ _ _ (set_Some (set_buffer_count (req_count rr.2)) w1 c Hc1))
    in Hrun. cbn beta in Hrun.
  set (w2 := with_camera _ w1) in Hrun.
  set (n := Z.to_nat (req_count rr.2)) in *.
  rewrite (bind_Some _ _ _ _ _
             (set_Some (set_buffers (Some (replicate n zero_slot))) w2 _ eq_refl))
    in Hrun. cbn beta in Hrun.
  set (c3 := set_buffers (Some (replicate n zero_slot))
               (set_buffer_count (req_count rr.2) c)) in *.
  set (w3 := with_camera (Some c3) w2) in Hrun.
  rewrite (bind_Some _ _ _ _ _ (get_Some buffer_count w3 c3 eq_refl)) in Hrun.
  cbn beta in Hrun.
  change (Z.to_nat (buffer_count c3)) with n in Hrun.
  destruct (prepare_loop K n 0 0 w3) as [[[bm |] w4] |] eqn:Hloop.
  2: { rewrite (bind_Some _ _ _ _ _ Hloop) in Hrun. discriminate Hrun. }
  2: { unfold mbind, M_bind in Hrun. by rewrite Hloop in Hrun. }
  rewrite (bind_Some _ _ _ _ _ Hloop) in Hrun. cbn beta in Hrun.
  destruct (prepare_loop_sizes n 0 0 w3 c3 [] bm w4 eq_refl eq_refl eq_refl Hloop)
    as (more & evs & Hlm & Hc4 & Hmax & Ht4 & Hf4).
  rewrite (bind_Some _ _ _ _ _ (set_Some _ w4 _ Hc4)) in Hrun. cbn beta in Hrun.
  injection Hrun as <-.
  exists (req_count rr.2), more, (evr ++ evs). subst bm. split; [reflexivity |].
  split; [simpl; rewrite Ht4; simpl; rewrite Ht1; by rewrite <- app_assoc |].
  by rewrite omap_app, Hev, Hf4.
Qed.

(** X17.  After a successful [camera_buffer_prepare] the snapshot
    block is filled with zeros and exactly as long as the longest
    buffer (empty when there is no buffer), so that a frame of any
    buffer fits it. *)
Theorem snapshot_fits_every_buffer w c :
  w_camera w = Some c →
  ∃ b w', camera_buffer_prepare K w = Some (b, w')
    ∧ (b = true →
       ∃ c' bs block,
         w_camera w' = Some c'
         ∧ buffers c' = Some bs
         ∧ h_start (head c') = Some block
         ∧ Z.of_nat (length block) = foldl Z.max 0 (b_length <$> bs)
         ∧ Forall (λ b, b_length b ≤ Z.of_nat (length block)) bs
         ∧ Forall (λ x, x = 0) block).
Proof.
  intros Hc.
  destruct (camera_buffer_prepare_spec K w c Hc)
    as (b & w' & evs & c' & Hrun & _).
  exists b, w'. split; [exact Hrun |]. intros ->.
  destruct (prepare_success w c w' Hc Hrun) as (count & bs & evs' & Hc' & _).
  destruct (foldl_max_le 0 (b_length <$> bs)) as [Hpos HF].
  eexists _, bs, _. split; [exact Hc' |]. split; [done |]. split; [done |].
  rewrite length_replicate, Z2Nat.id by done.
  split; [done |]. split; [| by apply Forall_replicate].
  clear -HF. set (m := foldl Z.max 0 (b_length <$> bs)) in *. clearbody m.
  induction bs as [| b bs IH]; [done |].
  inversion HF; subst. constructor; [done | by apply IH].
Qed.

Lemma xioctl_events_format_answer fd arg evs r :
  xioctl_events fd VIDIOC_G_FMT arg evs r → r.1 ≠ -1 →
  omap format_answer evs = [(pix_width (fmt_pix r.2), pix_height (fmt_pix r.2))].
Proof.
  intros Hev Hok. induction Hev as [arg r | arg arg' evs r _ IH].
  - change (from_option (λ x, [x]) [] (format_answer (EvSys (sys_ioctl fd VIDIOC_G_FMT arg) r))
            = [(pix_width (fmt_pix r.2), pix_height (fmt_pix r.2))]).
    unfold format_answer. by rewrite decide_False.
  - change (omap format_answer (?e :: evs)) with
      (from_option (λ x, x :: omap format_answer evs) (omap format_answer evs)
         (format_answer e)).
    rewrite IH by done. unfold format_answer. by rewrite decide_True.
Qed.

(** [camera_load_settings] when it succeeds. *)
Lemma load_settings_success w c w' :
  w_camera w = Some c →
  camera_load_settings K w = Some (true, w') →
  ∃ size evs,
    w_camera w' = Some (set_height size.2 (set_width size.1 c))
    ∧ w_trace w' = w_trace w ++ evs
    ∧ omap format_answer evs = [size].
Proof.
  intros Hc. unfold camera_load_settings. mstep (get_Some fd w c Hc).
  xioctl_step K w r w1 evs Hx Hso Hev.
  assert (w_camera w1 = Some c) as Hc1 by (destruct Hso; congruence).
  destruct (decide (r.1 = -1)) as [Hfail | Hok].
  { by rewrite (error_Some _ _ _ Hc1). }
  mstep (set_Some (set_width (pix_width (fmt_pix r.2))) w1 c Hc1).
  match goal with
  | |- (set ?f ≫= _) ?w0 = _ → _ =>
      rewrite (bind_Some _ _ _ _ _ (set_Some f w0 _ eq_refl)); cbn beta
  end.
  intros [= <-].
  exists (pix_width (fmt_pix r.2), pix_height (fmt_pix r.2)), evs.
  split; [done |]. split; [by destruct Hso |].
  by eapply xioctl_events_format_answer.
Qed.

(** X18.  After a successful [camera_config] the width and the
    height of the camera are those the driver reported in its last
    successful answer to [VIDIOC_G_FMT] during the call, whatever the
    configuration asked for. *)
Theorem config_adopts_driver_format config w c :
  w_camera w = Some c → wf_camera c →
  ∃ b w', camera_config K config w = Some (b, w')
    ∧ (b = true →
       ∃ c' evs,
         w_camera w' = Some c'
         ∧ w_trace w' = w_trace w ++ evs
         ∧ last (omap format_answer evs) = Some (width c', height c')).
Proof.
  intros Hc Hwf.
  destruct (camera_config_spec K config w c Hc Hwf) as (b & w' & evs0 & c0 & Hrun & _).
  exists b, w'. split; [exact Hrun |]. intros ->. revert Hrun.
  unfold camera_config. mstep (get_Some buffer_count w c Hc).
  destruct (teardown_spec K w c Hc Hwf)
    as (b1 & w1 & evs1 & c1 & Hrun1 & Ht1 & Hc1 & _).
  mstep Hrun1. destruct b1; cbn [negb]; [| done].
  mstep (get_Some initialized w1 c1 Hc1).
  assert (∃ b2 w2, (if negb (initialized c1) then camera_init K else mret true) w1
                   = Some (b2, w2) ∧ quiet_run c1 w1 b2 w2) as (b2 & w2 & Hrun2 & Hq2).
  { destruct (initialized c1); cbn [negb].
    - eexists _, _. split; [reflexivity |]. by apply quiet_refl.
    - by apply camera_init_quiet. }
  mstep Hrun2. destruct b2; cbn [negb]; [| done].
  destruct Hq2 as (evs2 & c2 & Ht2 & _ & Hc2 & _).
  destruct (camera_set_config_quiet K config w2 c2 Hc2) as (b3 & w3 & Hrun3 & Hq3).
  mstep Hrun3. destruct b3; cbn [negb]; [| done].
  destruct Hq3 as (evs3 & c3 & Ht3 & _ & Hc3 & _).
  destruct (camera_load_settings K w3) as [[b4 w4] |] eqn:Hrun4.
  2: { unfold mbind, M_bind. by rewrite Hrun4. }
  mstep Hrun4. destruct b4; cbn [negb]; [| done].
  destruct (load_settings_success w3 c3 w4 Hc3 Hrun4) as (size & evs4 & Hc4 & Ht4 & Hf4).
  intros Hrun5.
  destruct (prepare_success w4 _ w' Hc4 Hrun5) as (count & bs & evs5 & Hc5 & Ht5 & Hf5).
  eexists _, ((((evs1 ++ evs2) ++ evs3) ++ evs4) ++ evs5).
  split; [exact Hc5 |].
  split; [rewrite Ht5, Ht4, Ht3, Ht2, Ht1; by rewrite !app_assoc |].
  rewrite !omap_app, Hf4, Hf5, app_nil_r. rewrite last_snoc.
  by destruct size.
Qed.

End Snapshot.

Lemma config_adopts_driver_format_witness :
  ∃ w', camera_config Stub.device qvga opened = Some (true, w')
      ∧ width (camera_of w') = 640 ∧ height (camera_of w') = 480.
Proof.
  destruct (config_adopts_driver_format Stub.device qvga opened (initial_camera 3)
              eq_refl eq_refl) as (b & w' & Hrun & _).
  assert (camera_config Stub.device qvga opened
          = Some (true, run (camera_config Stub.device qvga) opened)) as Hrun'
    by (vm_compute; reflexivity).
  rewrite Hrun in Hrun'. apply (inj Some) in Hrun'.
  apply pair_equal_spec in Hrun' as [-> Hw'].
  exists w'. split; [exact Hrun |].
  rewrite Hw'. split; vm_compute; reflexivity.
Defined.

Lemma snapshot_fits_every_buffer_witness :
  ∃ w', camera_buffer_prepare Stub.device opened = Some (true, w')
      ∧ h_start (head (camera_of w')) = Some (replicate 8 0).
Proof.
  destruct (snapshot_fits_every_buffer Stub.device opened (initial_camera 3) eq_refl)
    as (b & w' & Hrun & Hfit).
  assert (camera_buffer_prepare Stub.device opened
          = Some (true, run (camera_buffer_prepare Stub.device) opened)) as Hrun'
    by (vm_compute; reflexivity).
  rewrite Hrun in Hrun'. apply (inj Some) in Hrun'.
  apply pair_equal_spec in Hrun' as [-> Hw'].
  exists w'. split; [exact Hrun |].
  rewrite Hw'. vm_compute. reflexivity.
Defined.

(** ** The control catalogue *)

Section Catalogue.
Import Controls.
Context (H : header) (D : driver).

Lemma C_bind_Some {A B} (m : C A) (f : A → C B) s a s' :
  m s = Some (a, s') → (m ≫= f) s = f a s'.
Proof. intros Hm. unfold mbind, C_bind. by rewrite Hm. Qed.

Lemma menu_probes_ctrl fd id t mindex n :
  omap ctrl_probe (menu_probes D fd id t mindex n) = []
  ∧ omap accepted (menu_probes D fd id t mindex n) = [].
Proof.
  unfold menu_probes. generalize (seq mindex n). intros l.
  induction l as [| i l [IH1 IH2]]; [done |]. split; simpl; done.
Qed.

(** The loop of [camera_controls_menus]: each entry is looked up once,
    in index order, and keeps its place. *)
Lemma menus_loop_spec fd copy id t n :
  ∀ mindex done s,
    length done = mindex → st_clock s = (t + mindex)%nat →
    ∃ s', menus_loop D fd copy id n mindex (done ++ replicate n menu_zero) s
          = Some (done ++ (probed_entry D fd copy id t <$> seq mindex n), s')
        ∧ st_clock s' = (st_clock s + n)%nat
        ∧ st_live s' = st_live s
        ∧ st_probes s' = st_probes s ++ menu_probes D fd id t mindex n.
Proof.
  induction n as [| n IH]; intros mindex done s Hlen Ht.
  - exists s. simpl. rewrite Nat.add_0_r, !app_nil_r. done.
  - cbn [menus_loop].
    rewrite (C_bind_Some _ _ s _ _ eq_refl). cbn beta.
    set (r := query_menu D (st_clock s) fd (menu_query id (Z.of_nat mindex))).
    set (s1 := {| st_clock := S (st_clock s); st_live := st_live s;
                  st_probes := st_probes s ++ [ProbeMenu _ r] |}).
    cbn [fst snd].
    set (entry := if decide (r.1 = 0) then copy menu_zero r.2 else menu_zero).
    assert ((if decide (r.1 = 0)
             then alter (λ m, copy m r.2) mindex (done ++ replicate (S n) menu_zero)
             else done ++ replicate (S n) menu_zero)
            = (done ++ [entry]) ++ replicate n menu_zero) as ->.
    { subst entry. rewrite replicate_S, <- app_assoc. destruct (decide (r.1 = 0)); [| done].
      by rewrite alter_at_end. }
    destruct (IH (S mindex) (done ++ [entry]) s1) as (s' & Hrun & Hclock & Hlive & Hp).
    { rewrite length_app. simpl. lia. }
    { subst s1. simpl. lia. }
    exists s'. rewrite Hrun. split.
    { f_equal. f_equal. rewrite <- app_assoc. f_equal. cbn [seq fmap list_fmap].
      f_equal. unfold probed_entry. subst entry r. by rewrite Ht. }
    subst s1. simpl in *. split; [lia |]. split; [done |].
    rewrite Hp, <- app_assoc. f_equal. unfold menu_probes. cbn [seq fmap list_fmap].
    subst r. by rewrite Ht.
Qed.

Lemma fill_menus_spec fd copy control s :
  0 ≤ control_max control + 1 →
  let n := Z.to_nat (control_max control + 1) in
  ∃ s', fill_menus D fd copy control s
        = Some (set_menus
                  {| menus_length := control_max control + 1;
                     menus_head := Some (probed_entry D fd copy (control_id control)
                                           (st_clock s) <$> seq 0 n) |}
                  control, s')
      ∧ st_clock s' = (st_clock s + n)%nat
      ∧ st_live s' = st_live s ⊎ {[+ (MenuArray, control_max control + 1) +]}
      ∧ st_probes s' = st_probes s ++ menu_probes D fd (control_id control) (st_clock s) 0 n.
Proof.
  intros Hmax n. unfold fill_menus. rewrite decide_True by done.
  rewrite (C_bind_Some _ _ s _ _ eq_refl). cbn beta.
  set (s1 := {| st_clock := st_clock s;
                st_live := st_live s ⊎ {[+ (MenuArray, control_max control + 1) +]};
                st_probes := st_probes s |}).
  destruct (menus_loop_spec fd copy (control_id control) (st_clock s) n 0 [] s1)
    as (s' & Hrun & Hclock & Hlive & Hp); [done | simpl; lia |].
  simpl in Hrun. fold n. rewrite (C_bind_Some _ _ s1 _ _ Hrun). cbn beta.
  exists s'. split; [done |]. done.
Qed.

(** X19.  For a control whose type has a menu, with a maximum of at
    least -1, [camera_controls_menus] makes an array of [max + 1]
    entries and probes every index 0, ..., [max] once, in this order,
    with [VIDIOC_QUERYMENU] for the id of the control: the entry of an
    index the driver accepts (the call returns 0) holds what the copy
    function of the type stores, the name for a menu and the value for
    an integer menu; the entry of an index the driver rejects stays as
    [calloc] left it, and every entry is at its own index. *)
Theorem menu_entries_keep_their_index fd control s :
  has_menu H (control_type control) = true →
  0 ≤ control_max control + 1 →
  let n := Z.to_nat (control_max control + 1) in
  let entry := probed_entry D fd (copy_for H (control_type control))
                 (control_id control) (st_clock s) in
  ∃ s', camera_controls_menus H D fd control s
        = Some (set_menus {| menus_length := control_max control + 1;
                             menus_head := Some (entry <$> seq 0 n) |} control, s')
      ∧ st_clock s' = (st_clock s + n)%nat
      ∧ st_live s' = st_live s ⊎ {[+ (MenuArray, control_max control + 1) +]}
      ∧ st_probes s' = st_probes s ++ menu_probes D fd (control_id control) (st_clock s) 0 n.
Proof.
  intros Htype Hmax n entry. unfold camera_controls_menus. subst entry. unfold copy_for.
  unfold has_menu in Htype.
  destruct (decide (control_type control = CAMERA_CTRL_MENU H)) as [Hm | Hm].
  - by apply fill_menus_spec.
  - rewrite (bool_decide_eq_false_2 _ Hm) in Htype. cbn [orb] in Htype.
    apply bool_decide_eq_true in Htype. rewrite decide_True by done.
    by apply fill_menus_spec.
Qed.

Lemma describes_menus fd q s :
  (has_menu H (qc_type q) = true → 0 ≤ qc_maximum q + 1) →
  ∃ c s' ps,
    camera_controls_menus H D fd (describe q) s = Some (c, s')
    ∧ describes H c q
    ∧ st_live s' = st_live s ⊎ menu_blocks [c]
    ∧ st_probes s' = st_probes s ++ ps
    ∧ omap ctrl_probe ps = [] ∧ omap accepted ps = [].
Proof.
  intros Hrange. destruct (has_menu H (qc_type q)) eqn:Htype.
  - assert (∃ copy s',
              camera_controls_menus H D fd (describe q) s
              = Some (set_menus
                        {| menus_length := qc_maximum q + 1;
                           menus_head := Some (probed_entry D fd copy (qc_id q) (st_clock s)
                                                 <$> seq 0 (Z.to_nat (qc_maximum q + 1))) |}
                        (describe q), s')
              ∧ st_live s' = st_live s ⊎ {[+ (MenuArray, qc_maximum q + 1) +]}
              ∧ st_probes s' = st_probes s
                  ++ menu_probes D fd (qc_id q) (st_clock s) 0 (Z.to_nat (qc_maximum q + 1)))
      as (copy & s' & Hrun & Hlive & Hp).
    { unfold camera_controls_menus. cbn [describe control_type].
      pose proof Htype as Htype'. unfold has_menu in Htype'.
      destruct (decide (qc_type q = CAMERA_CTRL_MENU H)) as [Hm | Hm].
      - destruct (fill_menus_spec fd camera_menu_copy (describe q) s (Hrange eq_refl))
          as (s' & Hrun & _ & Hlive & Hp).
        by exists camera_menu_copy, s'.
      - rewrite (bool_decide_eq_false_2 _ Hm) in Htype'. cbn [orb] in Htype'.
        apply bool_decide_eq_true in Htype'. rewrite decide_True by done.
        destruct (fill_menus_spec fd camera_integer_menu_copy (describe q) s (Hrange eq_refl))
          as (s' & Hrun & _ & Hlive & Hp).
        by exists camera_integer_menu_copy, s'. }
    eexists _, s', _. split; [exact Hrun |].
    split.
    { split; [done |]. cbn [describe control_type]. rewrite Htype. simpl.
      split; [done |]. eexists. split; [done |].
      rewrite length_fmap, length_seq, Z2Nat.id; [done |]. by apply Hrange. }
    split.
    { rewrite Hlive. unfold menu_blocks, menu_block. simpl. multiset_solver. }
    split; [exact Hp |]. apply menu_probes_ctrl.
  - unfold camera_controls_menus. unfold has_menu in Htype.
    apply orb_false_elim in Htype as [Hm Hi].
    apply bool_decide_eq_false in Hm, Hi. cbn [describe control_type].
    rewrite !decide_False by done.
    eexists _, s, []. split; [reflexivity |].
    split.
    { split; [done |]. unfold has_menu.
      by rewrite !bool_decide_eq_false_2 by done. }
    split; [unfold menu_blocks; simpl; multiset_solver |].
    split; [by rewrite app_nil_r | done].
Qed.

Lemma menu_blocks_app cs1 cs2 : menu_blocks (cs1 ++ cs2) = menu_blocks cs1 ⊎ menu_blocks cs2.
Proof. unfold menu_blocks. by rewrite omap_app, list_to_set_disj_app. Qed.

(** The loop of [camera_controls_query]: one probe for each id, in
    order; an accepted id adds its descriptor at the end of the list. *)
Lemma query_loop_spec fd n :
  menus_in_range H D fd →
  ∀ cid control_list s,
    ∃ cs s' ps,
      query_loop H D fd n cid control_list s = Some (control_list ++ cs, s')
      ∧ st_probes s' = st_probes s ++ ps
      ∧ omap ctrl_probe ps = seqZ cid (Z.of_nat n)
      ∧ Forall2 (describes H) cs (omap accepted ps)
      ∧ st_live s' = st_live s ⊎ menu_blocks cs
      ∧ (length cs ≤ n)%nat.
Proof.
  intros Hrange. induction n as [| n IH]; intros cid control_list s.
  - exists [], s, []. rewrite !app_nil_r. split; [done |]. split; [done |].
    split; [done |]. split; [constructor |].
    split; [unfold menu_blocks; simpl; multiset_solver | done].
  - cbn [query_loop]. rewrite (C_bind_Some _ _ s _ _ eq_refl). cbn beta.
    set (r := query_ctrl D (st_clock s) fd (ctrl_query cid)).
    set (s1 := {| st_clock := S (st_clock s); st_live := st_live s;
                  st_probes := st_probes s ++ [ProbeCtrl (ctrl_query cid) r] |}).
    assert (seqZ cid (Z.of_nat (S n)) = cid :: seqZ (cid + 1) (Z.of_nat n)) as Hseq.
    { rewrite seqZ_cons by lia. f_equal. f_equal; lia. }
    destruct (decide (r.1 = -1)) as [Hrej | Hacc].
    + destruct (IH (cid + 1) control_list s1) as (cs & s' & ps & Hrun & Hp & Hids & Hd & Hlive & Hlen).
      exists cs, s', (ProbeCtrl (ctrl_query cid) r :: ps).
      split; [exact Hrun |].
      split; [rewrite Hp; subst s1; simpl; by rewrite <- app_assoc |].
      split.
      { rewrite Hseq.
        change (omap ctrl_probe (ProbeCtrl (ctrl_query cid) r :: ps))
          with (cid :: omap ctrl_probe ps). by rewrite Hids. }
      split.
      { change (omap accepted (ProbeCtrl (ctrl_query cid) r :: ps))
          with (from_option (λ q, q :: omap accepted ps) (omap accepted ps)
                  (accepted (ProbeCtrl (ctrl_query cid) r))).
        unfold accepted. by rewrite decide_True. }
      split; [done | lia].
    + destruct (describes_menus fd r.2 s1) as (c & s2 & ps2 & Hrun2 & Hd2 & Hlive2 & Hp2 & Hi2 & Ha2).
      { intros Htype. by apply (Hrange (st_clock s) (ctrl_query cid)). }
      rewrite (C_bind_Some _ _ s1 _ _ Hrun2). cbn beta.
      destruct (IH (cid + 1) (control_list ++ [c]) s2)
        as (cs & s' & ps & Hrun & Hp & Hids & Hd & Hlive & Hlen).
      exists (c :: cs), s', (ProbeCtrl (ctrl_query cid) r :: ps2 ++ ps).
      split; [rewrite Hrun; by rewrite <- app_assoc |].
      split; [rewrite Hp, Hp2; subst s1; simpl; by rewrite <- !app_assoc |].
      split.
      { rewrite Hseq.
        change (omap ctrl_probe (ProbeCtrl (ctrl_query cid) r :: ps2 ++ ps))
          with (cid :: omap ctrl_probe (ps2 ++ ps)). by rewrite omap_app, Hi2, Hids. }
      split.
      { change (omap accepted (ProbeCtrl (ctrl_query cid) r :: ps2 ++ ps))
          with (from_option (λ q, q :: omap accepted (ps2 ++ ps)) (omap accepted (ps2 ++ ps))
                  (accepted (ProbeCtrl (ctrl_query cid) r))).
        assert (accepted (ProbeCtrl (ctrl_query cid) r) = Some r.2) as ->.
        { unfold accepted. by rewrite decide_False. }
        cbn [from_option]. rewrite omap_app, Ha2. by constructor. }
      split; [| simpl; lia].
      rewrite Hlive, Hlive2. subst s1. simpl.
      change (c :: cs) with ([c] ++ cs). rewrite menu_blocks_app. multiset_solver.
Qed.

Lemma delete_loop_spec cs :
  ∀ s others,
    st_live s = others ⊎ menu_blocks cs →
    ∃ s', delete_loop cs s = Some ((), s')
        ∧ st_live s' = others
        ∧ st_probes s' = st_probes s ∧ st_clock s' = st_clock s.
Proof.
  induction cs as [| c cs IH]; intros s others Hlive.
  - exists s. split; [done |]. split; [| done].
    rewrite Hlive. unfold menu_blocks. simpl. multiset_solver.
  - cbn [delete_loop]. change (c :: cs) with ([c] ++ cs) in Hlive.
    rewrite menu_blocks_app in Hlive.
    unfold free_menus. unfold menu_blocks at 1 in Hlive. simpl in Hlive.
    unfold menu_block in Hlive.
    destruct (menus_head (control_menus c)) as [head |].
    + simpl in Hlive.
      set (b := (MenuArray, menus_length (control_menus c))) in *.
      assert (b ∈ st_live s) as Hin by (rewrite Hlive; multiset_solver).
      assert (free MenuArray (menus_length (control_menus c)) s
              = Some ((), {| st_clock := st_clock s; st_live := st_live s ∖ {[+ b +]};
                             st_probes := st_probes s |})) as Hfree.
      { unfold free. by rewrite decide_True. }
      rewrite (C_bind_Some _ _ s _ _ Hfree). cbn beta.
      match goal with |- context [delete_loop cs ?s1] =>
        destruct (IH s1 others) as (s' & Hrun & Hl & Hp & Hc) end.
      { simpl. rewrite Hlive. multiset_solver. }
      by exists s'.
    + rewrite (C_bind_Some _ _ s _ _ eq_refl). cbn beta.
      destruct (IH s others) as (s' & Hrun & Hl & Hp & Hc).
      { rewrite Hlive. simpl. multiset_solver. }
      by exists s'.
Qed.

Lemma camera_controls_new_spec fd s :
  menus_in_range H D fd →
  ∃ controls s' ps,
    camera_controls_new H D fd s = Some (controls, s')
    ∧ st_probes s' = st_probes s ++ ps
    ∧ omap ctrl_probe ps = probed_ids H
    ∧ Forall2 (describes H) (controls_head controls) (omap accepted ps)
    ∧ controls_length controls = Z.of_nat (length (controls_head controls))
    ∧ (length (controls_head controls) ≤ Z.to_nat (V4L2_CID_LASTP1 H - V4L2_CID_USER_BASE))%nat
    ∧ st_live s' = st_live s ⊎ menu_blocks (controls_head controls)
                     ⊎ {[+ (ControlsObject, 1) +]}
                     ⊎ {[+ (ControlArray, controls_length controls) +]}.
Proof.
  intros Hrange. unfold camera_controls_new, camera_controls_query.
  destruct (query_loop_spec fd (Z.to_nat (V4L2_CID_LASTP1 H - V4L2_CID_USER_BASE)) Hrange
              V4L2_CID_USER_BASE [] s) as (cs & s1 & ps & Hrun & Hp & Hids & Hd & Hlive & Hlen).
  simpl in Hrun. rewrite (C_bind_Some _ _ s _ _ Hrun). cbn beta.
  eexists _, _, ps. split; [reflexivity |]. simpl.
  split; [done |]. split.
  { rewrite Hids. unfold probed_ids, seqZ. by rewrite Nat2Z.id. }
  split; [done |]. split; [done |]. split; [done |].
  by rewrite Hlive.
Qed.

(** X20.  [camera_controls_new] probes every id from
    [V4L2_CID_USER_BASE] up to [V4L2_CID_LASTP1], once and in
    increasing order, with [VIDIOC_QUERYCTRL].  The list it returns
    has, in the order of the probes, one descriptor for every probe
    that did not return -1 and none for the others; a descriptor
    carries the fields and the decoded flags of its answer, with an
    array of [max + 1] menu entries when its type has a menu and a null
    array of length 0 otherwise.  The recorded length is the length of
    the list, and it never exceeds the size of the scratch array the
    list is collected in.  (The driver is taken to report no menu
    control with a maximum below -1.) *)
Theorem enumeration_lists_accepted_controls fd s :
  menus_in_range H D fd →
  ∃ controls s' ps,
    camera_controls_new H D fd s = Some (controls, s')
    ∧ st_probes s' = st_probes s ++ ps
    ∧ omap ctrl_probe ps = probed_ids H
    ∧ Forall2 (describes H) (controls_head controls) (omap accepted ps)
    ∧ controls_length controls = Z.of_nat (length (controls_head controls))
    ∧ (length (controls_head controls)
       ≤ Z.to_nat (V4L2_CID_LASTP1 H - V4L2_CID_USER_BASE))%nat.
Proof.
  intros Hrange.
  destruct (camera_controls_new_spec fd s Hrange)
    as (controls & s' & ps & Hrun & Hp & Hids & Hd & Hlen & Hbound & _).
  by exists controls, s', ps.
Qed.

(** X21.  [camera_controls_delete] after [camera_controls_new]
    frees every menu array and the catalogue object, but not the array
    of descriptors: of the blocks [camera_controls_new] allocated,
    exactly the array of descriptors is still allocated afterwards. *)
Theorem delete_leaves_control_array fd s :
  menus_in_range H D fd →
  ∃ controls s1 s2,
    camera_controls_new H D fd s = Some (controls, s1)
    ∧ camera_controls_delete controls s1 = Some ((), s2)
    ∧ st_live s2 = st_live s ⊎ {[+ (ControlArray, controls_length controls) +]}.
Proof.
  intros Hrange.
  destruct (camera_controls_new_spec fd s Hrange)
    as (controls & s1 & ps & Hrun & _ & _ & _ & _ & _ & Hlive).
  exists controls, s1. unfold camera_controls_delete.
  destruct (delete_loop_spec (controls_head controls) s1
              (st_live s ⊎ {[+ (ControlsObject, 1) +]}
               ⊎ {[+ (ControlArray, controls_length controls) +]}))
    as (s2 & Hdel & Hlive2 & _).
  { rewrite Hlive. multiset_solver. }
  rewrite (C_bind_Some _ _ s1 _ _ Hdel). cbn beta.
  unfold free. rewrite decide_True by (rewrite Hlive2; multiset_solver).
  eexists. split; [exact Hrun |]. split; [reflexivity |].
  simpl. rewrite Hlive2. multiset_solver.
Qed.

End Catalogue.

Section CatalogueExamples.
Import Controls.

Lemma two_controls_in_range : menus_in_range linux two_controls 3.
Proof.
  intros t arg r Hacc Htype. subst r. revert Hacc Htype. unfold two_controls. simpl.
  repeat destruct (decide _); simpl; intros; try done; lia.
Qed.

Lemma menu_entries_keep_their_index_witness :
  ∃ s', camera_controls_menus linux two_controls 3 (describe menu_answer) fresh
        = Some (set_menus
                  {| menus_length := 3;
                     menus_head := Some [menu_name (replicate 32 65); menu_zero;
                                         menu_name (replicate 32 67)] |}
                  (describe menu_answer), s')
      ∧ st_clock s' = 3%nat.
Proof.
  destruct (menu_entries_keep_their_index linux two_controls 3 (describe menu_answer) fresh)
    as (s' & Hrun & Hclock & _).
  - reflexivity.
  - vm_compute. discriminate.
  - exists s'. split; [exact Hrun | exact Hclock].
Defined.

Lemma enumeration_lists_accepted_controls_witness :
  ∃ controls s',
    camera_controls_new linux two_controls 3 fresh = Some (controls, s')
    ∧ controls_length controls = 2
    ∧ control_id <$> controls_head controls
      = [V4L2_CID_USER_BASE + 1; V4L2_CID_USER_BASE + 3]
    ∧ length (st_probes s') = 47%nat.
Proof.
  destruct (enumeration_lists_accepted_controls linux two_controls 3 fresh
              two_controls_in_range) as (controls & s' & ps & Hrun & _).
  set (m := camera_controls_new linux two_controls 3) in *.
  set (none := {| controls_length := 0; controls_head := [] |}).
  assert (m fresh = Some (result_of m fresh none, state_after m fresh)) as Hrun'.
  { unfold result_of, state_after. by rewrite Hrun. }
  rewrite Hrun in Hrun'. apply (inj Some) in Hrun'.
  apply pair_equal_spec in Hrun' as [Hc Hs].
  exists controls, s'. split; [exact Hrun |].
  rewrite Hs, Hc. repeat split; vm_compute; reflexivity.
Defined.

Lemma delete_leaves_control_array_witness :
  ∃ controls s1 s2,
    camera_controls_new linux two_controls 3 fresh = Some (controls, s1)
    ∧ camera_controls_delete controls s1 = Some ((), s2)
    ∧ st_live s2 = {[+ (ControlArray, 2) +]}.
Proof.
  destruct (delete_leaves_control_array linux two_controls 3 fresh two_controls_in_range)
    as (controls & s1 & s2 & Hrun & Hdel & Hlive).
  set (m := camera_controls_new linux two_controls 3) in *.
  set (none := {| controls_length := 0; controls_head := [] |}).
  assert (m fresh = Some (result_of m fresh none, state_after m fresh)) as Hrun'.
  { unfold result_of, state_after. by rewrite Hrun. }
  rewrite Hrun in Hrun'. apply (inj Some) in Hrun'.
  apply pair_equal_spec in Hrun' as [Hc _].
  exists controls, s1, s2. split; [exact Hrun |]. split; [exact Hdel |].
  rewrite Hlive.
  assert (controls_length controls = 2) as -> by (rewrite Hc; vm_compute; reflexivity).
  change (st_live fresh) with (∅ : gmultiset (kind * Z)). multiset_solver.
Defined.

End CatalogueExamples.

